(** * Bytebeam ESP-IDF SDK: the HAL layer ([main/bytebeam_esp_hal.c]) and the
      action table of [bytebeam_sdk.h], embedded in Rocq.

The C globals of [bytebeam_esp_hal.c] become one record that is threaded
through the handlers; calls into ESP-IDF (MQTT, HTTP, NVS) and into the
rest of the SDK ([publish_action_status]) are recorded, in program order,
in a trace of effects.  Undefined behaviour of C (signed overflow, a
floating value converted to an [int] that cannot hold it) is the [None]
of the option monad. *)

From Stdlib Require Import ZArith List Bool Lia.
From Stdlib Require Import Reals Lra Psatz.
From Stdlib Require Import Floats.SpecFloat.
From Stdlib Require Import DecimalString.
From Stdlib Require DecimalFacts DecimalPos DecimalZ.
From stdpp Require Import gmap strings.

Open Scope Z_scope.

(** ** C arithmetic: [int], [float] and [double] *)

Module CArith.

Definition INT_MIN : Z := -2147483648.
Definition INT_MAX : Z := 2147483647.

Definition in_int_range (z : Z) : bool := (INT_MIN <=? z) && (z <=? INT_MAX).

(** [a + b] on [int]: signed overflow is undefined. *)
Definition int_add (a b : Z) : option Z :=
  if in_int_range (a + b) then Some (a + b) else None.

(** IEEE 754 binary32 ([float]) and binary64 ([double]), on the
    specification floats of the standard library, rounding to nearest
    even. *)
Definition float_prec : Z := 24.
Definition float_emax : Z := 128.
Definition double_prec : Z := 53.
Definition double_emax : Z := 1024.

(** [(float) z] *)
Definition float_of_int (z : Z) : spec_float :=
  binary_normalize float_prec float_emax z 0 false.

(** [x / y] on [float] *)
Definition float_div (x y : spec_float) : spec_float :=
  SFdiv float_prec float_emax x y.

(** The promotion of a [float] to [double] is exact: every binary32 value
    is a binary64 value. *)
Definition double_of_float (x : spec_float) : spec_float := x.

(** The literal [100.00], a [double]. *)
Definition double_100 : spec_float :=
  binary_normalize double_prec double_emax 100 0 false.

(** [x * y] on [double] *)
Definition double_mul (x y : spec_float) : spec_float :=
  SFmul double_prec double_emax x y.

(** The integral part of [m * 2^e], for [m] positive. *)
Definition trunc_pos (m : positive) (e : Z) : Z :=
  match e with
  | Zneg p => Z.shiftr (Zpos m) (Zpos p)
  | _ => Z.shiftl (Zpos m) e
  end.

(** [(int) x] for a [double]: the fractional part is discarded; the
    behaviour is undefined when the integral part is not an [int], and for
    infinities and NaN. *)
Definition int_of_double (x : spec_float) : option Z :=
  match x with
  | S754_zero _ => Some 0
  | S754_finite s m e =>
      let a := trunc_pos m e in
      let v := if s then - a else a in
      if in_int_range v then Some v else None
  | S754_infinity _ | S754_nan => None
  end.

(** The real number [2^e], and the real number [m * 2^e] a finite float with
    mantissa [m] and exponent [e] stands for. *)
Definition bpow (e : Z) : R := powerRZ 2 e.

Definition F2R (m e : Z) : R := (IZR m * bpow e)%R.

(** [sprintf(buf, "%d", v)] *)
Definition sprintf_d (v : Z) : string := NilZero.string_of_int (Z.to_int v).

End CArith.

(** ** ESP-IDF: error codes, HTTP client events, non-volatile storage *)

Module Esp.

Inductive esp_err_t :=
| ESP_OK
| ESP_FAIL
| ESP_ERR_NVS_NOT_FOUND
| ESP_ERR_NVS_INVALID_HANDLE.

#[global] Instance esp_err_eq_dec : EqDecision esp_err_t.
Proof. solve_decision. Defined.

Inductive esp_http_client_event_id_t :=
| HTTP_EVENT_ERROR
| HTTP_EVENT_ON_CONNECTED
| HTTP_EVENT_HEADER_SENT
| HTTP_EVENT_ON_HEADER
| HTTP_EVENT_ON_DATA
| HTTP_EVENT_ON_FINISH
| HTTP_EVENT_DISCONNECTED.

(** The fields of [esp_http_client_event_t] the handlers read. *)
Record esp_http_client_event_t := {
  event_id : esp_http_client_event_id_t;
  evt_data_len : Z
}.

Definition on_data (n : Z) : esp_http_client_event_t :=
  {| event_id := HTTP_EVENT_ON_DATA; evt_data_len := n |}.

(** What the HTTP transport does during one request: the events it
    delivers to the registered handler, in order, and the code it
    returns. *)
Record http_transfer := {
  events : list esp_http_client_event_t;
  result : esp_err_t
}.

(** The [test_storage] namespace of NVS: the entries as written so far and
    the entries that have reached flash.  [nvs_commit] moves the first to
    the second; a restart keeps only the second. *)
Record nvs_t := {
  nvs_usable : bool;
  nvs_written : gmap string Z;
  nvs_flash : gmap string Z
}.

Definition nvs_get_i32 (n : nvs_t) (key : string) : esp_err_t * option Z :=
  if nvs_usable n then
    match nvs_written n !! key with
    | Some v => (ESP_OK, Some v)
    | None => (ESP_ERR_NVS_NOT_FOUND, None)
    end
  else (ESP_ERR_NVS_INVALID_HANDLE, None).

Definition nvs_set_i32 (n : nvs_t) (key : string) (v : Z) : nvs_t :=
  if nvs_usable n then
    {| nvs_usable := true;
       nvs_written := <[key := v]> (nvs_written n);
       nvs_flash := nvs_flash n |}
  else n.

Definition nvs_commit (n : nvs_t) : nvs_t :=
  if nvs_usable n then
    {| nvs_usable := true;
       nvs_written := nvs_written n;
       nvs_flash := nvs_written n |}
  else n.

Definition nvs_after_restart (n : nvs_t) : nvs_t :=
  {| nvs_usable := nvs_usable n;
     nvs_written := nvs_flash n;
     nvs_flash := nvs_flash n |}.

End Esp.

(** ** [bytebeam_esp_hal.c] *)

Module Hal.
  Import CArith Esp.

Inductive esp_log_level_t := ESP_LOG_ERROR | ESP_LOG_INFO | ESP_LOG_DEBUG.

(** Calls that leave the translation unit, in the order they are made.
    [EspLog] keeps the level and the format string of an [ESP_LOGx]. *)
Inductive effect :=
| EspLog (level : esp_log_level_t) (format : string)
| PublishActionStatus (action_id : string) (percent : Z) (status error : string)
| MqttClientInit
| MqttClientRegisterEvent
| MqttClientStart
| NvsOpen (namespace : string)
| NvsGetI32 (key : string) (err : esp_err_t)
| NvsSetI32 (key : string) (value : Z)
| NvsCommit
| NvsClose
| HttpClientInit
| HttpClientPerform
| HttpClientCleanup
| HttpsOta.

Definition is_publish (e : effect) : bool :=
  match e with PublishActionStatus _ _ _ _ => true | _ => false end.

Definition is_error_log (e : effect) : bool :=
  match e with EspLog ESP_LOG_ERROR _ => true | _ => false end.

(** The file-scope variables, followed by [ota_action_id] (defined with the
    actions, read here), the NVS partition and the trace. *)
Record hal_state := {
  downloaded_data_len : Z;
  ota_img_data_len : Z;
  update_progress_percent : Z;
  loop_var : Z;
  connection_status : Z;
  ota_update_completed : Z;
  ota_action_id_str : string;
  ota_action_id : string;
  nvs : nvs_t;
  trace : list effect
}.

Definition emit (e : effect) (s : hal_state) : hal_state :=
  {| downloaded_data_len := downloaded_data_len s;
     ota_img_data_len := ota_img_data_len s;
     update_progress_percent := update_progress_percent s;
     loop_var := loop_var s;
     connection_status := connection_status s;
     ota_update_completed := ota_update_completed s;
     ota_action_id_str := ota_action_id_str s;
     ota_action_id := ota_action_id s;
     nvs := nvs s;
     trace := trace s ++ [e] |}.

Definition set_downloaded_data_len (v : Z) (s : hal_state) : hal_state :=
  {| downloaded_data_len := v;
     ota_img_data_len := ota_img_data_len s;
     update_progress_percent := update_progress_percent s;
     loop_var := loop_var s;
     connection_status := connection_status s;
     ota_update_completed := ota_update_completed s;
     ota_action_id_str := ota_action_id_str s;
     ota_action_id := ota_action_id s;
     nvs := nvs s;
     trace := trace s |}.

Definition set_ota_img_data_len (v : Z) (s : hal_state) : hal_state :=
  {| downloaded_data_len := downloaded_data_len s;
     ota_img_data_len := v;
     update_progress_percent := update_progress_percent s;
     loop_var := loop_var s;
     connection_status := connection_status s;
     ota_update_completed := ota_update_completed s;
     ota_action_id_str := ota_action_id_str s;
     ota_action_id := ota_action_id s;
     nvs := nvs s;
     trace := trace s |}.

Definition set_update_progress_percent (v : Z) (s : hal_state) : hal_state :=
  {| downloaded_data_len := downloaded_data_len s;
     ota_img_data_len := ota_img_data_len s;
     update_progress_percent := v;
     loop_var := loop_var s;
     connection_status := connection_status s;
     ota_update_completed := ota_update_completed s;
     ota_action_id_str := ota_action_id_str s;
     ota_action_id := ota_action_id s;
     nvs := nvs s;
     trace := trace s |}.

Definition set_loop_var (v : Z) (s : hal_state) : hal_state :=
  {| downloaded_data_len := downloaded_data_len s;
     ota_img_data_len := ota_img_data_len s;
     update_progress_percent := update_progress_percent s;
     loop_var := v;
     connection_status := connection_status s;
     ota_update_completed := ota_update_completed s;
     ota_action_id_str := ota_action_id_str s;
     ota_action_id := ota_action_id s;
     nvs := nvs s;
     trace := trace s |}.

Definition set_ota_update_completed (v : Z) (s : hal_state) : hal_state :=
  {| downloaded_data_len := downloaded_data_len s;
     ota_img_data_len := ota_img_data_len s;
     update_progress_percent := update_progress_percent s;
     loop_var := loop_var s;
     connection_status := connection_status s;
     ota_update_completed := v;
     ota_action_id_str := ota_action_id_str s;
     ota_action_id := ota_action_id s;
     nvs := nvs s;
     trace := trace s |}.

Definition set_ota_action_id_str (v : string) (s : hal_state) : hal_state :=
  {| downloaded_data_len := downloaded_data_len s;
     ota_img_data_len := ota_img_data_len s;
     update_progress_percent := update_progress_percent s;
     loop_var := loop_var s;
     connection_status := connection_status s;
     ota_update_completed := ota_update_completed s;
     ota_action_id_str := v;
     ota_action_id := ota_action_id s;
     nvs := nvs s;
     trace := trace s |}.

Definition set_nvs (v : nvs_t) (s : hal_state) : hal_state :=
  {| downloaded_data_len := downloaded_data_len s;
     ota_img_data_len := ota_img_data_len s;
     update_progress_percent := update_progress_percent s;
     loop_var := loop_var s;
     connection_status := connection_status s;
     ota_update_completed := ota_update_completed s;
     ota_action_id_str := ota_action_id_str s;
     ota_action_id := ota_action_id s;
     nvs := v;
     trace := trace s |}.

(** [publish_action_status(test_device_config, ota_action_id, percent,
    test_mclient_handle, status, error)] *)
Definition publish_action_status (percent : Z) (status error : string)
    (s : hal_state) : hal_state :=
  emit (PublishActionStatus (ota_action_id s) percent status error) s.

(** [(((float)downloaded_data_len/(float)ota_img_data_len)*100.00)],
    assigned to an [int]. *)
Definition progress_percent (downloaded total : Z) : option Z :=
  int_of_double
    (double_mul
       (double_of_float (float_div (float_of_int downloaded) (float_of_int total)))
       double_100).

(** The [HTTP_EVENT_ON_DATA] case of [_http_event_handler]. *)
Definition http_on_data (len : Z) (s : hal_state) : option hal_state :=
  let s := emit (EspLog ESP_LOG_DEBUG "HTTP_EVENT_ON_DATA, len=%d") s in
  d ← int_add (downloaded_data_len s) len;
  let s := set_downloaded_data_len d s in
  p ← progress_percent (downloaded_data_len s) (ota_img_data_len s);
  let s := set_update_progress_percent p s in
  s ← (if update_progress_percent s =? loop_var s then
         let s :=
           if loop_var s =? 100 then
             publish_action_status (update_progress_percent s) "Complete" "Success" s
           else
             publish_action_status (update_progress_percent s) "Progress" "Success" s in
         l ← int_add (loop_var s) 5;
         Some (set_loop_var l s)
       else Some s);
  let s := if loop_var s =? 105 then set_loop_var 0 s else s in
  Some s.

(** [_http_event_handler]: every case but [HTTP_EVENT_ON_DATA] only logs;
    the function returns [ESP_OK]. *)
Definition _http_event_handler (evt : esp_http_client_event_t) (s : hal_state)
    : option hal_state :=
  match event_id evt with
  | HTTP_EVENT_ERROR => Some (emit (EspLog ESP_LOG_ERROR "HTTP_EVENT_ERROR") s)
  | HTTP_EVENT_ON_CONNECTED => Some (emit (EspLog ESP_LOG_DEBUG "HTTP_EVENT_ON_CONNECTED") s)
  | HTTP_EVENT_HEADER_SENT => Some (emit (EspLog ESP_LOG_DEBUG "HTTP_EVENT_HEADER_SENT") s)
  | HTTP_EVENT_ON_HEADER =>
      Some (emit (EspLog ESP_LOG_INFO "HTTP_EVENT_ON_HEADER, key=%s, value=%s") s)
  | HTTP_EVENT_ON_DATA => http_on_data (evt_data_len evt) s
  | HTTP_EVENT_ON_FINISH => Some (emit (EspLog ESP_LOG_DEBUG "HTTP_EVENT_ON_FINISH") s)
  | HTTP_EVENT_DISCONNECTED => Some (emit (EspLog ESP_LOG_DEBUG "HTTP_EVENT_DISCONNECTED") s)
  end.

(** [_test_event_handler]: adds up the length of the body. *)
Definition _test_event_handler (evt : esp_http_client_event_t) (s : hal_state)
    : option hal_state :=
  match event_id evt with
  | HTTP_EVENT_ERROR => Some (emit (EspLog ESP_LOG_ERROR "HTTP_EVENT_ERROR") s)
  | HTTP_EVENT_ON_DATA =>
      t ← int_add (ota_img_data_len s) (evt_data_len evt);
      Some (set_ota_img_data_len t s)
  | _ => Some s
  end.

(** The transport delivering its events to a handler. *)
Fixpoint deliver (handler : esp_http_client_event_t -> hal_state -> option hal_state)
    (evts : list esp_http_client_event_t) (s : hal_state) : option hal_state :=
  match evts with
  | [] => Some s
  | evt :: rest => s' ← handler evt s; deliver handler rest s'
  end.

(** [bytebeam_hal_ota], lines 140 to 142: the three assignments that open
    an attempt. *)
Definition ota_reset_counters (s : hal_state) : hal_state :=
  let s := set_ota_img_data_len 0 s in
  let s := set_update_progress_percent 0 s in
  set_downloaded_data_len 0 s.

(** [bytebeam_hal_ota], lines 143 to 150: the request on [test_config],
    whose handler is [_test_event_handler].  The code it returns is
    compared with [ESP_OK] for the log and for nothing else. *)
Definition ota_size_discovery (probe : http_transfer) (s : hal_state)
    : option hal_state :=
  let s := emit HttpClientInit s in
  let s := emit HttpClientPerform s in
  s ← deliver _test_event_handler (events probe) s;
  let err := result probe in
  let s :=
    if decide (err = ESP_OK) then emit (EspLog ESP_LOG_INFO "content_length = %d") s
    else s in
  Some (emit HttpClientCleanup s).

(** The state in which [esp_https_ota] is entered. *)
Definition ota_download_entry (probe : http_transfer) (s : hal_state)
    : option hal_state :=
  s ← ota_size_discovery probe (ota_reset_counters s);
  let s := emit (EspLog ESP_LOG_INFO "The URL is:%s") s in
  Some (emit HttpsOta s).

(** [bytebeam_hal_ota]: [probe] is what the transport does for
    [esp_http_client_perform] on [test_config], [download] what it does for
    [esp_https_ota] on [config], whose handler is [_http_event_handler].
    The function returns what [esp_https_ota] returns. *)
Definition bytebeam_hal_ota (probe download : http_transfer) (s : hal_state)
    : option (esp_err_t * hal_state) :=
  s ← ota_download_entry probe s;
  s ← deliver _http_event_handler (events download) s;
  Some (result download, s).

(** [bytebeam_hal_init].  [junk] is the indeterminate value of the local
    [ota_action_id_val] when [nvs_get_i32] does not set it.  The function
    returns 0. *)
Definition bytebeam_hal_init (junk : Z) (s : hal_state) : Z * hal_state :=
  let s := emit (EspLog ESP_LOG_INFO "[APP] Free memory: %d bytes") s in
  let s := emit MqttClientInit s in
  let s := emit MqttClientRegisterEvent s in
  let s := emit MqttClientStart s in
  let s := emit (NvsOpen "test_storage") s in
  let '(err, update_flag) := nvs_get_i32 (nvs s) "update_flag" in
  let s := emit (NvsGetI32 "update_flag" err) s in
  let s :=
    match err, update_flag with
    | ESP_OK, Some flag =>
        if flag =? 1 then
          let s := set_nvs (nvs_set_i32 (nvs s) "update_flag" 0) s in
          let s := emit (NvsSetI32 "update_flag" 0) s in
          let s := set_nvs (nvs_commit (nvs s)) s in
          let s := emit NvsCommit s in
          let s := emit (EspLog ESP_LOG_INFO "Reboot after successful OTA update") s in
          let '(err2, v) := nvs_get_i32 (nvs s) "action_id_val" in
          let s := emit (NvsGetI32 "action_id_val" err2) s in
          let ota_action_id_val := match v with Some a => a | None => junk end in
          let s := set_ota_action_id_str (sprintf_d ota_action_id_val) s in
          set_ota_update_completed 1 s
        else emit (EspLog ESP_LOG_INFO "Normal reboot") s
    | _, _ => s
    end in
  let s :=
    if decide (err = ESP_ERR_NVS_NOT_FOUND) then
      emit (EspLog ESP_LOG_INFO "Device contains factory Firmware\n") s
    else s in
  let s := emit NvsClose s in
  (0, s).

(** The status messages published so far, oldest first. *)
Definition published (s : hal_state) : list effect :=
  List.filter is_publish (trace s).

Definition published_percent (e : effect) : Z :=
  match e with PublishActionStatus _ p _ _ => p | _ => 0 end.

(** The status message the data handler sends when the percentage meets
    the cursor [c]. *)
Definition progress_message (id : string) (c : Z) : effect :=
  PublishActionStatus id c (if c =? 100 then "Complete" else "Progress") "Success".

(** The cursor after a publish at [c]. *)
Definition next_cursor (c : Z) : Z := if c =? 100 then 0 else c + 5.

(** The [n] successive values of the cursor from [c] on. *)
Fixpoint cursor_walk (n : nat) (c : Z) : list Z :=
  match n with
  | O => []
  | S n' => c :: cursor_walk n' (next_cursor c)
  end.

(** A transfer that delivers no [HTTP_EVENT_ON_DATA]. *)
Definition no_data (evts : list esp_http_client_event_t) : Prop :=
  Forall (fun evt => event_id evt <> HTTP_EVENT_ON_DATA) evts.

(** The values the cursor [loop_var] takes: 0, 5, ..., 100. *)
Definition cursor_ok (c : Z) : Prop := 0 <= c <= 100 /\ c mod 5 = 0.

(** The variables as the C runtime initialises them, with the action id
    the SDK has stored and the NVS partition found at power-on. *)
Definition power_on (action_id : string) (n : nvs_t) : hal_state :=
  {| downloaded_data_len := 0;
     ota_img_data_len := 0;
     update_progress_percent := 0;
     loop_var := 0;
     connection_status := 0;
     ota_update_completed := 0;
     ota_action_id_str := "";
     ota_action_id := action_id;
     nvs := n;
     trace := [] |}.

End Hal.

(** ** The action table of [bytebeam_sdk.h] *)

Module Registry.

(** [BYTEBEAM_NUMBER_OF_ACTIONS] *)
Definition BYTEBEAM_NUMBER_OF_ACTIONS : nat := 10.

Inductive registry_error := RegistryFull | DuplicateAction | ActionNotFound.

Inductive registry_result := Success | Failure (e : registry_error).

Section WithHandler.
  (** The type of [int (*func)(bytebeam_client_t *, char *, char *)]. *)
  Context {handler : Type}.

(** [bytebeam_action_functions_map_t]; a null pointer is [None]. *)
Record bytebeam_action_functions_map_t := {
  name : option string;
  func : option handler
}.

(** [action_funcs] of [bytebeam_client_t], an array of
    [BYTEBEAM_NUMBER_OF_ACTIONS] entries. *)
Definition action_funcs_t := list bytebeam_action_functions_map_t.

Definition empty_slot : bytebeam_action_functions_map_t :=
  {| name := None; func := None |}.

Definition is_empty (e : bytebeam_action_functions_map_t) : bool :=
  match name e with None => true | Some _ => false end.

Definition has_name (n : string) (e : bytebeam_action_functions_map_t) : bool :=
  match name e with None => false | Some m => bool_decide (m = n) end.

(** The index of the first entry, in scan order, that satisfies [p]. *)
Fixpoint scan (p : bytebeam_action_functions_map_t -> bool)
    (tbl : action_funcs_t) : option nat :=
  match tbl with
  | [] => None
  | e :: rest => if p e then Some 0%nat else S <$> scan p rest
  end.

Definition occupied (tbl : action_funcs_t) : nat :=
  length (List.filter (fun e => negb (is_empty e)) tbl).

(** Modelled from the spec: [bytebeam_add_action_handler] is declared in
    [bytebeam_sdk.h] and defined in a file that is not part of the
    sources.  "fails with RegistryFull if no empty slot remains; fails
    with DuplicateAction if name already occupies a slot; otherwise
    occupies the first empty slot and succeeds." *)
Definition add (n : string) (h : handler) (tbl : action_funcs_t)
    : registry_result * action_funcs_t :=
  match scan is_empty tbl with
  | None => (Failure RegistryFull, tbl)
  | Some i =>
      match scan (has_name n) tbl with
      | Some _ => (Failure DuplicateAction, tbl)
      | None => (Success, <[i := {| name := Some n; func := Some h |}]> tbl)
      end
  end.

(** Modelled from the spec: [bytebeam_update_action_handler], declared
    only.  "fails with ActionNotFound if name is not present; otherwise
    replaces the handler in place, preserving slot position." *)
Definition update (n : string) (h : handler) (tbl : action_funcs_t)
    : registry_result * action_funcs_t :=
  match scan (has_name n) tbl with
  | None => (Failure ActionNotFound, tbl)
  | Some i => (Success, <[i := {| name := Some n; func := Some h |}]> tbl)
  end.

(** Modelled from the spec: [bytebeam_remove_action_handler], declared
    only.  "fails with ActionNotFound if absent; otherwise clears the slot
    (name -> sentinel), freeing it for reuse.  Removal never compacts or
    reorders other slots." *)
Definition remove (n : string) (tbl : action_funcs_t)
    : registry_result * action_funcs_t :=
  match scan (has_name n) tbl with
  | None => (Failure ActionNotFound, tbl)
  | Some i => (Success, <[i := empty_slot]> tbl)
  end.

(** The entry that binds a name to a handler. *)
Definition binding (r : string * handler) : bytebeam_action_functions_map_t :=
  {| name := Some (fst r); func := Some (snd r) |}.

(** The table of a client on which nothing has been registered. *)
Definition fresh : action_funcs_t :=
  replicate BYTEBEAM_NUMBER_OF_ACTIONS empty_slot.

(** A sequence of [add]s, with the result of each. *)
Fixpoint add_all (reqs : list (string * handler)) (tbl : action_funcs_t)
    : list registry_result * action_funcs_t :=
  match reqs with
  | [] => ([], tbl)
  | (n, h) :: rest =>
      let '(r, tbl1) := add n h tbl in
      let '(rs, tbl2) := add_all rest tbl1 in
      (r :: rs, tbl2)
  end.

(** An operation of the registry that can fail. *)
Inductive registry_op :=
| OpAdd (n : string) (h : handler)
| OpUpdate (n : string) (h : handler)
| OpRemove (n : string).

Definition run_op (op : registry_op) (tbl : action_funcs_t)
    : registry_result * action_funcs_t :=
  match op with
  | OpAdd n h => add n h tbl
  | OpUpdate n h => update n h tbl
  | OpRemove n => remove n tbl
  end.

End WithHandler.

Arguments bytebeam_action_functions_map_t : clear implicits.
Arguments action_funcs_t : clear implicits.
Arguments registry_op : clear implicits.

End Registry.

(** ** Scenarios *)

Module Scenario.
  Import CArith Esp Hal.

(** A transfer that delivers a body in pieces of the given lengths. *)
Definition transfer (lens : list Z) (r : esp_err_t) : http_transfer :=
  {| events := map on_data lens; result := r |}.

(** A firmware image of 1000 bytes, as the size discovery sees it. *)
Definition image_1000 : http_transfer := transfer [1000] ESP_OK.

Definition chunks_of_137 : list Z := [137; 137; 137; 137; 137; 137; 137; 41].

Definition chunks_of_5 : list Z := repeat 5 200%nat.

Definition every_5_percent : list Z :=
  [0; 5; 10; 15; 20; 25; 30; 35; 40; 45; 50; 55; 60; 65; 70; 75; 80; 85; 90; 95; 100].

(** A size discovery that fails after 400 of the 1000 bytes, and one that
    fails before any byte. *)
Definition failed_probe_400 : http_transfer :=
  {| events := [on_data 400; {| event_id := HTTP_EVENT_ERROR; evt_data_len := 0 |}];
     result := ESP_FAIL |}.

Definition failed_probe_empty : http_transfer :=
  {| events := [{| event_id := HTTP_EVENT_ERROR; evt_data_len := 0 |}];
     result := ESP_FAIL |}.

Definition nvs_blank : nvs_t :=
  {| nvs_usable := true; nvs_written := ∅; nvs_flash := ∅ |}.

(** The record [{update_pending: true, action_id: 42}]. *)
Definition nvs_pending_42 : nvs_t :=
  {| nvs_usable := true;
     nvs_written := {[ "update_flag" := 1; "action_id_val" := 42 ]};
     nvs_flash := {[ "update_flag" := 1; "action_id_val" := 42 ]} |}.

(** A download of the 1000-byte image in progress. *)
Definition downloading (downloaded cursor : Z) : hal_state :=
  {| downloaded_data_len := downloaded;
     ota_img_data_len := 1000;
     update_progress_percent := 0;
     loop_var := cursor;
     connection_status := 1;
     ota_update_completed := 0;
     ota_action_id_str := "";
     ota_action_id := "42";
     nvs := nvs_blank;
     trace := [] |}.

(** The 5-percent steps the specification expects of its 137-byte
    scenario. *)
Definition steps_5_to_100 : list Z :=
  [5; 10; 15; 20; 25; 30; 35; 40; 45; 50; 55; 60; 65; 70; 75; 80; 85; 90; 95; 100].

(** The percentage as the specification words it: the floor of
    [downloaded * 100 / total], clamped to [0,100]. *)
Definition percent_by_floor (downloaded total : Z) : Z :=
  Z.max 0 (Z.min 100 (downloaded * 100 / total)).

(** Ten actions, with numbers for handlers. *)
Definition ten_actions : list (string * nat) :=
  [("a0", 0); ("a1", 1); ("a2", 2); ("a3", 3); ("a4", 4);
   ("a5", 5); ("a6", 6); ("a7", 7); ("a8", 8); ("a9", 9)]%nat.

End Scenario.

(** ** Runs of the OTA functions *)

Module OtaRuns.
  Import CArith Esp Hal.

(** Everything of the state but the trace: the file-scope variables,
    [ota_action_id] and NVS. *)
Definition hal_vars (s : hal_state)
    : Z * Z * Z * Z * Z * Z * string * string * nvs_t :=
  (downloaded_data_len s, ota_img_data_len s, update_progress_percent s,
   loop_var s, connection_status s, ota_update_completed s,
   ota_action_id_str s, ota_action_id s, nvs s).

Definition is_data (evt : esp_http_client_event_t) : bool :=
  match event_id evt with HTTP_EVENT_ON_DATA => true | _ => false end.

(** The lengths of the pieces of body a transfer delivers, and their sum. *)
Definition data_lens (evts : list esp_http_client_event_t) : list Z :=
  map evt_data_len (List.filter is_data evts).

Definition data_total (evts : list esp_http_client_event_t) : Z :=
  fold_right Z.add 0 (data_lens evts).

(** What the rest of the firmware can see of a state: the variables and the
    status messages sent. *)
Definition observable (s : hal_state) :=
  (hal_vars s, published s).

(** What it can see of a call of [bytebeam_hal_ota]. *)
Definition ota_outcome (r : option (esp_err_t * hal_state)) :=
  option_map (fun rs => (fst rs, observable (snd rs))) r.

(** Successive calls of [bytebeam_hal_ota], each with what the transport
    does for its two requests; the return codes are dropped. *)
Fixpoint run_attempts (attempts : list (http_transfer * http_transfer))
    (s : hal_state) : option hal_state :=
  match attempts with
  | [] => Some s
  | (probe, download) :: rest =>
      r ← bytebeam_hal_ota probe download s;
      run_attempts rest (snd r)
  end.

(** [char ota_action_id_str[15]] *)
Definition ota_action_id_str_size : nat := 15.

(** [bytebeam_hal_init] with what the calls of [nvs_set_i32] and of
    [nvs_commit] do to the partition left open.  The function drops the
    code either call returns, so that it goes on in the same way whether
    the call took effect or not. *)
Definition bytebeam_hal_init_with
    (set_i32 : nvs_t -> string -> Z -> nvs_t) (commit : nvs_t -> nvs_t)
    (junk : Z) (s : hal_state) : Z * hal_state :=
  let s := emit (EspLog ESP_LOG_INFO "[APP] Free memory: %d bytes") s in
  let s := emit MqttClientInit s in
  let s := emit MqttClientRegisterEvent s in
  let s := emit MqttClientStart s in
  let s := emit (NvsOpen "test_storage") s in
  let '(err, update_flag) := nvs_get_i32 (nvs s) "update_flag" in
  let s := emit (NvsGetI32 "update_flag" err) s in
  let s :=
    match err, update_flag with
    | ESP_OK, Some flag =>
        if flag =? 1 then
          let s := set_nvs (set_i32 (nvs s) "update_flag" 0) s in
          let s := emit (NvsSetI32 "update_flag" 0) s in
          let s := set_nvs (commit (nvs s)) s in
          let s := emit NvsCommit s in
          let s := emit (EspLog ESP_LOG_INFO "Reboot after successful OTA update") s in
          let '(err2, v) := nvs_get_i32 (nvs s) "action_id_val" in
          let s := emit (NvsGetI32 "action_id_val" err2) s in
          let ota_action_id_val := match v with Some a => a | None => junk end in
          let s := set_ota_action_id_str (sprintf_d ota_action_id_val) s in
          set_ota_update_completed 1 s
        else emit (EspLog ESP_LOG_INFO "Normal reboot") s
    | _, _ => s
    end in
  let s :=
    if decide (err = ESP_ERR_NVS_NOT_FOUND) then
      emit (EspLog ESP_LOG_INFO "Device contains factory Firmware\n") s
    else s in
  let s := emit NvsClose s in
  (0, s).

(** A restart: the variables are initialised again, NVS keeps what reached
    flash. *)
Definition restart (s : hal_state) : hal_state :=
  power_on (ota_action_id s) (nvs_after_restart (nvs s)).

End OtaRuns.

(** ** [bytebeam_esp_hal.c]: the MQTT event handler *)

Module HalMqtt.
  Import Esp Hal.

(** The values of [esp_mqtt_event_id_t] that [mqtt_event_handler] names in
    its [switch]; every other value takes the [default] branch. *)
Inductive esp_mqtt_event_id_t :=
| MQTT_EVENT_CONNECTED
| MQTT_EVENT_DISCONNECTED
| MQTT_EVENT_SUBSCRIBED
| MQTT_EVENT_UNSUBSCRIBED
| MQTT_EVENT_PUBLISHED
| MQTT_EVENT_DATA
| MQTT_EVENT_ERROR
| MQTT_EVENT_OTHER (id : Z).

(** [esp_mqtt_error_type_t]: the handler tests for
    [MQTT_ERROR_TYPE_TCP_TRANSPORT] only. *)
Inductive esp_mqtt_error_type_t :=
| MQTT_ERROR_TYPE_TCP_TRANSPORT
| MQTT_ERROR_TYPE_OTHER.

(** The fields of [esp_mqtt_error_codes_t] and of [esp_mqtt_event_t] the
    handler reads. *)
Record esp_mqtt_error_codes_t := {
  error_type : esp_mqtt_error_type_t;
  esp_tls_last_esp_err : Z;
  esp_tls_stack_err : Z;
  esp_transport_sock_errno : Z
}.

Record esp_mqtt_event_t := {
  msg_id : Z;
  topic : string;
  data : string;
  error_handle : esp_mqtt_error_codes_t
}.

(** What the handler does outside the translation unit, in order. *)
Inductive mqtt_effect :=
| MqttLog (level : esp_log_level_t) (format : string)
| SubscribeToActions
| HandleActions (payload : string)
| Strerror (errnum : Z).

(** The state of the module together with the calls made so far. *)
Record mqtt_world := {
  hal : hal_state;
  calls : list mqtt_effect
}.

Definition call (e : mqtt_effect) (w : mqtt_world) : mqtt_world :=
  {| hal := hal w; calls := calls w ++ [e] |}.

Definition set_hal (s : hal_state) (w : mqtt_world) : mqtt_world :=
  {| hal := s; calls := calls w |}.

Definition set_connection_status (v : Z) (s : hal_state) : hal_state :=
  {| downloaded_data_len := downloaded_data_len s;
     ota_img_data_len := ota_img_data_len s;
     update_progress_percent := update_progress_percent s;
     loop_var := loop_var s;
     connection_status := v;
     ota_update_completed := ota_update_completed s;
     ota_action_id_str := ota_action_id_str s;
     ota_action_id := ota_action_id s;
     nvs := nvs s;
     trace := trace s |}.

(** [log_error_if_nonzero] *)
Definition log_error_if_nonzero (error_code : Z) (w : mqtt_world) : mqtt_world :=
  if error_code =? 0 then w
  else call (MqttLog ESP_LOG_ERROR "Last error %s: 0x%x") w.

Section WithActions.
  (** What [handle_actions], defined with the actions, does to the variables
      of this module. *)
  Variable handle_actions : string -> hal_state -> hal_state.

(** [mqtt_event_handler]; [event_id] is its third argument, [event] what
    [event_data] points to. *)
Definition mqtt_event_handler (event_id : esp_mqtt_event_id_t) (event : esp_mqtt_event_t)
    (w : mqtt_world) : mqtt_world :=
  let w :=
    call (MqttLog ESP_LOG_DEBUG "Event dispatched from event loop base=%s, event_id=%d") w in
  match event_id with
  | MQTT_EVENT_CONNECTED =>
      let w := call (MqttLog ESP_LOG_INFO "MQTT_EVENT_CONNECTED") w in
      let w := call SubscribeToActions w in
      let w := call (MqttLog ESP_LOG_INFO "MQTT SUBSCRIBED!! Msg ID:%d") w in
      set_hal (set_connection_status 1 (hal w)) w
  | MQTT_EVENT_DISCONNECTED =>
      let w := call (MqttLog ESP_LOG_INFO "MQTT_EVENT_DISCONNECTED") w in
      set_hal (set_connection_status 0 (hal w)) w
  | MQTT_EVENT_SUBSCRIBED =>
      call (MqttLog ESP_LOG_INFO "MQTT_EVENT_SUBSCRIBED, msg_id=%d") w
  | MQTT_EVENT_UNSUBSCRIBED =>
      call (MqttLog ESP_LOG_INFO "MQTT_EVENT_UNSUBSCRIBED, msg_id=%d") w
  | MQTT_EVENT_PUBLISHED =>
      call (MqttLog ESP_LOG_INFO "MQTT_EVENT_PUBLISHED, msg_id=%d") w
  | MQTT_EVENT_DATA =>
      let w := call (MqttLog ESP_LOG_INFO "MQTT_EVENT_DATA") w in
      let w := call (MqttLog ESP_LOG_INFO "TOPIC=%.*s\r\n") w in
      let w := call (MqttLog ESP_LOG_INFO "DATA=%.*s\r\n") w in
      let w := call (HandleActions (data event)) w in
      set_hal (handle_actions (data event) (hal w)) w
  | MQTT_EVENT_ERROR =>
      let w := call (MqttLog ESP_LOG_INFO "MQTT_EVENT_ERROR") w in
      match error_type (error_handle event) with
      | MQTT_ERROR_TYPE_TCP_TRANSPORT =>
          let w := log_error_if_nonzero (esp_tls_last_esp_err (error_handle event)) w in
          let w := log_error_if_nonzero (esp_tls_stack_err (error_handle event)) w in
          let w := log_error_if_nonzero (esp_transport_sock_errno (error_handle event)) w in
          let w := call (Strerror (esp_transport_sock_errno (error_handle event))) w in
          call (MqttLog ESP_LOG_INFO "Last errno string (%s)") w
      | MQTT_ERROR_TYPE_OTHER => w
      end
  | MQTT_EVENT_OTHER _ =>
      call (MqttLog ESP_LOG_INFO "Other event id:%d") w
  end.

(** The event loop handing a sequence of events to the handler. *)
Fixpoint dispatch (evts : list (esp_mqtt_event_id_t * esp_mqtt_event_t))
    (w : mqtt_world) : mqtt_world :=
  match evts with
  | [] => w
  | (id, event) :: rest => dispatch rest (mqtt_event_handler id event w)
  end.

End WithActions.

Definition is_link_event (id : esp_mqtt_event_id_t) : bool :=
  match id with
  | MQTT_EVENT_CONNECTED | MQTT_EVENT_DISCONNECTED => true
  | _ => false
  end.

Definition is_handle_actions (e : mqtt_effect) : bool :=
  match e with HandleActions _ => true | _ => false end.

Definition is_subscribe (e : mqtt_effect) : bool :=
  match e with SubscribeToActions => true | _ => false end.

Definition is_mqtt_error_log (e : mqtt_effect) : bool :=
  match e with MqttLog ESP_LOG_ERROR _ => true | _ => false end.

(** The payloads of the [MQTT_EVENT_DATA] events of a sequence, in order. *)
Definition payloads (evts : list (esp_mqtt_event_id_t * esp_mqtt_event_t)) : list string :=
  flat_map (fun '(id, event) =>
              match id with MQTT_EVENT_DATA => [data event] | _ => [] end) evts.

Definition connects (evts : list (esp_mqtt_event_id_t * esp_mqtt_event_t)) : nat :=
  length (List.filter (fun '(id, _) =>
                         match id with MQTT_EVENT_CONNECTED => true | _ => false end) evts).

Definition no_link_event (evts : list (esp_mqtt_event_id_t * esp_mqtt_event_t)) : Prop :=
  Forall (fun e => is_link_event (fst e) = false) evts.

(** How many of the three error codes of an event are not 0. *)
Definition nonzero_codes (c : esp_mqtt_error_codes_t) : nat :=
  ((if Z.eqb (esp_tls_last_esp_err c) 0 then 0 else 1)
   + (if Z.eqb (esp_tls_stack_err c) 0 then 0 else 1)
   + (if Z.eqb (esp_transport_sock_errno c) 0 then 0 else 1))%nat.

(** How many error codes a sequence of events reports as TCP transport
    errors. *)
Definition transport_codes (evts : list (esp_mqtt_event_id_t * esp_mqtt_event_t)) : nat :=
  fold_right Nat.add 0%nat
    (map (fun '(id, event) =>
            match id, error_type (error_handle event) with
            | MQTT_EVENT_ERROR, MQTT_ERROR_TYPE_TCP_TRANSPORT =>
                nonzero_codes (error_handle event)
            | _, _ => 0%nat
            end) evts).

(** An event with nothing in its fields but a payload, and one with nothing
    but error codes. *)
Definition event_of_payload (payload : string) : esp_mqtt_event_t :=
  {| msg_id := 0; topic := ""; data := payload;
     error_handle := {| error_type := MQTT_ERROR_TYPE_OTHER;
                        esp_tls_last_esp_err := 0;
                        esp_tls_stack_err := 0;
                        esp_transport_sock_errno := 0 |} |}.

Definition event_of_error (t : esp_mqtt_error_type_t) (tls stack errno : Z)
    : esp_mqtt_event_t :=
  {| msg_id := 0; topic := ""; data := "";
     error_handle := {| error_type := t;
                        esp_tls_last_esp_err := tls;
                        esp_tls_stack_err := stack;
                        esp_transport_sock_errno := errno |} |}.

End HalMqtt.

(** ** [bytebeam_sdk.h]: the logging macros *)

Module SdkLog.

(** [bytebeam_log_level_t], with the values C gives the enumerators. *)
Inductive bytebeam_log_level_t :=
| BYTEBEAM_LOG_LEVEL_NONE
| BYTEBEAM_LOG_LEVEL_ERROR
| BYTEBEAM_LOG_LEVEL_WARN
| BYTEBEAM_LOG_LEVEL_INFO
| BYTEBEAM_LOG_LEVEL_DEBUG
| BYTEBEAM_LOG_LEVEL_VERBOSE.

Definition level_value (l : bytebeam_log_level_t) : Z :=
  match l with
  | BYTEBEAM_LOG_LEVEL_NONE => 0
  | BYTEBEAM_LOG_LEVEL_ERROR => 1
  | BYTEBEAM_LOG_LEVEL_WARN => 2
  | BYTEBEAM_LOG_LEVEL_INFO => 3
  | BYTEBEAM_LOG_LEVEL_DEBUG => 4
  | BYTEBEAM_LOG_LEVEL_VERBOSE => 5
  end.

(** [#define BYTEBEAM_LOG_LEVEL BYTEBEAM_LOG_LEVEL_INFO] *)
Definition BYTEBEAM_LOG_LEVEL : bytebeam_log_level_t := BYTEBEAM_LOG_LEVEL_INFO.

(** [bytebeam_err_t] *)
Inductive bytebeam_err_t := BB_SUCCESS | BB_FAILURE.

(** The [ESP_LOGx] macro a logging macro is given. *)
Inductive esp_logx := ESP_LOGE | ESP_LOGW | ESP_LOGI | ESP_LOGD | ESP_LOGV.

Inductive log_effect :=
| BytebeamLogPublish (levelStr tag fmt : string)
| EspLogx (macro : esp_logx) (tag fmt : string).

Section WithLogClient.
  (** What [bytebeam_log_level_get] and [bytebeam_log_publish], declared in
      the header, return. *)
  Variable bytebeam_log_level_get : bytebeam_log_level_t.
  Variable bytebeam_log_publish : string -> string -> string -> bytebeam_err_t.

(** [BYTEBEAM_LOGX(ESP_LOGX, level, levelStr, tag, fmt, ...)]: the calls one
    expansion makes. *)
Definition BYTEBEAM_LOGX (ESP_LOGX : esp_logx) (level : bytebeam_log_level_t)
    (levelStr tag fmt : string) : list log_effect :=
  if negb (level_value level =? level_value BYTEBEAM_LOG_LEVEL_NONE)
     && (level_value level <=? level_value bytebeam_log_level_get)
  then
    match bytebeam_log_publish levelStr tag fmt with
    | BB_FAILURE =>
        [BytebeamLogPublish levelStr tag fmt;
         EspLogx ESP_LOGE tag "Failed To Publish Bytebeam Log !"]
    | BB_SUCCESS =>
        [BytebeamLogPublish levelStr tag fmt; EspLogx ESP_LOGX tag fmt]
    end
  else [].

Definition BYTEBEAM_LOGE (tag fmt : string) : list log_effect :=
  BYTEBEAM_LOGX ESP_LOGE BYTEBEAM_LOG_LEVEL_ERROR "ERROR" tag fmt.
Definition BYTEBEAM_LOGW (tag fmt : string) : list log_effect :=
  BYTEBEAM_LOGX ESP_LOGW BYTEBEAM_LOG_LEVEL_WARN "WARN" tag fmt.
Definition BYTEBEAM_LOGI (tag fmt : string) : list log_effect :=
  BYTEBEAM_LOGX ESP_LOGI BYTEBEAM_LOG_LEVEL_INFO "INFO" tag fmt.
Definition BYTEBEAM_LOGD (tag fmt : string) : list log_effect :=
  BYTEBEAM_LOGX ESP_LOGD BYTEBEAM_LOG_LEVEL_DEBUG "DEBUG" tag fmt.
Definition BYTEBEAM_LOGV (tag fmt : string) : list log_effect :=
  BYTEBEAM_LOGX ESP_LOGV BYTEBEAM_LOG_LEVEL_VERBOSE "VERBOSE" tag fmt.

End WithLogClient.

Definition is_log_publish (e : log_effect) : bool :=
  match e with BytebeamLogPublish _ _ _ => true | _ => false end.

End SdkLog.

(** ** Rounding to nearest, on real numbers *)

Module Rounding.
  Import CArith.
  Local Open Scope R_scope.

(** The real number [x] lies in the interval from [m * 2^e] to
    [(m + 1) * 2^e], [m] the mantissa of [mrs], at the place the round and
    sticky bits of [mrs] tell: on the lower end, below the middle, on the
    middle, or above it. *)
Definition located (x : R) (mrs : shr_record) (e : Z) : Prop :=
  match shr_r mrs, shr_s mrs with
  | false, false => x = IZR (shr_m mrs) * bpow e
  | false, true => IZR (shr_m mrs) * bpow e < x < (IZR (shr_m mrs) + 1 / 2) * bpow e
  | true, false => x = (IZR (shr_m mrs) + 1 / 2) * bpow e
  | true, true => (IZR (shr_m mrs) + 1 / 2) * bpow e < x < (IZR (shr_m mrs) + 1) * bpow e
  end.

(** [M * 2^E] is a nearest neighbour of [x] among the numbers of [prec]
    binary digits: [E] is the exponent of the last of the [prec] leading
    digits of [x], and [M * 2^E] is within half a unit of that digit. *)
Definition nearest (prec : Z) (x : R) (M E : Z) : Prop :=
  bpow (prec - 1 + E) <= x < bpow (prec + E) /\
  (2 ^ (prec - 1) <= M <= 2 ^ prec)%Z /\
  Rabs (x - IZR M * bpow E) <= bpow E / 2.

(** The real number a [float] or a [double] stands for. *)
Definition SF2R (f : spec_float) : R :=
  match f with
  | S754_finite s m e => if s then - F2R (Zpos m) e else F2R (Zpos m) e
  | _ => 0
  end.

End Rounding.

Import CArith Esp Hal Scenario.

(** Reduction of the field accesses and updates of [hal_state]. *)
Ltac hal_simpl :=
  cbn [downloaded_data_len ota_img_data_len update_progress_percent loop_var
       connection_status ota_update_completed ota_action_id_str ota_action_id
       nvs trace emit set_downloaded_data_len set_ota_img_data_len
       set_update_progress_percent set_loop_var set_ota_update_completed
       set_ota_action_id_str set_nvs publish_action_status
       mbind option_bind] in *.

(** ** Facts about the C arithmetic *)

Section ArithFacts.

Lemma int_add_Some a b r :
  int_add a b = Some r -> r = a + b /\ INT_MIN <= r <= INT_MAX.
Proof.
  unfold int_add, in_int_range.
  destruct (_ && _) eqn:E; [|discriminate].
  intros [= <-]. apply andb_true_iff in E as [H1 H2]. lia.
Qed.

Lemma double_100_finite : double_100 = S754_finite false 7036874417766400 (-46).
Proof. reflexivity. Qed.

(** [29.0f / 100.0f] is the binary32 number [0x3E947AE1], that is
    [9730785 * 2^-25], a little less than 0.29. *)
Example float_29_over_100 :
  float_div (float_of_int 29) (float_of_int 100) = S754_finite false 9730785 (-25) /\
  9730785 * 100 < 29 * 2 ^ 25.
Proof. split; [vm_compute; reflexivity | reflexivity]. Qed.

(** A division by [(float) 0] gives an infinity or a NaN, whatever the
    dividend; neither survives the multiplication, and neither converts to
    an [int]. *)
Lemma progress_percent_zero_total d : progress_percent d 0 = None.
Proof.
  unfold progress_percent, double_of_float, float_div.
  change (float_of_int 0) with (S754_zero false).
  destruct (float_of_int d) as [s|s| |s m e]; reflexivity.
Qed.

End ArithFacts.

(** ** Rounding: how far [binary_round_aux] moves a number

    The three floating-point operations of [progress_percent] end in
    [binary_round_aux].  Its result keeps the leading [prec] binary digits of
    the mantissa it is given and differs from the number rounded by at most
    one unit of the last digit kept, that is by at most [2^(1-prec)]
    relatively. *)

Section RoundingFacts.

(** [digits2_pos] counts the binary digits, as [Pos.size] does. *)
Lemma digits2_pos_size p : digits2_pos p = Pos.size p.
Proof. induction p; simpl; congruence. Qed.

Lemma Zdigits2_bounds m :
  0 < m -> 0 < Zdigits2 m /\ 2 ^ (Zdigits2 m - 1) <= m < 2 ^ Zdigits2 m.
Proof.
  destruct m as [|p|p]; try lia. intros _. simpl. rewrite digits2_pos_size.
  split; [lia|].
  pose proof (Pos.size_gt p) as Hgt. pose proof (Pos.size_le p) as Hle.
  apply Pos2Z.pos_lt_pos in Hgt. apply Pos2Z.pos_le_pos in Hle.
  rewrite Pos2Z.inj_pow in Hgt, Hle.
  replace (Z.pos (Pos.size p)) with (Z.succ (Z.pos (Pos.size p) - 1)) in Hle by lia.
  rewrite Z.pow_succ_r in Hle by lia. lia.
Qed.

Lemma Zdigits2_unique m D :
  0 < m -> 2 ^ (D - 1) <= m < 2 ^ D -> Zdigits2 m = D.
Proof.
  intros Hm [Hlo Hhi]. destruct (Zdigits2_bounds m Hm) as (Hpos & Hlo' & Hhi').
  assert (0 < D).
  { destruct (Z.le_gt_cases D 0) as [H|H]; [|exact H].
    assert (2 ^ D <= 2 ^ 0) by (apply Z.pow_le_mono_r; lia). simpl in *. lia. }
  destruct (Z.lt_trichotomy (Zdigits2 m) D) as [H1|[H1|H1]]; [|exact H1|].
  - assert (2 ^ Zdigits2 m <= 2 ^ (D - 1)) by (apply Z.pow_le_mono_r; lia). lia.
  - assert (2 ^ D <= 2 ^ (Zdigits2 m - 1)) by (apply Z.pow_le_mono_r; lia). lia.
Qed.

(** One step of [shr] halves the mantissa; [n] steps divide it by [2^n]. *)
Lemma shr_m_shr_1 mrs : 0 <= shr_m mrs -> shr_m (shr_1 mrs) = shr_m mrs / 2.
Proof.
  destruct mrs as [m r s]. simpl. intros Hm.
  destruct m as [|[p|p|]|p]; try lia; simpl;
    rewrite <- ?Z.div2_div; reflexivity.
Qed.

Lemma shr_m_iter_pos n :
  forall mrs, 0 <= shr_m mrs ->
    shr_m (SpecFloat.iter_pos shr_1 n mrs) = shr_m mrs / 2 ^ Zpos n.
Proof.
  induction n as [n IH|n IH|]; intros mrs Hm; simpl SpecFloat.iter_pos.
  - assert (H1 : 0 <= shr_m (shr_1 mrs)).
    { rewrite shr_m_shr_1 by exact Hm. apply Z.div_pos; lia. }
    assert (H2 : 0 <= shr_m (SpecFloat.iter_pos shr_1 n (shr_1 mrs))).
    { rewrite IH by exact H1. apply Z.div_pos; [exact H1|]. apply Z.pow_pos_nonneg; lia. }
    rewrite IH, IH, shr_m_shr_1 by assumption.
    rewrite !Z.div_div by (try apply Z.pow_pos_nonneg; lia).
    f_equal. rewrite (Pos2Z.inj_xI n).
    replace (2 * Z.pos n + 1) with (1 + Z.pos n + Z.pos n) by lia.
    rewrite !Z.pow_add_r by lia. change (2 ^ 1) with 2. ring.
  - assert (H2 : 0 <= shr_m (SpecFloat.iter_pos shr_1 n mrs)).
    { rewrite IH by exact Hm. apply Z.div_pos; [exact Hm|]. apply Z.pow_pos_nonneg; lia. }
    rewrite IH, IH by assumption.
    rewrite !Z.div_div by (try apply Z.pow_pos_nonneg; lia).
    f_equal. rewrite (Pos2Z.inj_xO n).
    replace (2 * Z.pos n) with (Z.pos n + Z.pos n) by lia.
    rewrite Z.pow_add_r by lia. reflexivity.
  - apply shr_m_shr_1. exact Hm.
Qed.

Lemma shr_m_record_of_loc m l : shr_m (shr_record_of_loc m l) = m.
Proof. destruct l as [|[]]; reflexivity. Qed.

Lemma shr_fexp_spec prec emax m e l :
  0 <= m ->
  let n := Z.max 0 (fexp prec emax (Zdigits2 m + e) - e) in
  shr_m (fst (shr_fexp prec emax m e l)) = m / 2 ^ n /\
  snd (shr_fexp prec emax m e l) = e + n.
Proof.
  intros Hm n. subst n. unfold shr_fexp, shr.
  destruct (fexp prec emax (Zdigits2 m + e) - e) as [|p|p]; simpl fst; simpl snd.
  - rewrite shr_m_record_of_loc. simpl. rewrite Z.div_1_r. split; [reflexivity | lia].
  - rewrite shr_m_iter_pos by (rewrite shr_m_record_of_loc; exact Hm).
    rewrite shr_m_record_of_loc.
    replace (Z.max 0 (Z.pos p)) with (Z.pos p) by lia. split; reflexivity.
  - rewrite shr_m_record_of_loc.
    replace (Z.max 0 (Z.neg p)) with 0 by lia. simpl. rewrite Z.div_1_r. split; [reflexivity | lia].
Qed.

Lemma shr_fexp_exact_noshift prec emax m e :
  fexp prec emax (Zdigits2 m + e) - e <= 0 ->
  shr_fexp prec emax m e loc_Exact = (Build_shr_record m false false, e).
Proof.
  intros H. unfold shr_fexp, shr.
  destruct (fexp prec emax (Zdigits2 m + e) - e) as [|p|p]; try reflexivity. lia.
Qed.

Lemma round_nearest_even_cases m l :
  round_nearest_even m l = m \/ round_nearest_even m l = m + 1.
Proof.
  destruct l as [|[]]; simpl; auto. destruct (Z.even m); auto.
Qed.

End RoundingFacts.

Section RoundAux.

Variables prec emax : Z.
Hypothesis Hprec : 0 < prec.

Lemma fexp_normal e : emin prec emax <= e - prec -> fexp prec emax e = e - prec.
Proof. unfold fexp. lia. Qed.

(** What [binary_round_aux] returns away from underflow and overflow: with
    [n] the number of digits beyond [prec], the mantissa [M] is [m / 2^n] or
    its successor, at the exponent [e + n], renormalised when the successor
    is [2^prec]. *)
Lemma binary_round_aux_spec s m e l :
  0 < m ->
  let D := Zdigits2 m in
  let n := Z.max 0 (D - prec) in
  emin prec emax <= D + e - prec ->
  (D < prec -> l = loc_Exact) ->
  e + n + 1 <= emax - prec ->
  exists m'' e'' M,
    binary_round_aux prec emax s m e l = S754_finite s m'' e'' /\
    (M = m / 2 ^ n \/ (prec <= D /\ M = m / 2 ^ n + 1)) /\
    ((e'' = e + n /\ Zpos m'' = M) \/ (e'' = e + n + 1 /\ 2 * Zpos m'' = M)) /\
    D + e <= Zdigits2 (Zpos m'') + e'' <= D + e + 1.
Proof.
  intros Hm D n Hemin Hexact Hover.
  assert (Hfexp : fexp prec emax (Zdigits2 m + e) - e = D - prec).
  { rewrite fexp_normal by exact Hemin. fold D. lia. }
  unfold binary_round_aux.
  destruct (Z.lt_ge_cases D prec) as [Hsmall|Hbig].
  - (* fewer digits than the precision: nothing is lost *)
    rewrite (Hexact Hsmall).
    rewrite shr_fexp_exact_noshift by lia. simpl.
    rewrite shr_fexp_exact_noshift by lia. simpl.
    destruct m as [|p|p]; try lia.
    assert (Hn : n = 0) by (subst n; lia).
    replace (e <=? emax - prec) with true by (symmetry; apply Z.leb_le; lia).
    exists p, e, (Z.pos p). rewrite Hn. simpl. rewrite Z.div_1_r.
    split; [reflexivity|]. split; [left; reflexivity|].
    split; [left; split; [lia | reflexivity]|]. subst D. simpl. lia.
  - (* at least as many digits as the precision: the low [n] bits go *)
    assert (Hn : n = D - prec) by (subst n; lia).
    destruct (Zdigits2_bounds m Hm) as (HDpos & Hlo & Hhi). fold D in HDpos, Hlo, Hhi.
    assert (Hpow : 0 < 2 ^ n) by (apply Z.pow_pos_nonneg; lia).
    assert (HmD1 : 2 ^ n * 2 ^ (prec - 1) = 2 ^ (D - 1)).
    { rewrite <- Z.pow_add_r by lia. f_equal. lia. }
    assert (HmD : 2 ^ n * 2 ^ prec = 2 ^ D).
    { rewrite <- Z.pow_add_r by lia. f_equal. lia. }
    assert (Hm'lo : 2 ^ (prec - 1) <= m / 2 ^ n).
    { apply Z.div_le_lower_bound; [exact Hpow | lia]. }
    assert (Hm'hi : m / 2 ^ n < 2 ^ prec).
    { apply Z.div_lt_upper_bound; [exact Hpow | lia]. }
    assert (Hp1 : 0 < 2 ^ (prec - 1)) by (apply Z.pow_pos_nonneg; lia).
    pose proof (shr_fexp_spec prec emax m e l (Z.lt_le_incl _ _ Hm)) as [H1 H2].
    rewrite Hfexp in H1, H2. fold n in H1, H2.
    replace (Z.max 0 (D - prec)) with n in H1, H2 by lia.
    destruct (shr_fexp prec emax m e l) as [mrs' e']. simpl in H1, H2. subst e'.
    set (M := round_nearest_even (shr_m mrs') (loc_of_shr_record mrs')).
    assert (HM : M = m / 2 ^ n \/ M = m / 2 ^ n + 1).
    { subst M. rewrite <- H1. apply round_nearest_even_cases. }
    assert (HMlo : 2 ^ (prec - 1) <= M) by lia.
    assert (HMhi : M <= 2 ^ prec) by lia.
    assert (HMpos : 0 < M) by lia.
    assert (H2p : 2 ^ prec = 2 * 2 ^ (prec - 1)).
    { replace prec with (Z.succ (prec - 1)) at 1 by lia. apply Z.pow_succ_r. lia. }
    destruct (Z.eq_dec M (2 ^ prec)) as [Hcarry|Hnocarry].
    + (* the rounding carried into a new digit: one more shift *)
      assert (HdM : Zdigits2 M = prec + 1).
      { apply Zdigits2_unique; [exact HMpos|].
        replace (prec + 1 - 1) with prec by lia. split; [lia|].
        rewrite Hcarry. apply Z.pow_lt_mono_r; lia. }
      pose proof (shr_fexp_spec prec emax M (e + n) loc_Exact (Z.lt_le_incl _ _ HMpos))
        as [H3 H4].
      rewrite HdM in H3, H4.
      replace (fexp prec emax (prec + 1 + (e + n))) with (e + n + 1) in H3, H4
        by (unfold fexp; lia).
      replace (Z.max 0 (e + n + 1 - (e + n))) with 1 in H3, H4 by lia.
      destruct (shr_fexp prec emax M (e + n) loc_Exact) as [mrs'' e'']. simpl in H3, H4.
      subst e''. rewrite H3, Hcarry, H2p. change (2 ^ 1) with 2.
      rewrite Z.mul_comm, Z.div_mul by lia.
      destruct (2 ^ (prec - 1)) as [|q|q] eqn:Eq; try lia.
      replace (e + n + 1 <=? emax - prec) with true by (symmetry; apply Z.leb_le; lia).
      exists q, (e + n + 1), M.
      split; [reflexivity|].
      split; [destruct HM as [HM|HM]; [left; exact HM | right; split; [lia | exact HM]]|].
      split; [right; split; [reflexivity | lia]|].
      assert (Zdigits2 (Z.pos q) = prec).
      { apply Zdigits2_unique; [lia|]. rewrite <- Eq. lia. }
      lia.
    + assert (HdM : Zdigits2 M = prec).
      { apply Zdigits2_unique; [exact HMpos | lia]. }
      rewrite shr_fexp_exact_noshift
        by (rewrite HdM; unfold fexp; lia).
      simpl. destruct M as [|q|q] eqn:EM; try lia.
      replace (e + n <=? emax - prec) with true by (symmetry; apply Z.leb_le; lia).
      exists q, (e + n), (Z.pos q).
      split; [reflexivity|].
      split; [destruct HM as [HM|HM]; [left; exact HM | right; split; [lia | exact HM]]|].
      split; [left; split; reflexivity|].
      simpl in HdM |- *. lia.
Qed.

End RoundAux.

Section RealFacts.
Local Open Scope R_scope.

Lemma bpow_pos e : 0 < bpow e.
Proof. apply powerRZ_lt. lra. Qed.

Lemma bpow_add a b : bpow (a + b) = bpow a * bpow b.
Proof. apply powerRZ_add. lra. Qed.

Lemma bpow_IZR k : (0 <= k)%Z -> bpow k = IZR (2 ^ k).
Proof.
  intros Hk. unfold bpow. destruct k as [|p|p]; try lia; [reflexivity|].
  symmetry. apply (Zpower_pos_powerRZ 2 p).
Qed.

Lemma IZR_pow2_ge1 k : (0 <= k)%Z -> 1 <= IZR (2 ^ k).
Proof.
  intros Hk. apply IZR_le.
  assert (0 < 2 ^ k)%Z by (apply Z.pow_pos_nonneg; lia). lia.
Qed.

Lemma bpow_le a b : (a <= b)%Z -> bpow a <= bpow b.
Proof.
  intros H. replace b with (a + (b - a))%Z by lia. rewrite bpow_add.
  rewrite (bpow_IZR (b - a)) by lia.
  pose proof (bpow_pos a). pose proof (IZR_pow2_ge1 (b - a) ltac:(lia)). nra.
Qed.

Lemma bpow_shift e n : (0 <= n)%Z -> bpow (e + n) = bpow e * IZR (2 ^ n).
Proof. intros Hn. rewrite bpow_add, (bpow_IZR n) by exact Hn. reflexivity. Qed.

End RealFacts.

Section RoundAuxReal.
Local Open Scope R_scope.

Variables prec emax : Z.
Hypothesis Hprec : (0 < prec)%Z.

(** The result of a rounding is within [2^(1-prec)] of what is rounded,
    relatively. *)
Lemma binary_round_aux_real s m e l (x : R) :
  (0 < m)%Z ->
  (emin prec emax <= Zdigits2 m + e - prec)%Z ->
  (Zdigits2 m < prec -> l = loc_Exact)%Z ->
  (e + Z.max 0 (Zdigits2 m - prec) + 1 <= emax - prec)%Z ->
  F2R m e <= x <= F2R (m + 1) e ->
  (l = loc_Exact -> x = F2R m e) ->
  exists m'' e'',
    binary_round_aux prec emax s m e l = S754_finite s m'' e'' /\
    (Zdigits2 m + e <= Zdigits2 (Zpos m'') + e'' <= Zdigits2 m + e + 1)%Z /\
    Rabs (F2R (Zpos m'') e'' - x) <= bpow (1 - prec) * x.
Proof.
  intros Hm Hemin Hexact Hover Hx Hxe.
  destruct (binary_round_aux_spec prec emax Hprec s m e l Hm Hemin Hexact Hover)
    as (m'' & e'' & M & Hres & HM & He & Hdig).
  exists m'', e''. split; [exact Hres|]. split; [exact Hdig|].
  set (n := Z.max 0 (Zdigits2 m - prec)) in *.
  assert (Hn : (0 <= n)%Z) by (subst n; lia).
  assert (HF : F2R (Zpos m'') e'' = IZR M * bpow (e + n)).
  { unfold F2R. destruct He as [[-> ->]|[-> <-]]; [reflexivity|].
    rewrite (bpow_add (e + n) 1).
    replace (bpow 1) with 2 by (unfold bpow; simpl; lra).
    rewrite mult_IZR. lra. }
  rewrite HF.
  pose proof (bpow_pos (e + n)) as HB.
  pose proof (bpow_pos (1 - prec)) as Hu.
  assert (Hpow : (0 < 2 ^ n)%Z) by (apply Z.pow_pos_nonneg; lia).
  destruct (Z.lt_ge_cases (Zdigits2 m) prec) as [Hsmall|Hbig].
  - (* exact *)
    assert (n = 0%Z) by (subst n; lia).
    destruct HM as [HM|[HM _]]; [|lia].
    rewrite Hxe by (apply Hexact; exact Hsmall).
    replace (IZR M * bpow (e + n) - F2R m e) with 0.
    + rewrite Rabs_R0. unfold F2R.
      assert (0 < IZR m) by (apply IZR_lt; exact Hm).
      pose proof (bpow_pos e).
      apply Rmult_le_pos; [lra|]. apply Rmult_le_pos; lra.
    + unfold F2R. rewrite HM, H. simpl. rewrite Z.div_1_r, Z.add_0_r. lra.
  - (* one unit in the last place at most *)
    destruct (Zdigits2_bounds m Hm) as (HDpos & Hlo & Hhi).
    assert (Hn' : n = (Zdigits2 m - prec)%Z) by (subst n; lia).
    assert (HmD1 : (2 ^ n * 2 ^ (prec - 1) = 2 ^ (Zdigits2 m - 1))%Z).
    { rewrite <- Z.pow_add_r by lia. f_equal. lia. }
    assert (Hm'lo : (2 ^ (prec - 1) <= m / 2 ^ n)%Z).
    { apply Z.div_le_lower_bound; [exact Hpow | lia]. }
    pose proof (Z.mul_div_le m (2 ^ n) Hpow) as Hdl.
    pose proof (Z.mul_succ_div_gt m (2 ^ n) Hpow) as Hdu.
    set (m' := (m / 2 ^ n)%Z) in *.
    assert (HloR : IZR m' * bpow (e + n) <= x).
    { rewrite bpow_shift by exact Hn. destruct Hx as [Hx _]. unfold F2R in Hx.
      apply IZR_le in Hdl. rewrite mult_IZR in Hdl.
      pose proof (bpow_pos e). nra. }
    assert (HhiR : x <= (IZR m' + 1) * bpow (e + n)).
    { rewrite bpow_shift by exact Hn. destruct Hx as [_ Hx]. unfold F2R in Hx.
      assert (Hdu' : (m + 1 <= 2 ^ n * (m' + 1))%Z) by lia.
      apply IZR_le in Hdu'. rewrite mult_IZR, !plus_IZR in Hdu'. rewrite plus_IZR in Hx.
      pose proof (bpow_pos e). nra. }
    assert (Hone : bpow (1 - prec) * IZR (2 ^ (prec - 1)) = 1).
    { rewrite <- bpow_IZR by lia. rewrite <- bpow_add.
      replace (1 - prec + (prec - 1))%Z with 0%Z by lia. reflexivity. }
    assert (HP : IZR (2 ^ (prec - 1)) <= IZR m') by (apply IZR_le; exact Hm'lo).
    assert (Hulp : bpow (e + n) <= bpow (1 - prec) * x).
    { assert (bpow (1 - prec) * (IZR (2 ^ (prec - 1)) * bpow (e + n)) <= bpow (1 - prec) * x).
      { apply Rmult_le_compat_l; [lra|].
        apply Rle_trans with (IZR m' * bpow (e + n)); [|exact HloR].
        apply Rmult_le_compat_r; lra. }
      nra. }
    apply Rabs_le.
    destruct HM as [->|[_ ->]]; fold m'; rewrite ?plus_IZR; split; nra.
Qed.

End RoundAuxReal.

Section Conversions.
Local Open Scope Z_scope.

Lemma iter_xO_pow p d : Zpos (Pos.iter xO p d) = Zpos p * 2 ^ Zpos d.
Proof.
  induction d as [|d IH] using Pos.peano_ind.
  - simpl. lia.
  - rewrite Pos.iter_succ, Pos2Z.inj_xO, IH, Pos2Z.inj_succ, Z.pow_succ_r by lia. ring.
Qed.

Lemma Zdigits2_shift m k :
  0 < m -> 0 <= k -> Zdigits2 (m * 2 ^ k) = Zdigits2 m + k.
Proof.
  intros Hm Hk. destruct (Zdigits2_bounds m Hm) as (HD & Hlo & Hhi).
  assert (0 < 2 ^ k) by (apply Z.pow_pos_nonneg; lia).
  apply Zdigits2_unique; [nia|].
  replace (Zdigits2 m + k - 1) with (Zdigits2 m - 1 + k) by lia.
  rewrite !Z.pow_add_r by lia. nia.
Qed.

(** [(float) z] for a positive [int]. *)
Lemma float_of_int_pos z :
  0 < z <= INT_MAX ->
  exists m e,
    float_of_int z = S754_finite false m e /\
    1 <= Zdigits2 (Zpos m) + e <= 32 /\
    (Rabs (F2R (Zpos m) e - IZR z) <= bpow (-23) * IZR z)%R.
Proof.
  intros [Hz Hmax]. destruct z as [|p|p]; try lia.
  destruct (Zdigits2_bounds (Zpos p) Hz) as (HD & Hlo & Hhi).
  assert (HD31 : Zdigits2 (Zpos p) <= 31).
  { destruct (Z.le_gt_cases (Zdigits2 (Zpos p)) 31) as [H|H]; [exact H|].
    assert (2 ^ 31 <= 2 ^ (Zdigits2 (Z.pos p) - 1)) by (apply Z.pow_le_mono_r; lia).
    unfold INT_MAX in Hmax. change (2 ^ 31) with 2147483648 in *. lia. }
  unfold float_of_int, binary_normalize, binary_round, float_prec, float_emax.
  change (Z.pos (digits2_pos p)) with (Zdigits2 (Zpos p)).
  replace (fexp 24 128 (Zdigits2 (Z.pos p) + 0)) with (Zdigits2 (Zpos p) - 24)
    by (unfold fexp, emin; lia).
  set (D := Zdigits2 (Zpos p)) in *.
  assert (Hal : exists mz ez,
             shl_align p 0 (D - 24) = (mz, ez) /\ ez <= 0 /\
             Zpos mz = Zpos p * 2 ^ (- ez) /\ (ez = 0 \/ ez = D - 24)).
  { unfold shl_align. destruct (D - 24 - 0) as [|d|d] eqn:Ed.
    - exists p, 0. simpl. repeat split; lia.
    - exists p, 0. simpl. repeat split; lia.
    - exists (Pos.iter xO p d), (D - 24). rewrite iter_xO_pow.
      replace (- (D - 24)) with (Z.pos d) by lia. repeat split; lia. }
  destruct Hal as (mz & ez & -> & Hez & Hmz & Hcase).
  assert (Hdz : Zdigits2 (Zpos mz) = D - ez).
  { rewrite Hmz, Zdigits2_shift by lia. fold D. lia. }
  destruct (binary_round_aux_real 24 128 ltac:(lia) false (Zpos mz) ez loc_Exact (IZR (Zpos p)))
    as (m & e & Hres & Hdig & Herr).
  - lia.
  - rewrite Hdz. unfold emin. lia.
  - reflexivity.
  - rewrite Hdz. lia.
  - assert (HxF : F2R (Zpos mz) ez = IZR (Zpos p)).
    { unfold F2R. rewrite Hmz, mult_IZR.
      rewrite <- bpow_IZR by lia. rewrite Rmult_assoc, <- bpow_add.
      replace (- ez + ez) with 0 by lia. simpl. lra. }
    rewrite <- HxF. split; [lra|]. unfold F2R. rewrite plus_IZR.
    pose proof (bpow_pos ez). nra.
  - intros _. unfold F2R. rewrite Hmz, mult_IZR.
    rewrite <- bpow_IZR by lia. rewrite Rmult_assoc, <- bpow_add.
    replace (- ez + ez) with 0 by lia. simpl. lra.
  - exists m, e. split; [exact Hres|]. split; [rewrite Hdz in Hdig; lia|].
    exact Herr.
Qed.

End Conversions.

Section Operations.
Local Open Scope Z_scope.

Lemma Zdigits2_le m k : 0 < m -> m < 2 ^ k -> Zdigits2 m <= k.
Proof.
  intros Hm Hk. destruct (Zdigits2_bounds m Hm) as (HD & Hlo & _).
  destruct (Z.le_gt_cases (Zdigits2 m) k) as [H|H]; [exact H|].
  assert (2 ^ k <= 2 ^ (Zdigits2 m - 1)) by (apply Z.pow_le_mono_r; lia). lia.
Qed.

Lemma Zdigits2_ge m k : 0 < m -> 2 ^ k <= m -> k + 1 <= Zdigits2 m.
Proof.
  intros Hm Hk. destruct (Zdigits2_bounds m Hm) as (HD & _ & Hhi).
  destruct (Z.le_gt_cases (k + 1) (Zdigits2 m)) as [H|H]; [exact H|].
  assert (2 ^ Zdigits2 m <= 2 ^ k) by (apply Z.pow_le_mono_r; lia). lia.
Qed.

Lemma new_location_Exact nb k : new_location nb k = loc_Exact -> k = 0.
Proof.
  unfold new_location, new_location_even, new_location_odd.
  destruct (Z.even nb); destruct (k =? 0) eqn:E;
    try (intros _; apply Z.eqb_eq; exact E); discriminate.
Qed.

(** [x / y] on two positive [float]s of moderate size. *)
Lemma float_div_pos m1 e1 m2 e2 :
  1 <= Zdigits2 (Zpos m1) + e1 <= 32 ->
  1 <= Zdigits2 (Zpos m2) + e2 <= 32 ->
  exists m e,
    float_div (S754_finite false m1 e1) (S754_finite false m2 e2) = S754_finite false m e /\
    -31 <= Zdigits2 (Zpos m) + e <= 33 /\
    (Rabs (F2R (Zpos m) e - F2R (Zpos m1) e1 / F2R (Zpos m2) e2)
     <= bpow (-23) * (F2R (Zpos m1) e1 / F2R (Zpos m2) e2))%R.
Proof.
  intros H1 H2.
  destruct (Zdigits2_bounds (Zpos m1) ltac:(lia)) as (Hd1 & Hlo1 & Hhi1).
  destruct (Zdigits2_bounds (Zpos m2) ltac:(lia)) as (Hd2 & Hlo2 & Hhi2).
  set (d1 := Zdigits2 (Zpos m1)) in *. set (d2 := Zdigits2 (Zpos m2)) in *.
  unfold float_div, SFdiv, SFdiv_core_binary, float_prec, float_emax.
  fold d1 d2.
  replace (fexp 24 128 (d1 + e1 - (d2 + e2))) with (d1 + e1 - (d2 + e2) - 24)
    by (unfold fexp, emin; lia).
  set (e' := Z.min (d1 + e1 - (d2 + e2) - 24) (e1 - e2)).
  set (s := e1 - e2 - e').
  assert (Hs : 0 <= s) by (subst s e'; lia).
  assert (Hs' : 24 + d2 - d1 <= s) by (subst s e'; lia).
  assert (Hm' : match s with
                | 0 => Zpos m1
                | Zpos _ => Z.shiftl (Zpos m1) s
                | Zneg _ => 0
                end = Zpos m1 * 2 ^ s).
  { destruct s as [|p|p] eqn:Es; [simpl; lia | | lia].
    rewrite Z.shiftl_mul_pow2 by lia. reflexivity. }
  rewrite Hm'.
  pose proof (Z_div_mod (Zpos m1 * 2 ^ s) (Zpos m2) ltac:(lia)) as Hdiv.
  destruct (Z.div_eucl (Zpos m1 * 2 ^ s) (Zpos m2)) as [q r].
  destruct Hdiv as [Hqr Hr].
  assert (Hps : 0 < 2 ^ s) by (apply Z.pow_pos_nonneg; lia).
  assert (Hlow : 2 ^ (d1 - 1 + s - d2) * 2 ^ d2 <= Zpos m1 * 2 ^ s).
  { rewrite <- Z.pow_add_r by lia.
    replace (d1 - 1 + s - d2 + d2) with (d1 - 1 + s) by lia.
    rewrite Z.pow_add_r by lia. nia. }
  assert (Hp0 : 0 < 2 ^ (d1 - 1 + s - d2)) by (apply Z.pow_pos_nonneg; lia).
  assert (Hq : 2 ^ (d1 - 1 + s - d2) <= q) by nia.
  assert (Hq23 : 2 ^ 23 <= q).
  { apply Z.le_trans with (2 ^ (d1 - 1 + s - d2)); [|exact Hq].
    apply Z.pow_le_mono_r; lia. }
  assert (Hqpos : 0 < q) by (change (2 ^ 23) with 8388608 in Hq23; lia).
  assert (Hup : q * 2 ^ (d2 - 1) < 2 ^ (d1 + s - d2 + 1) * 2 ^ (d2 - 1)).
  { rewrite <- Z.pow_add_r by lia.
    replace (d1 + s - d2 + 1 + (d2 - 1)) with (d1 + s) by lia.
    rewrite Z.pow_add_r by lia. nia. }
  assert (Hp1 : 0 < 2 ^ (d2 - 1)) by (apply Z.pow_pos_nonneg; lia).
  assert (Hqhi : q < 2 ^ (d1 + s - d2 + 1)) by nia.
  assert (HDq_lo : d1 + s - d2 <= Zdigits2 q).
  { pose proof (Zdigits2_ge q (d1 - 1 + s - d2) Hqpos Hq). lia. }
  assert (HDq_hi : Zdigits2 q <= d1 + s - d2 + 1) by (apply Zdigits2_le; assumption).
  assert (HDq24 : 24 <= Zdigits2 q).
  { pose proof (Zdigits2_ge q 23 Hqpos Hq23). lia. }
  assert (He' : e' + s = e1 - e2) by (subst s; lia).
  set (X := (F2R (Zpos m1) e1 / F2R (Zpos m2) e2)%R).
  assert (HX : (X * IZR (Zpos m2) = IZR (Zpos m1 * 2 ^ s) * bpow e')%R).
  { subst X. unfold F2R.
    replace e1 with (e2 + (e' + s)) by lia.
    rewrite bpow_add, bpow_shift by lia. rewrite mult_IZR.
    pose proof (bpow_pos e2). pose proof (bpow_pos e').
    assert (0 < IZR (Zpos m2))%R by (apply IZR_lt; lia).
    field. split; lra. }
  assert (Hm2R : (0 < IZR (Zpos m2))%R) by (apply IZR_lt; lia).
  pose proof (bpow_pos e') as HBe.
  rewrite Hqr, plus_IZR, mult_IZR in HX.
  assert (HrR : (0 <= IZR r < IZR (Zpos m2))%R).
  { split; [apply IZR_le | apply IZR_lt]; lia. }
  destruct (binary_round_aux_real 24 128 ltac:(lia) (xorb false false) q e'
              (new_location (Zpos m2) r) X)
    as (m & e & Hres & Hdig & Herr).
  - exact Hqpos.
  - unfold emin. lia.
  - lia.
  - lia.
  - unfold F2R. rewrite plus_IZR. split; nra.
  - intros Hl. apply new_location_Exact in Hl. subst r. unfold F2R.
    change (IZR 0) with 0%R in HX. nra.
  - exists m, e. split; [exact Hres|]. split; [lia | exact Herr].
Qed.

(** [x * 100.00] on [double], for [x] a positive [float] of moderate size. *)
Lemma double_mul_100 m e :
  -31 <= Zdigits2 (Zpos m) + e <= 33 ->
  exists my ey,
    double_mul (double_of_float (S754_finite false m e)) double_100
      = S754_finite false my ey /\
    (Rabs (F2R (Zpos my) ey - 100 * F2R (Zpos m) e) <= bpow (-52) * (100 * F2R (Zpos m) e))%R.
Proof.
  intros Hd.
  destruct (Zdigits2_bounds (Zpos m) ltac:(lia)) as (HD & Hlo & Hhi).
  set (dm := Zdigits2 (Zpos m)) in *.
  rewrite double_100_finite. unfold double_of_float, double_mul, SFmul, double_prec, double_emax.
  change (Z.pos (m * 7036874417766400)) with (Zpos m * 7036874417766400).
  assert (Hlo' : 2 ^ (dm + 52 - 1) <= Zpos m * 7036874417766400).
  { replace (dm + 52 - 1) with (dm - 1 + 52) by lia. rewrite Z.pow_add_r by lia.
    change (2 ^ 52) with 4503599627370496. nia. }
  assert (Hhi' : Zpos m * 7036874417766400 < 2 ^ (dm + 53)).
  { rewrite Z.pow_add_r by lia. change (2 ^ 53) with 9007199254740992. nia. }
  assert (Hpos : 0 < Zpos m * 7036874417766400) by lia.
  pose proof (Zdigits2_ge _ _ Hpos Hlo') as HDlo.
  pose proof (Zdigits2_le _ _ Hpos Hhi') as HDhi.
  assert (HxF : (F2R (Zpos m * 7036874417766400) (e + -46) = 100 * F2R (Zpos m) e)%R).
  { unfold F2R. rewrite mult_IZR, bpow_add.
    replace (bpow (-46)) with (/ 70368744177664)%R.
    - replace (IZR 7036874417766400) with (100 * 70368744177664)%R by lra. field.
    - unfold bpow. simpl. f_equal. lra. }
  destruct (binary_round_aux_real 53 1024 ltac:(lia) (xorb false false)
              (Zpos m * 7036874417766400) (e + -46) loc_Exact
              (100 * F2R (Zpos m) e)%R)
    as (my & ey & Hres & _ & Herr).
  - exact Hpos.
  - unfold emin. lia.
  - reflexivity.
  - lia.
  - rewrite <- HxF. unfold F2R. rewrite plus_IZR. pose proof (bpow_pos (e + -46)).
    split; nra.
  - intros _. symmetry. exact HxF.
  - exists my, ey. split; [exact Hres | exact Herr].
Qed.

(** The conversion to [int] takes the integral part. *)
Lemma trunc_pos_floor m e :
  (IZR (trunc_pos m e) <= F2R (Zpos m) e < IZR (trunc_pos m e) + 1)%R.
Proof.
  unfold trunc_pos, F2R. destruct e as [|p|p].
  - rewrite Z.shiftl_0_r. unfold bpow. simpl. lra.
  - rewrite Z.shiftl_mul_pow2 by lia. rewrite mult_IZR, <- bpow_IZR by lia. lra.
  - rewrite Z.shiftr_div_pow2 by lia.
    assert (Hp : 0 < 2 ^ Zpos p) by (apply Z.pow_pos_nonneg; lia).
    pose proof (Z.mul_div_le (Zpos m) _ Hp) as Hl.
    pose proof (Z.mul_succ_div_gt (Zpos m) _ Hp) as Hu.
    apply IZR_le in Hl. apply IZR_lt in Hu.
    rewrite mult_IZR in Hl. rewrite mult_IZR, succ_IZR in Hu.
    assert (Hb : (bpow (Zneg p) * IZR (2 ^ Zpos p) = 1)%R).
    { rewrite <- bpow_IZR by lia. rewrite <- bpow_add.
      replace (Z.neg p + Z.pos p) with 0 by lia. reflexivity. }
    pose proof (bpow_pos (Zneg p)) as HB.
    assert (HP : (0 < IZR (2 ^ Zpos p))%R) by (apply IZR_lt; exact Hp).
    set (B := bpow (Z.neg p)) in *. set (P := IZR (2 ^ Z.pos p)) in *.
    set (Q := IZR (Z.pos m / 2 ^ Z.pos p)) in *. set (M := IZR (Zpos m)) in *.
    assert (H1 : (B * (P * Q) <= B * M)%R) by (apply Rmult_le_compat_l; lra).
    assert (H2 : (B * M < B * (P * (Q + 1)))%R) by (apply Rmult_lt_compat_l; lra).
    assert (H3 : (B * (P * Q) = Q)%R) by (rewrite <- Rmult_assoc, Hb; ring).
    assert (H4 : (B * (P * (Q + 1)) = Q + 1)%R) by (rewrite <- Rmult_assoc, Hb; ring).
    lra.
Qed.

End Operations.

Section ProgressPercent.
Local Open Scope Z_scope.

Lemma bpow_m23 : (bpow (-23) <= 1 / 1000)%R.
Proof. unfold bpow. simpl. lra. Qed.

Lemma bpow_m52 : (bpow (-52) <= 1 / 1000)%R.
Proof. unfold bpow. simpl. lra. Qed.

Lemma rel_err_bounds (F x u : R) :
  (0 < x -> u <= 1 / 1000 -> 0 < u -> Rabs (F - x) <= u * x ->
   999 / 1000 * x <= F <= 1001 / 1000 * x)%R.
Proof.
  intros Hx Hu Hu0 H. unfold Rabs in H.
  destruct (Rcase_abs (F - x)); split; nra.
Qed.

(** The percentage is defined for a download that has not passed the total,
    lies between 0 and 100 and is less than 2 away from the exact
    quotient. *)
Lemma progress_percent_defined d t :
  0 <= d <= t ->
  0 < t <= INT_MAX ->
  exists p,
    progress_percent d t = Some p /\
    0 <= p <= 100 /\
    (p - 1) * t <= d * 100 < (p + 2) * t.
Proof.
  intros [Hd0 Hdt] [Ht0 Htmax].
  destruct (float_of_int_pos t (conj Ht0 Htmax)) as (mt & et & Eft & Hdigt & Herrt).
  unfold progress_percent. rewrite Eft.
  destruct (Z.eq_dec d 0) as [->|Hdnz].
  { exists 0. split; [reflexivity|]. lia. }
  assert (Hdpos : 0 < d) by lia.
  destruct (float_of_int_pos d ltac:(lia)) as (md & ed & Efd & Hdigd & Herrd).
  rewrite Efd.
  destruct (float_div_pos md ed mt et Hdigd Hdigt) as (mq & eq & Efq & Hdigq & Herrq).
  rewrite Efq.
  destruct (double_mul_100 mq eq Hdigq) as (my & ey & Efy & Herry).
  rewrite Efy. unfold int_of_double.
  pose proof (trunc_pos_floor my ey) as [Hfl Hfu].
  set (p := trunc_pos my ey) in *.
  set (Y := F2R (Zpos my) ey) in *.
  set (Fq := F2R (Zpos mq) eq) in *.
  set (Fd := F2R (Zpos md) ed) in *.
  set (Ft := F2R (Zpos mt) et) in *.
  set (D := IZR d). set (T := IZR t).
  fold D in Herrd. fold T in Herrt.
  assert (HD : (0 < D)%R) by (apply IZR_lt; exact Hdpos).
  assert (HT : (0 < T)%R) by (apply IZR_lt; exact Ht0).
  assert (HDT : (D <= T)%R) by (apply IZR_le; exact Hdt).
  pose proof (bpow_pos (-23)) as Hu. pose proof bpow_m23 as Hu'.
  pose proof (bpow_pos (-52)) as Hv. pose proof bpow_m52 as Hv'.
  apply (rel_err_bounds _ _ _ HD Hu' Hu) in Herrd.
  apply (rel_err_bounds _ _ _ HT Hu' Hu) in Herrt.
  assert (HFd : (0 < Fd)%R) by lra.
  assert (HFt : (0 < Ft)%R) by lra.
  set (X := (Fd / Ft)%R) in *.
  assert (HX : (X * Ft = Fd)%R) by (subst X; field; lra).
  assert (HXpos : (0 < X)%R) by (subst X; apply Rdiv_lt_0_compat; lra).
  apply (rel_err_bounds _ _ _ HXpos Hu' Hu) in Herrq.
  assert (HFq : (0 < Fq)%R) by lra.
  assert (H100 : (0 < 100 * Fq)%R) by lra.
  apply (rel_err_bounds _ _ _ H100 Hv' Hv) in Herry.
  assert (HXT_hi : (X * T * (999 / 1000) <= 1001 / 1000 * D)%R) by nra.
  assert (HXT_lo : (999 / 1000 * D <= X * T * (1001 / 1000))%R) by nra.
  assert (HFqT_hi : (Fq * T <= 1001 / 1000 * (X * T))%R) by nra.
  assert (HFqT_lo : (999 / 1000 * (X * T) <= Fq * T)%R) by nra.
  assert (HYT_hi : (Y * T <= 1001 / 1000 * (100 * (Fq * T)))%R) by nra.
  assert (HYT_lo : (999 / 1000 * (100 * (Fq * T)) <= Y * T)%R) by nra.
  assert (HYhi : (Y * T <= 201 / 2 * D)%R) by lra.
  assert (HYlo : (199 / 2 * D <= Y * T)%R) by lra.
  assert (HY0 : (0 < Y)%R) by lra.
  assert (HY101 : (Y < 101)%R) by nra.
  assert (Hp0 : 0 <= p).
  { assert (IZR (-1) < IZR p)%R by (simpl; lra). apply lt_IZR in H. lia. }
  assert (Hp100 : p <= 100).
  { assert (IZR p < IZR 101)%R by lra. apply lt_IZR in H. lia. }
  assert (Hrange : in_int_range p = true).
  { unfold in_int_range, INT_MIN, INT_MAX. apply andb_true_iff.
    split; apply Z.leb_le; lia. }
  rewrite Hrange. exists p. split; [reflexivity|]. split; [lia|].
  assert (HpT : (IZR p * T <= Y * T)%R) by nra.
  assert (HpT' : (Y * T < (IZR p + 1) * T)%R) by nra.
  assert (H1 : (p - 1) * t < d * 100).
  { apply lt_IZR. rewrite !mult_IZR, minus_IZR. fold D T. simpl. lra. }
  assert (H2 : d * 100 < (p + 2) * t).
  { apply lt_IZR. rewrite !mult_IZR, plus_IZR. fold D T. simpl. lra. }
  lia.
Qed.

End ProgressPercent.

(** ** Facts about the handlers *)

Section HandlerFacts.

Lemma published_emit e s :
  published (emit e s) = published s ++ (if is_publish e then [e] else []).
Proof.
  unfold published. simpl. rewrite List.filter_app. simpl.
  destruct (is_publish e); reflexivity.
Qed.


(** Everything one [HTTP_EVENT_ON_DATA] does, read off the result. *)
Lemma http_on_data_inv len s s' :
  http_on_data len s = Some s' ->
  exists d p,
    int_add (downloaded_data_len s) len = Some d /\
    progress_percent d (ota_img_data_len s) = Some p /\
    downloaded_data_len s' = d /\
    update_progress_percent s' = p /\
    ota_img_data_len s' = ota_img_data_len s /\
    ota_action_id s' = ota_action_id s /\
    ota_update_completed s' = ota_update_completed s /\
    nvs s' = nvs s /\
    ((p = loop_var s /\
      published s' = published s ++ [progress_message (ota_action_id s) (loop_var s)] /\
      loop_var s' = (if loop_var s =? 100 then 0 else loop_var s + 5))
     \/
     (p <> loop_var s /\
      published s' = published s /\
      loop_var s' = (if loop_var s =? 105 then 0 else loop_var s))).
Proof.
  unfold http_on_data. intros H.
  destruct (int_add _ _) as [d|] eqn:Hd; [|discriminate].
  hal_simpl.
  destruct (progress_percent _ _) as [p|] eqn:Hp; [|discriminate].
  hal_simpl.
  exists d, p. split; [reflexivity|]. split; [exact Hp|].
  destruct (p =? loop_var s) eqn:Heq.
  - apply Z.eqb_eq in Heq. subst p.
    destruct (loop_var s =? 100) eqn:H100; hal_simpl;
      (destruct (int_add (loop_var s) 5) as [l|] eqn:Hl; [|discriminate]);
      apply int_add_Some in Hl as [-> _]; hal_simpl.
    + replace (loop_var s + 5 =? 105) with true in H
        by (symmetry; apply Z.eqb_eq; apply Z.eqb_eq in H100; lia).
      injection H as <-. hal_simpl.
      repeat (split; [reflexivity|]). left.
      split; [reflexivity|]. split; [|reflexivity].
      unfold published, progress_message. hal_simpl.
      rewrite !List.filter_app. simpl.
      rewrite H100. rewrite app_nil_r. reflexivity.
    + destruct (loop_var s + 5 =? 105) eqn:H105.
      { apply Z.eqb_eq in H105. apply Z.eqb_neq in H100. lia. }
      injection H as <-. hal_simpl.
      repeat (split; [reflexivity|]). left.
      split; [reflexivity|]. split; [|reflexivity].
      unfold published, progress_message. hal_simpl.
      rewrite !List.filter_app. simpl.
      rewrite H100. rewrite app_nil_r. reflexivity.
  - apply Z.eqb_neq in Heq. hal_simpl.
    destruct (loop_var s =? 105) eqn:H105; injection H as <-; hal_simpl;
      repeat (split; [reflexivity|]); right;
      (split; [exact Heq|]); (split; [|reflexivity]);
      unfold published; hal_simpl; rewrite List.filter_app; simpl;
      apply app_nil_r.
Qed.

Lemma http_event_handler_inv evt s s' :
  _http_event_handler evt s = Some s' ->
  (event_id evt = HTTP_EVENT_ON_DATA /\ http_on_data (evt_data_len evt) s = Some s')
  \/ (event_id evt <> HTTP_EVENT_ON_DATA /\
      exists level fmt, s' = emit (EspLog level fmt) s).
Proof.
  unfold _http_event_handler.
  destruct (event_id evt); intros H;
    try (left; split; [reflexivity | exact H]);
    right; (split; [discriminate|]); injection H as <-; eauto.
Qed.

Lemma next_cursor_not_105 c : c <> 105 -> next_cursor c <> 105.
Proof. unfold next_cursor. destruct (c =? 100) eqn:E; [lia|]. apply Z.eqb_neq in E. lia. Qed.

Lemma cursor_walk_snoc n c :
  cursor_walk (S n) c = cursor_walk n c ++ [Nat.iter n next_cursor c].
Proof.
  revert c. induction n as [|n IH]; intros c; [reflexivity|].
  change (cursor_walk (S (S n)) c) with (c :: cursor_walk (S n) (next_cursor c)).
  rewrite IH. simpl. f_equal. f_equal. f_equal.
  clear IH. induction n as [|n IH]; [reflexivity|]. simpl. now rewrite IH.
Qed.

(** One event of the download: at most one message, sent at the cursor. *)
Lemma http_event_handler_step evt s s' :
  _http_event_handler evt s = Some s' ->
  loop_var s <> 105 ->
  ota_action_id s' = ota_action_id s /\
  ((published s' = published s /\ loop_var s' = loop_var s)
   \/ (update_progress_percent s' = loop_var s /\
       published s' = published s ++ [progress_message (ota_action_id s) (loop_var s)] /\
       loop_var s' = next_cursor (loop_var s))).
Proof.
  intros H Hc. apply http_event_handler_inv in H as [[_ H]|[_ (lv & fmt & ->)]].
  - apply http_on_data_inv in H
      as (d & p & _ & _ & _ & Hp & _ & Hid & _ & _ & [(-> & Hpub & Hl)|(Hne & Hpub & Hl)]).
    + split; [exact Hid|]. right. auto.
    + split; [exact Hid|]. left. split; [exact Hpub|].
      rewrite Hl. destruct (loop_var s =? 105) eqn:E; [|reflexivity].
      apply Z.eqb_eq in E. contradiction.
  - split; [reflexivity|]. left. rewrite published_emit. simpl.
    split; [apply app_nil_r | reflexivity].
Qed.

(** A whole download: the messages sent are the successive values of the
    cursor, one message each, at most one per event. *)
Lemma deliver_http_published evts :
  forall s s',
    deliver _http_event_handler evts s = Some s' ->
    loop_var s <> 105 ->
    exists n : nat,
      (n <= length evts)%nat /\
      published s' =
        published s ++ map (progress_message (ota_action_id s)) (cursor_walk n (loop_var s)) /\
      loop_var s' = Nat.iter n next_cursor (loop_var s) /\
      ota_action_id s' = ota_action_id s.
Proof.
  induction evts as [|evt evts IH] using rev_ind; intros s s' H Hc.
  - injection H as <-. exists 0%nat. simpl. rewrite app_nil_r. auto.
  - assert (Hsplit : exists s1, deliver _http_event_handler evts s = Some s1 /\
                                _http_event_handler evt s1 = Some s').
    { clear IH Hc. revert s H. induction evts as [|e evts IH]; intros s H; simpl in *.
      - destruct (_http_event_handler evt s) as [s1|] eqn:E; [|discriminate].
        simpl in H. injection H as <-. eauto.
      - destruct (_http_event_handler e s) as [s1|] eqn:E; [|discriminate].
        simpl in *. apply IH in H as (s2 & H1 & H2). eauto. }
    destruct Hsplit as (s1 & H1 & H2).
    destruct (IH _ _ H1 Hc) as (n & Hn & Hpub & Hl & Hid).
    assert (Hc1 : loop_var s1 <> 105).
    { rewrite Hl. clear -Hc. induction n as [|n IHn]; [exact Hc|].
      simpl. now apply next_cursor_not_105. }
    destruct (http_event_handler_step _ _ _ H2 Hc1) as (Hid' & [(Hp & Hl')|(_ & Hp & Hl')]).
    + exists n. rewrite length_app. simpl. split; [lia|].
      rewrite Hp, Hl', Hid'. auto.
    + exists (S n). rewrite length_app. simpl length. split; [lia|].
      rewrite Hp, Hl', Hid', Hpub, Hid, Hl, cursor_walk_snoc, map_app, <- app_assoc.
      auto.
Qed.

(** The size-discovery handler touches [ota_img_data_len] and the log
    only. *)
Lemma deliver_test_frame evts :
  forall s s',
    deliver _test_event_handler evts s = Some s' ->
    loop_var s' = loop_var s /\
    downloaded_data_len s' = downloaded_data_len s /\
    update_progress_percent s' = update_progress_percent s /\
    ota_action_id s' = ota_action_id s /\
    published s' = published s.
Proof.
  induction evts as [|evt evts IH]; intros s s' H; simpl in H.
  - injection H as <-. auto.
  - destruct (_test_event_handler evt s) as [s1|] eqn:E; [|discriminate].
    simpl in H. apply IH in H as (H1 & H2 & H3 & H4 & H5).
    rewrite H1, H2, H3, H4, H5. clear -E.
    unfold _test_event_handler in E.
    destruct (event_id evt); try (injection E as <-; auto).
    + rewrite published_emit. simpl. rewrite app_nil_r. auto.
    + destruct (int_add _ _) as [t|]; [|discriminate]. injection E as <-. auto.
Qed.

Lemma deliver_test_no_data evts :
  forall s s',
    no_data evts ->
    deliver _test_event_handler evts s = Some s' ->
    ota_img_data_len s' = ota_img_data_len s.
Proof.
  induction evts as [|evt evts IH]; intros s s' Hn H; simpl in H.
  - injection H as <-. reflexivity.
  - inversion Hn as [|? ? Hevt Hrest]; subst.
    destruct (_test_event_handler evt s) as [s1|] eqn:E; [|discriminate].
    simpl in H. rewrite (IH _ _ Hrest H). clear -E Hevt.
    unfold _test_event_handler in E.
    destruct (event_id evt); try (injection E as <-; reflexivity).
    congruence.
Qed.

(** The size discovery cannot fail to return unless the lengths overflow;
    in particular it returns when it delivers no data. *)
Lemma deliver_test_no_data_total evts :
  forall s, no_data evts -> exists s', deliver _test_event_handler evts s = Some s'.
Proof.
  induction evts as [|evt evts IH]; intros s Hn; simpl.
  - eauto.
  - inversion Hn as [|? ? Hevt Hrest]; subst.
    assert (E : exists s1, _test_event_handler evt s = Some s1).
    { unfold _test_event_handler. destruct (event_id evt); eauto. congruence. }
    destruct E as [s1 ->]. simpl. apply IH. exact Hrest.
Qed.

Lemma cursor_ok_next c : cursor_ok c -> cursor_ok (next_cursor c).
Proof.
  unfold cursor_ok, next_cursor. intros [Hr Hm].
  destruct (c =? 100) eqn:E; [split; [lia|reflexivity]|].
  apply Z.eqb_neq in E.
  apply Z.mod_divide in Hm as [k ->]; [|lia].
  split; [lia|]. apply Z.mod_divide; [lia|]. exists (k + 1). lia.
Qed.

Lemma cursor_ok_not_105 c : cursor_ok c -> c <> 105.
Proof. unfold cursor_ok. lia. Qed.

(** The cursor stays among 0, 5, ..., 100 through every handler. *)
Lemma http_event_handler_cursor_ok evt s s' :
  _http_event_handler evt s = Some s' -> cursor_ok (loop_var s) -> cursor_ok (loop_var s').
Proof.
  intros H Hc.
  destruct (http_event_handler_step _ _ _ H (cursor_ok_not_105 _ Hc))
    as (_ & [(_ & ->)|(_ & _ & ->)]); [exact Hc | now apply cursor_ok_next].
Qed.

Lemma deliver_http_cursor_ok evts :
  forall s s',
    deliver _http_event_handler evts s = Some s' ->
    cursor_ok (loop_var s) -> cursor_ok (loop_var s').
Proof.
  induction evts as [|evt evts IH]; intros s s' H Hc; simpl in H.
  - injection H as <-. exact Hc.
  - destruct (_http_event_handler evt s) as [s1|] eqn:E; [|discriminate].
    simpl in H. eapply IH; [exact H|]. eapply http_event_handler_cursor_ok; eauto.
Qed.

End HandlerFacts.

(** ** [bytebeam_hal_ota] as a whole *)

Section OtaFacts.

Lemma ota_download_entry_inv probe s s2 :
  ota_download_entry probe s = Some s2 ->
  exists s1,
    deliver _test_event_handler (events probe)
      (emit HttpClientPerform (emit HttpClientInit (ota_reset_counters s))) = Some s1 /\
    ota_img_data_len s2 = ota_img_data_len s1 /\
    loop_var s2 = loop_var s /\
    downloaded_data_len s2 = 0 /\
    update_progress_percent s2 = 0 /\
    ota_action_id s2 = ota_action_id s /\
    published s2 = published s /\
    In HttpsOta (trace s2).
Proof.
  unfold ota_download_entry, ota_size_discovery. intros H.
  destruct (deliver _test_event_handler _ _) as [s1|] eqn:E; [|discriminate].
  exists s1. split; [reflexivity|].
  apply deliver_test_frame in E as (H1 & H2 & H3 & H4 & H5).
  rewrite !published_emit in H5. simpl in *. rewrite !app_nil_r in H5.
  injection H as <-.
  rewrite !published_emit.
  destruct (decide (result probe = ESP_OK));
    rewrite ?published_emit; simpl; rewrite ?app_nil_r;
    (repeat (split; [assumption || reflexivity|]));
    apply in_or_app; right; left; reflexivity.
Qed.

Lemma bytebeam_hal_ota_inv probe download s r s' :
  bytebeam_hal_ota probe download s = Some (r, s') ->
  exists s2,
    ota_download_entry probe s = Some s2 /\
    deliver _http_event_handler (events download) s2 = Some s' /\
    r = result download.
Proof.
  unfold bytebeam_hal_ota. intros H.
  destruct (ota_download_entry probe s) as [s2|]; [|discriminate]. simpl in H.
  destruct (deliver _http_event_handler _ s2) as [s3|] eqn:E; [|discriminate].
  injection H as <- <-. exists s2. auto.
Qed.

(** With a total of 0 the first data event of the download has no defined
    outcome. *)
Lemma deliver_http_zero_total evts :
  forall s,
    ota_img_data_len s = 0 ->
    ~ no_data evts ->
    deliver _http_event_handler evts s = None.
Proof.
  induction evts as [|evt evts IH]; intros s Hz Hd.
  - exfalso. apply Hd. constructor.
  - simpl. destruct (_http_event_handler evt s) as [s1|] eqn:E; [|reflexivity].
    simpl. apply http_event_handler_inv in E as [[_ E]|[Hne (lv & fmt & ->)]].
    + apply http_on_data_inv in E as (d & p & _ & Hp & _). rewrite Hz in Hp.
      rewrite progress_percent_zero_total in Hp. discriminate.
    + apply IH; [exact Hz|]. intros Hn. apply Hd. constructor; assumption.
Qed.

Lemma bytebeam_hal_ota_cursor_ok probe download s r s' :
  bytebeam_hal_ota probe download s = Some (r, s') ->
  cursor_ok (loop_var s) -> cursor_ok (loop_var s').
Proof.
  intros H Hc. apply bytebeam_hal_ota_inv in H as (s2 & H2 & Hd & _).
  apply ota_download_entry_inv in H2 as (s1 & _ & _ & Hl & _).
  eapply deliver_http_cursor_ok; [exact Hd|]. rewrite Hl. exact Hc.
Qed.

(** A data event has a defined outcome as long as the download stays
    within a positive total. *)
Lemma http_on_data_defined len s :
  0 <= len ->
  0 <= downloaded_data_len s ->
  downloaded_data_len s + len <= ota_img_data_len s ->
  0 < ota_img_data_len s <= INT_MAX ->
  cursor_ok (loop_var s) ->
  exists s', http_on_data len s = Some s'.
Proof.
  intros Hlen Hd Hsum Ht [Hc _].
  assert (Hadd : int_add (downloaded_data_len s) len = Some (downloaded_data_len s + len)).
  { unfold int_add, in_int_range, INT_MIN, INT_MAX in *.
    replace ((-2147483648 <=? downloaded_data_len s + len)
             && (downloaded_data_len s + len <=? 2147483647)) with true; [reflexivity|].
    symmetry. apply andb_true_iff. split; apply Z.leb_le; lia. }
  assert (Hadd5 : int_add (loop_var s) 5 = Some (loop_var s + 5)).
  { unfold int_add, in_int_range, INT_MIN, INT_MAX.
    replace ((-2147483648 <=? loop_var s + 5) && (loop_var s + 5 <=? 2147483647))
      with true; [reflexivity|].
    symmetry. apply andb_true_iff. split; apply Z.leb_le; lia. }
  destruct (progress_percent_defined (downloaded_data_len s + len) (ota_img_data_len s))
    as (p & Hp & _); [lia | exact Ht |].
  unfold http_on_data. hal_simpl. rewrite Hadd. hal_simpl. rewrite Hp. hal_simpl.
  destruct (p =? loop_var s); hal_simpl; [|eexists; reflexivity].
  destruct (loop_var s =? 100); hal_simpl; rewrite Hadd5; hal_simpl;
    eexists; reflexivity.
Qed.

Lemma deliver_on_data_defined lens :
  forall s,
    Forall (fun l => 0 <= l) lens ->
    0 <= downloaded_data_len s ->
    downloaded_data_len s + fold_right Z.add 0 lens <= ota_img_data_len s ->
    0 < ota_img_data_len s <= INT_MAX ->
    cursor_ok (loop_var s) ->
    exists s', deliver _http_event_handler (map on_data lens) s = Some s'.
Proof.
  induction lens as [|len lens IH]; intros s Hpos Hd Hsum Ht Hc; simpl.
  - eauto.
  - inversion Hpos as [|? ? Hlen Hrest]; subst. simpl in Hsum.
    assert (Hsum0 : 0 <= fold_right Z.add 0 lens).
    { clear -Hrest. induction Hrest; simpl; lia. }
    destruct (http_on_data_defined len s Hlen Hd ltac:(lia) Ht Hc) as [s1 E].
    change (_http_event_handler (on_data len) s) with (http_on_data len s).
    rewrite E. simpl.
    pose proof (http_event_handler_cursor_ok (on_data len) s s1 E Hc) as Hc1.
    apply http_on_data_inv in E as (d & p & Hadd & _ & Hd1 & _ & Ht1 & _).
    apply int_add_Some in Hadd as [-> _].
    apply IH; [exact Hrest | lia | lia | rewrite Ht1; exact Ht | exact Hc1].
Qed.

(** A size discovery that delivers [total] bytes in one piece. *)
Lemma ota_download_entry_total total r1 s :
  0 < total <= INT_MAX ->
  exists s2,
    ota_download_entry (transfer [total] r1) s = Some s2 /\
    ota_img_data_len s2 = total /\
    downloaded_data_len s2 = 0 /\
    loop_var s2 = loop_var s.
Proof.
  intros Ht.
  assert (Hadd : int_add 0 total = Some total).
  { unfold int_add, in_int_range, INT_MIN, INT_MAX in *. rewrite Z.add_0_l.
    replace ((-2147483648 <=? total) && (total <=? 2147483647)) with true; [reflexivity|].
    symmetry. apply andb_true_iff. split; apply Z.leb_le; lia. }
  unfold ota_download_entry, ota_size_discovery, transfer.
  cbn [events result map deliver]. unfold _test_event_handler.
  cbn [event_id on_data evt_data_len]. unfold ota_reset_counters. hal_simpl.
  rewrite Hadd. hal_simpl. eexists. split; [reflexivity|].
  destruct (decide (r1 = ESP_OK)); hal_simpl; auto.
Qed.

(** [bytebeam_hal_ota] returns, with the code of [esp_https_ota], when the
    size discovery finds a total that the download does not pass. *)
Lemma bytebeam_hal_ota_defined total lens r1 r2 s :
  0 < total <= INT_MAX ->
  Forall (fun l => 0 <= l) lens ->
  fold_right Z.add 0 lens <= total ->
  cursor_ok (loop_var s) ->
  exists s', bytebeam_hal_ota (transfer [total] r1) (transfer lens r2) s = Some (r2, s').
Proof.
  intros Ht Hpos Hsum Hc.
  destruct (ota_download_entry_total total r1 s Ht) as (s2 & E2 & Htot & Hd & Hl).
  destruct (deliver_on_data_defined lens s2 Hpos) as [s' E];
    [lia | lia | lia | rewrite Hl; exact Hc |].
  exists s'. unfold bytebeam_hal_ota. rewrite E2. hal_simpl.
  change (events (transfer lens r2)) with (map on_data lens). rewrite E. reflexivity.
Qed.

End OtaFacts.

(** ** [bytebeam_hal_init] *)

Section InitFacts.

(** [bytebeam_hal_init] sends no status message. *)
Lemma bytebeam_hal_init_published junk s :
  published (snd (bytebeam_hal_init junk s)) = published s.
Proof.
  unfold bytebeam_hal_init. hal_simpl.
  destruct (nvs_get_i32 (nvs s) "update_flag") as [err flag].
  destruct err, flag as [flag|]; try destruct (flag =? 1); hal_simpl;
    try destruct (nvs_get_i32 _ "action_id_val") as [err2 v];
    unfold published; simpl; rewrite ?List.filter_app; simpl;
    rewrite ?app_nil_r; reflexivity.
Qed.

End InitFacts.

(** ** The percentage *)

Section PercentClaims.

(** C5 as stated fails: for 290 bytes of 1000 the quotient 0.29 is not a
    binary32 number, the nearest one lies below it, and the product with
    100.0 is truncated to 28 where the floor of 29000/1000 is 29; and no
    clamp is applied, 200 bytes against a total of 100 give 200. *)
Lemma C5_counterexample :
  progress_percent 290 1000 = Some 28 /\
  percent_by_floor 290 1000 = 29 /\
  progress_percent 290 1000 <> Some (percent_by_floor 290 1000) /\
  progress_percent 200 100 = Some 200 /\
  percent_by_floor 200 100 = 100.
Proof. repeat split; try (vm_compute; reflexivity). vm_compute. discriminate. Qed.

(** C5, as the code has it.  The percentage is the integral part of
    [((float)downloaded/(float)total)*100.0], a binary32 quotient multiplied
    in binary64, and no clamp is applied.  For a download that has not
    passed the total ([0 <= downloaded <= total], [0 < total]) the
    conversion to [int] is defined, the percentage lies in [0,100] and it
    differs from the floor of [downloaded * 100 / total] by at most 1. *)
Theorem C5_percent_within_one_of_floor :
  forall d t,
    0 <= d <= t ->
    0 < t <= INT_MAX ->
    exists p,
      progress_percent d t = Some p /\
      0 <= p <= 100 /\
      d * 100 / t - 1 <= p <= d * 100 / t + 1.
Proof.
  intros d t Hd Ht.
  destruct (progress_percent_defined d t Hd Ht) as (p & Hp & Hrange & Hlo & Hhi).
  exists p. split; [exact Hp|]. split; [exact Hrange|].
  destruct Ht as [Ht0 _].
  pose proof (Z.mul_div_le (d * 100) t Ht0) as Hq1.
  pose proof (Z.mul_succ_div_gt (d * 100) t Ht0) as Hq2.
  split; nia.
Qed.

Lemma C5_witness :
  exists p,
    progress_percent 290 1000 = Some p /\
    0 <= p <= 100 /\
    290 * 100 / 1000 - 1 <= p <= 290 * 100 / 1000 + 1.
Proof.
  apply (C5_percent_within_one_of_floor 290 1000); unfold INT_MAX; lia.
Defined.

(** Both deviations occur: 28 for a floor of 29, and 81 for a floor of 80. *)
Example percent_below_and_above_floor :
  progress_percent 290 1000 = Some 28 /\ 290 * 100 / 1000 = 29 /\
  progress_percent 295505 364821 = Some 81 /\ 295505 * 100 / 364821 = 80.
Proof. repeat split; vm_compute; reflexivity. Qed.

End PercentClaims.

(** ** The progress computation and its divisor *)

Section DivisorClaims.

(** C9.  The data handler divides [downloaded_data_len] by
    [ota_img_data_len] with no test of the divisor: with a divisor of 0 the
    handler has no defined outcome whatever the chunk, so a defined
    outcome implies a divisor that is not 0 (and positive, lengths being
    non-negative).  The case is reachable: when the size discovery delivers
    no data the divisor is still the 0 that [bytebeam_hal_ota] stored, and
    the first data event of the download runs into it. *)
Theorem C9_division_by_total_unguarded :
  (forall len s, ota_img_data_len s = 0 -> http_on_data len s = None) /\
  (forall len s s',
      http_on_data len s = Some s' ->
      ota_img_data_len s <> 0 /\ (0 <= ota_img_data_len s -> 0 < ota_img_data_len s)) /\
  (forall probe download s,
      no_data (events probe) ->
      ~ no_data (events download) ->
      (exists s2, ota_download_entry probe s = Some s2 /\ ota_img_data_len s2 = 0) /\
      bytebeam_hal_ota probe download s = None).
Proof.
  assert (Hzero : forall len s, ota_img_data_len s = 0 -> http_on_data len s = None).
  { intros len s Hz. destruct (http_on_data len s) as [s'|] eqn:E; [|reflexivity].
    apply http_on_data_inv in E as (d & p & _ & Hp & _).
    rewrite Hz, progress_percent_zero_total in Hp. discriminate. }
  split; [exact Hzero|]. split.
  - intros len s s' H.
    assert (ota_img_data_len s <> 0).
    { intros Hz. rewrite (Hzero _ _ Hz) in H. discriminate. }
    split; [assumption | lia].
  - intros probe download s Hp Hd.
    destruct (deliver_test_no_data_total (events probe)
                (emit HttpClientPerform (emit HttpClientInit (ota_reset_counters s))) Hp)
      as [s1 E1].
    pose proof (deliver_test_no_data _ _ _ Hp E1) as Hlen. simpl in Hlen.
    assert (E2 : exists s2, ota_download_entry probe s = Some s2 /\ ota_img_data_len s2 = 0).
    { unfold ota_download_entry, ota_size_discovery. rewrite E1. simpl.
      eexists; split; [reflexivity|].
      destruct (decide (result probe = ESP_OK)); exact Hlen. }
    split; [exact E2|].
    destruct E2 as (s2 & E2 & Hz).
    unfold bytebeam_hal_ota. rewrite E2. simpl.
    rewrite (deliver_http_zero_total _ _ Hz Hd). reflexivity.
Qed.

Lemma C9_witness :
  bytebeam_hal_ota (transfer [] ESP_FAIL) (transfer [5] ESP_OK) (power_on "42" nvs_blank)
  = None.
Proof.
  apply (proj2 (proj2 C9_division_by_total_unguarded)
           (transfer [] ESP_FAIL) (transfer [5] ESP_OK) (power_on "42" nvs_blank)).
  - constructor.
  - intros H. inversion H as [|? ? Hevt _]. apply Hevt. reflexivity.
Defined.

End DivisorClaims.

(** ** The cursor across attempts *)

Section CursorClaims.



(** An attempt that stops short of 30% leaves the cursor at 30; the next attempt
    on the same image sends nothing below 30. *)
Example second_attempt_starts_at_30 :
  exists s1 s2,
    bytebeam_hal_ota image_1000 (transfer (repeat 5 59%nat) ESP_FAIL) (power_on "42" nvs_blank)
      = Some (ESP_FAIL, s1) /\
    map published_percent (published s1) = [0; 5; 10; 15; 20; 25] /\
    loop_var s1 = 30 /\
    bytebeam_hal_ota image_1000 (transfer chunks_of_5 ESP_OK) s1 = Some (ESP_OK, s2) /\
    map published_percent (published s2) =
      [0; 5; 10; 15; 20; 25] ++ [30; 35; 40; 45; 50; 55; 60; 65; 70; 75; 80; 85; 90; 95; 100].
Proof.
  eexists. eexists.
  split; [vm_compute; reflexivity|].
  split; [vm_compute; reflexivity|].
  split; [vm_compute; reflexivity|].
  split; vm_compute; reflexivity.
Qed.

End CursorClaims.

(** ** The size discovery and the download *)

Section ProbeClaims.

(** C3.  The claim: a failed size discovery ends the attempt before the
    download.  The code at a failed size discovery: [esp_https_ota] is
    entered all the same.  After a discovery that fails 400 bytes into the
    1000-byte image the download runs to its end against a total of 400,
    no failure is reported and the function returns [ESP_OK]; after a
    discovery that fails before any byte the first chunk of the download
    divides by 0. *)
Theorem C3_failed_probe_still_downloads :
  (exists s',
      bytebeam_hal_ota failed_probe_400 (transfer chunks_of_5 ESP_OK) (power_on "42" nvs_blank)
        = Some (ESP_OK, s') /\
      In HttpsOta (trace s') /\
      ota_img_data_len s' = 400 /\
      downloaded_data_len s' = 1000 /\
      published s' = []) /\
  (exists s2,
      ota_download_entry failed_probe_empty (power_on "42" nvs_blank) = Some s2 /\
      In HttpsOta (trace s2) /\ ota_img_data_len s2 = 0) /\
  bytebeam_hal_ota failed_probe_empty (transfer chunks_of_5 ESP_OK) (power_on "42" nvs_blank)
    = None.
Proof.
  split; [|split].
  - eexists. split; [vm_compute; reflexivity|].
    split; [vm_compute; tauto|].
    split; [reflexivity|]. split; [reflexivity|]. vm_compute. reflexivity.
  - eexists. split; [vm_compute; reflexivity|]. split; [vm_compute; tauto | reflexivity].
  - vm_compute. reflexivity.
Qed.

End ProbeClaims.

(** ** The messages of a download *)

Section PublishClaims.

Lemma cursor_walk_from_0 n :
  (n <= 21)%nat -> cursor_walk n 0 = firstn n every_5_percent.
Proof.
  intros H. do 22 (destruct n as [|n]; [reflexivity|]). lia.
Qed.

(** What the data handler does when the percentage meets the cursor: the
    event sends one message, which carries the cursor's value ("Complete"
    at 100, "Progress" below), and the cursor moves to the next multiple of
    5, or to 0 after 100.  Over a whole download the messages are the
    successive values of the cursor, one message each and at most one per
    event.  For a total of 1000 delivered in chunks of 5 bytes the values
    0, 5, ..., 95, 100 are each sent once, in order. *)
Lemma publish_when_percent_meets_cursor :
  (forall len s s',
      http_on_data len s = Some s' ->
      update_progress_percent s' = loop_var s ->
      published s' = published s ++ [progress_message (ota_action_id s) (loop_var s)] /\
      loop_var s' = next_cursor (loop_var s)) /\
  (forall evts s s',
      deliver _http_event_handler evts s = Some s' ->
      cursor_ok (loop_var s) ->
      exists n : nat,
        (n <= length evts)%nat /\
        published s' =
          published s ++ map (progress_message (ota_action_id s)) (cursor_walk n (loop_var s)) /\
        loop_var s' = Nat.iter n next_cursor (loop_var s)) /\
  (forall n : nat, (n <= 21)%nat -> cursor_walk n 0 = firstn n every_5_percent) /\
  (forall total lens r1 r2 s,
      0 < total <= INT_MAX ->
      Forall (fun l => 0 <= l) lens ->
      fold_right Z.add 0 lens <= total ->
      cursor_ok (loop_var s) ->
      exists s',
        bytebeam_hal_ota (transfer [total] r1) (transfer lens r2) s = Some (r2, s')) /\
  (forall id n,
      exists s',
        bytebeam_hal_ota image_1000 (transfer chunks_of_5 ESP_OK) (power_on id n)
          = Some (ESP_OK, s') /\
        published s' = map (progress_message id) every_5_percent).
Proof.
  split; [|split; [|split; [|split; [exact bytebeam_hal_ota_defined|]]]].
  - intros len s s' H Hp.
    apply http_on_data_inv in H
      as (d & p & _ & _ & _ & Hp' & _ & _ & _ & _ & [(_ & Hpub & Hl)|(Hne & _ & _)]).
    + split; [exact Hpub | exact Hl].
    + congruence.
  - intros evts s s' H Hc.
    destruct (deliver_http_published _ _ _ H (cursor_ok_not_105 _ Hc))
      as (n & Hn & Hpub & Hl & _).
    exists n. auto.
  - exact cursor_walk_from_0.
  - intros id n. eexists. split; vm_compute; reflexivity.
Qed.

(** C1 does not hold of the code.  The guard of the data handler is
    [update_progress_percent == loop_var]: an event whose percentage is past
    the cursor, and not on it, sends nothing and leaves the cursor where it
    is.  On the claim's own scenario, 1000 bytes in chunks of 137, the
    percentages are 13, 27, ..., 100, the cursor waits at 0 and no message
    is sent, where the claim has 5, 10, ..., 100.  Chunks of 50 bytes, 5
    percent each, send nothing either; chunks of 10 bytes, 1 percent each,
    send 0, 5, ..., 30 and then nothing, because the percentage goes from
    34 to 36.  In each case the download returns [ESP_OK] and "Complete" is
    never sent. *)
Theorem C1_percent_past_cursor_is_not_reported :
  (forall len s s',
      http_on_data len s = Some s' ->
      loop_var s < update_progress_percent s' ->
      published s' = published s /\
      (loop_var s <> 105 -> loop_var s' = loop_var s)) /\
  map (fun d => progress_percent d 1000) [137; 274; 411; 548; 685; 822; 959; 1000]
    = map Some [13; 27; 41; 54; 68; 82; 95; 100] /\
  (exists s',
      bytebeam_hal_ota image_1000 (transfer chunks_of_137 ESP_OK) (power_on "42" nvs_blank)
        = Some (ESP_OK, s') /\
      published s' = [] /\
      map published_percent (published s') <> steps_5_to_100 /\
      loop_var s' = 0) /\
  (exists s',
      bytebeam_hal_ota image_1000 (transfer (repeat 50 20%nat) ESP_OK)
        (power_on "42" nvs_blank) = Some (ESP_OK, s') /\
      published s' = [] /\
      loop_var s' = 0) /\
  (progress_percent 340 1000 = Some 34 /\
   progress_percent 350 1000 = Some 34 /\
   progress_percent 360 1000 = Some 36) /\
  (exists s',
      bytebeam_hal_ota image_1000 (transfer (repeat 10 100%nat) ESP_OK)
        (power_on "42" nvs_blank) = Some (ESP_OK, s') /\
      map published_percent (published s') = [0; 5; 10; 15; 20; 25; 30] /\
      loop_var s' = 35).
Proof.
  split.
  { intros len s s' H Hlt.
    apply http_on_data_inv in H
      as (d & p & _ & _ & _ & Hp' & _ & _ & _ & _ & [(Heq & _)|(_ & Hpub & Hl)]).
    - lia.
    - split; [exact Hpub|]. intros Hc. rewrite Hl.
      destruct (loop_var s =? 105) eqn:E; [|reflexivity].
      apply Z.eqb_eq in E. contradiction. }
  split; [vm_compute; reflexivity|].
  split.
  { eexists. split; [vm_compute; reflexivity|].
    split; [reflexivity|]. split; [discriminate | reflexivity]. }
  split.
  { eexists. split; [vm_compute; reflexivity|]. split; reflexivity. }
  split; [repeat split; vm_compute; reflexivity|].
  eexists. split; [vm_compute; reflexivity|]. split; reflexivity.
Qed.

(** C4, as the code has it.  When the percentage is 100 and the cursor is
    100 the data handler itself sends the status "Complete" with "Success"
    and 100 for the OTA action, in the middle of [esp_https_ota] and so
    before any restart; [bytebeam_hal_init], the code that runs after the
    restart, sends no status message. *)
Theorem C4_complete_sent_by_data_handler :
  (forall len s s',
      http_on_data len s = Some s' ->
      update_progress_percent s' = 100 ->
      loop_var s = 100 ->
      published s' =
        published s ++ [PublishActionStatus (ota_action_id s) 100 "Complete" "Success"]) /\
  (forall junk s, published (snd (bytebeam_hal_init junk s)) = published s).
Proof.
  split; [|exact bytebeam_hal_init_published].
  intros len s s' H Hp Hc.
  apply http_on_data_inv in H
    as (d & p & _ & _ & _ & Hp' & _ & _ & _ & _ & [(_ & Hpub & _)|(Hne & _ & _)]).
  - rewrite Hpub. unfold progress_message. rewrite Hc. reflexivity.
  - congruence.
Qed.

Lemma C4_witness :
  option_map published (http_on_data 5 (downloading 995 100))
    = Some [PublishActionStatus "42" 100 "Complete" "Success"].
Proof.
  destruct (http_on_data 5 (downloading 995 100)) as [s'|] eqn:E;
    [|vm_compute in E; discriminate].
  simpl. f_equal.
  apply (proj1 C4_complete_sent_by_data_handler 5 (downloading 995 100) s' E);
    [|reflexivity].
  vm_compute in E. injection E as <-. reflexivity.
Defined.

(** C4 as stated fails: a download that reaches 100% ends, inside
    [bytebeam_hal_ota], with the "Complete" message for the OTA action. *)
Lemma C4_counterexample :
  exists s',
    bytebeam_hal_ota image_1000 (transfer chunks_of_5 ESP_OK) (power_on "42" nvs_blank)
      = Some (ESP_OK, s') /\
    last (published s') = Some (PublishActionStatus "42" 100 "Complete" "Success").
Proof.
  eexists. split; vm_compute; reflexivity.
Qed.

End PublishClaims.

(** ** The record of a pending update, read at boot *)

Section BootClaims.




(** The restart that follows finds the record cleared: the second run of
    [bytebeam_hal_init] logs a normal reboot and flags nothing. *)
Example second_boot_is_a_normal_reboot :
  let first := snd (bytebeam_hal_init 0 (power_on "" nvs_pending_42)) in
  let second := snd (bytebeam_hal_init 0 (power_on "" (nvs_after_restart (nvs first)))) in
  ota_update_completed second = 0 /\
  published second = [] /\
  In (EspLog ESP_LOG_INFO "Normal reboot") (trace second).
Proof. vm_compute. tauto. Qed.

(** C8.  When NVS answers [ESP_ERR_NVS_NOT_FOUND] for ["update_flag"],
    [bytebeam_hal_init] logs "Device contains factory Firmware" at the
    information level, logs no error, sends no status message, changes
    neither NVS nor the variables of the module, and returns 0. *)
Theorem C8_missing_record_is_not_a_failure :
  forall junk s,
    nvs_get_i32 (nvs s) "update_flag" = (ESP_ERR_NVS_NOT_FOUND, None) ->
    let r := bytebeam_hal_init junk s in
    fst r = 0 /\
    trace (snd r) =
      trace s ++
      [EspLog ESP_LOG_INFO "[APP] Free memory: %d bytes";
       MqttClientInit; MqttClientRegisterEvent; MqttClientStart;
       NvsOpen "test_storage";
       NvsGetI32 "update_flag" ESP_ERR_NVS_NOT_FOUND;
       EspLog ESP_LOG_INFO "Device contains factory Firmware\n";
       NvsClose] /\
    published (snd r) = published s /\
    List.filter is_error_log (trace (snd r)) = List.filter is_error_log (trace s) /\
    nvs (snd r) = nvs s /\
    ota_update_completed (snd r) = ota_update_completed s /\
    ota_action_id_str (snd r) = ota_action_id_str s /\
    loop_var (snd r) = loop_var s.
Proof.
  intros junk s H r. subst r. unfold bytebeam_hal_init. hal_simpl.
  rewrite H. hal_simpl.
  destruct (decide (ESP_ERR_NVS_NOT_FOUND = ESP_ERR_NVS_NOT_FOUND)) as [_|?];
    [|congruence].
  cbn [fst snd]. hal_simpl.
  split; [reflexivity|].
  assert (Ht : forall (l : list effect) a b c d e f g h,
             (((((((l ++ [a]) ++ [b]) ++ [c]) ++ [d]) ++ [e]) ++ [f]) ++ [g]) ++ [h]
             = l ++ [a; b; c; d; e; f; g; h]).
  { intros. rewrite <- !app_assoc. reflexivity. }
  split; [apply Ht|].
  unfold published. hal_simpl. rewrite !Ht, !List.filter_app. simpl.
  rewrite !app_nil_r. repeat split; reflexivity.
Qed.

Lemma C8_witness :
  bytebeam_hal_init 0 (power_on "" nvs_blank)
  = (0, {| downloaded_data_len := 0; ota_img_data_len := 0;
           update_progress_percent := 0; loop_var := 0; connection_status := 0;
           ota_update_completed := 0; ota_action_id_str := ""; ota_action_id := "";
           nvs := nvs_blank;
           trace := [EspLog ESP_LOG_INFO "[APP] Free memory: %d bytes";
                     MqttClientInit; MqttClientRegisterEvent; MqttClientStart;
                     NvsOpen "test_storage";
                     NvsGetI32 "update_flag" ESP_ERR_NVS_NOT_FOUND;
                     EspLog ESP_LOG_INFO "Device contains factory Firmware\n";
                     NvsClose] |}) /\
  fst (bytebeam_hal_init 0 (power_on "" nvs_blank)) = 0 /\
  published (snd (bytebeam_hal_init 0 (power_on "" nvs_blank))) = [].
Proof.
  split; [vm_compute; reflexivity|].
  destruct (C8_missing_record_is_not_a_failure 0 (power_on "" nvs_blank))
    as (Hr & _ & Hp & _); [reflexivity|].
  split; [exact Hr | exact Hp].
Defined.

End BootClaims.

(** ** The action table *)

Section RegistryFacts.
  Import Registry.
  Context {handler : Type}.
  Implicit Types (tbl : action_funcs_t handler) (n : string) (h : handler).
  Implicit Types (e : bytebeam_action_functions_map_t handler).

Lemma scan_None p tbl :
  scan p tbl = None <-> (forall e, e ∈ tbl -> p e = false).
Proof.
  induction tbl as [|e tbl IH]; simpl.
  - split; [intros _ e He; inversion He | reflexivity].
  - destruct (p e) eqn:E.
    + split; [discriminate|]. intros H. specialize (H e (list_elem_of_here _ _)). congruence.
    + destruct (scan p tbl) as [i|]; simpl.
      * split; [discriminate|]. intros H.
        assert (Hn : Some i = None); [|discriminate].
        apply IH. intros e' He'. apply H. now apply list_elem_of_further.
      * split; [|reflexivity]. intros _ e' He'.
        apply elem_of_cons in He' as [->|He']; [exact E|].
        now apply (proj1 IH).
Qed.

Lemma scan_Some p tbl i :
  scan p tbl = Some i ->
  (exists e, tbl !! i = Some e /\ p e = true) /\
  (forall j e, (j < i)%nat -> tbl !! j = Some e -> p e = false).
Proof.
  revert i. induction tbl as [|e tbl IH]; intros i; simpl; [discriminate|].
  destruct (p e) eqn:E.
  - intros [= <-]. split; [eauto|]. intros j e' Hj. lia.
  - destruct (scan p tbl) as [k|]; simpl; [|discriminate].
    intros [= <-]. destruct (IH k eq_refl) as [Hk Hlt]. split; [exact Hk|].
    intros [|j] e' Hj; simpl.
    + intros [= <-]. exact E.
    + apply Hlt. lia.
Qed.

Lemma occupied_le_length tbl : (occupied tbl <= length tbl)%nat.
Proof. unfold occupied. apply List.filter_length_le. Qed.

Lemma add_length n h tbl : length (snd (add n h tbl)) = length tbl.
Proof.
  unfold add. destruct (scan is_empty tbl); [|reflexivity].
  destruct (scan (has_name n) tbl); [reflexivity|]. simpl. apply length_insert.
Qed.

Lemma add_all_length reqs : forall tbl, length (snd (add_all reqs tbl)) = length tbl.
Proof.
  induction reqs as [|[n h] reqs IH]; intros tbl; simpl; [reflexivity|].
  pose proof (add_length n h tbl) as Hl.
  destruct (add n h tbl) as [r tbl1]. simpl in Hl.
  specialize (IH tbl1). destruct (add_all reqs tbl1) as [rs tbl2]. simpl in *. lia.
Qed.

Lemma is_empty_false e : is_empty e = false <-> name e <> None.
Proof. unfold is_empty. destruct (name e); split; congruence. Qed.

Lemma has_name_false n e : has_name n e = false <-> name e <> Some n.
Proof.
  unfold has_name. destruct (name e) as [m|]; [|split; congruence].
  rewrite bool_decide_eq_false. split; congruence.
Qed.

(** The three cases of [add]. *)
Lemma add_full n h tbl :
  (forall e, e ∈ tbl -> name e <> None) -> add n h tbl = (Failure RegistryFull, tbl).
Proof.
  intros H. unfold add.
  replace (scan is_empty tbl) with (@None nat); [reflexivity|].
  symmetry. apply scan_None. intros e He. apply is_empty_false. now apply H.
Qed.

Lemma add_duplicate n h tbl :
  (exists e, e ∈ tbl /\ name e = None) ->
  (exists e, e ∈ tbl /\ name e = Some n) ->
  add n h tbl = (Failure DuplicateAction, tbl).
Proof.
  intros (e1 & He1 & Hn1) (e2 & He2 & Hn2). unfold add.
  destruct (scan is_empty tbl) as [i|] eqn:Ei.
  - destruct (scan (has_name n) tbl) as [k|] eqn:Ek; [reflexivity|].
    pose proof (proj1 (scan_None _ _) Ek e2 He2) as Hf.
    apply has_name_false in Hf. contradiction.
  - pose proof (proj1 (scan_None _ _) Ei e1 He1) as Hf.
    apply is_empty_false in Hf. contradiction.
Qed.

Lemma add_first_fit n h tbl :
  (exists e, e ∈ tbl /\ name e = None) ->
  (forall e, e ∈ tbl -> name e <> Some n) ->
  exists i,
    (exists e, tbl !! i = Some e /\ name e = None) /\
    (forall j e, (j < i)%nat -> tbl !! j = Some e -> name e <> None) /\
    add n h tbl = (Success, <[i := binding (n, h)]> tbl).
Proof.
  intros (e1 & He1 & Hn1) Hfree. unfold add.
  destruct (scan is_empty tbl) as [i|] eqn:Ei.
  - replace (scan (has_name n) tbl) with (@None nat).
    + exists i. destruct (scan_Some _ _ _ Ei) as [(e & He & Hp) Hlt].
      split; [exists e; split; [exact He|]|split; [|reflexivity]].
      * unfold is_empty in Hp. destruct (name e); [discriminate | reflexivity].
      * intros j e' Hj He'. apply is_empty_false. eapply Hlt; eauto.
    + symmetry. apply scan_None. intros e He. apply has_name_false. now apply Hfree.
  - pose proof (proj1 (scan_None _ _) Ei e1 He1) as Hf.
    apply is_empty_false in Hf. contradiction.
Qed.

(** Filling a table whose first slots hold [done] and whose other [k]
    slots are empty. *)
Lemma scan_is_empty_prefix (done : list (string * handler)) k :
  scan is_empty (map binding done ++ replicate (S k) empty_slot) = Some (length done).
Proof.
  induction done as [|r done IH]; simpl in *; [reflexivity|]. rewrite IH. reflexivity.
Qed.

Lemma scan_is_empty_full (done : list (string * handler)) :
  scan is_empty (map binding done) = None.
Proof.
  induction done as [|r done IH]; simpl; [reflexivity|]. rewrite IH. reflexivity.
Qed.

Lemma scan_has_name_fresh n (done : list (string * handler)) k :
  n ∉ map fst done ->
  scan (has_name n) (map binding done ++ replicate k empty_slot) = None.
Proof.
  intros Hn. apply scan_None. intros e He.
  apply elem_of_app in He as [He|He].
  - apply list_elem_of_fmap in He as (r & -> & Hr). unfold has_name, binding. simpl.
    apply bool_decide_eq_false. intros E. apply Hn.
    apply list_elem_of_fmap. exists r. split; [symmetry; exact E | exact Hr].
  - apply elem_of_replicate in He as [-> _]. reflexivity.
Qed.

Lemma add_all_fills reqs :
  forall (done : list (string * handler)) k,
    NoDup (map fst (done ++ reqs)) ->
    (length reqs <= k)%nat ->
    add_all reqs (map binding done ++ replicate k empty_slot) =
      (replicate (length reqs) Success,
       map binding (done ++ reqs) ++ replicate (k - length reqs) empty_slot).
Proof.
  induction reqs as [|[n h] reqs IH]; intros done k Hnd Hk; simpl.
  - rewrite app_nil_r, Nat.sub_0_r. reflexivity.
  - destruct k as [|k]; [simpl in Hk; lia|].
    unfold add. rewrite scan_is_empty_prefix.
    rewrite scan_has_name_fresh.
    2:{ rewrite map_app in Hnd. apply NoDup_app in Hnd as (_ & Hd & _).
        intros Hin. apply (Hd n Hin). simpl. apply list_elem_of_here. }
    replace (<[length done := {| name := Some n; func := Some h |}]>
               (map binding done ++ replicate (S k) empty_slot))
      with (map binding (done ++ [(n, h)]) ++ replicate k empty_slot).
    2:{ rewrite map_app, <- app_assoc. simpl.
        rewrite insert_app_r_alt by (rewrite length_map; lia).
        rewrite length_map, Nat.sub_diag. reflexivity. }
    rewrite IH.
    + rewrite <- app_assoc. reflexivity.
    + rewrite <- app_assoc. exact Hnd.
    + simpl in Hk. lia.
Qed.

Lemma add_all_snoc reqs :
  forall (extra : string * handler) tbl rs full r full',
    add_all reqs tbl = (rs, full) ->
    add (fst extra) (snd extra) full = (r, full') ->
    add_all (reqs ++ [extra]) tbl = (rs ++ [r], full').
Proof.
  induction reqs as [|[n h] reqs IH]; intros [n' h'] tbl rs full r full'; simpl.
  - intros [= <- <-] ->. reflexivity.
  - destruct (add n h tbl) as [r1 tbl1].
    destruct (add_all reqs tbl1) as [rs1 tbl2] eqn:E1.
    intros [= <- <-] Hx. rewrite (IH (n', h') _ _ _ _ _ E1 Hx). reflexivity.
Qed.

(** C6.  On a table of [BYTEBEAM_NUMBER_OF_ACTIONS] = 10 slots: [add]
    fails with [RegistryFull] when no slot is empty; with an empty slot
    left it fails with [DuplicateAction] when the name is in some slot, and
    otherwise succeeds, writing the binding into the first empty slot in
    scan order.  Whatever [add]s are made, at most 10 slots are occupied.
    After ten [add]s of distinct names on the empty table all ten slots
    are occupied, and an eleventh [add] with yet another name fails with
    [RegistryFull] and returns the table as it was. *)
Theorem C6_add_contract :
  (forall n h tbl,
      length tbl = BYTEBEAM_NUMBER_OF_ACTIONS ->
      ((forall e, e ∈ tbl -> name e <> None) ->
       add n h tbl = (Failure RegistryFull, tbl)) /\
      ((exists e, e ∈ tbl /\ name e = None) ->
       (exists e, e ∈ tbl /\ name e = Some n) ->
       add n h tbl = (Failure DuplicateAction, tbl)) /\
      ((exists e, e ∈ tbl /\ name e = None) ->
       (forall e, e ∈ tbl -> name e <> Some n) ->
       exists i,
         (exists e, tbl !! i = Some e /\ name e = None) /\
         (forall j e, (j < i)%nat -> tbl !! j = Some e -> name e <> None) /\
         add n h tbl = (Success, <[i := binding (n, h)]> tbl))) /\
  (forall reqs tbl,
      length tbl = BYTEBEAM_NUMBER_OF_ACTIONS ->
      (occupied (snd (add_all reqs tbl)) <= BYTEBEAM_NUMBER_OF_ACTIONS)%nat) /\
  (forall (reqs : list (string * handler)) (extra : string * handler),
      NoDup (map fst (reqs ++ [extra])) ->
      length reqs = BYTEBEAM_NUMBER_OF_ACTIONS ->
      exists full,
        add_all reqs fresh = (replicate BYTEBEAM_NUMBER_OF_ACTIONS Success, full) /\
        occupied full = BYTEBEAM_NUMBER_OF_ACTIONS /\
        add (fst extra) (snd extra) full = (Failure RegistryFull, full) /\
        add_all (reqs ++ [extra]) fresh =
          (replicate BYTEBEAM_NUMBER_OF_ACTIONS Success ++ [Failure RegistryFull], full)).
Proof.
  split; [|split].
  - intros n h tbl _. split; [apply add_full|]. split; [apply add_duplicate|].
    apply add_first_fit.
  - intros reqs tbl Hl. rewrite <- Hl, <- (add_all_length reqs tbl).
    apply occupied_le_length.
  - intros reqs extra Hnd Hl.
    assert (Hfill : add_all reqs fresh
                    = (replicate BYTEBEAM_NUMBER_OF_ACTIONS Success, map binding reqs)).
    { pose proof (add_all_fills reqs [] BYTEBEAM_NUMBER_OF_ACTIONS) as H.
      change (map binding [] ++ replicate BYTEBEAM_NUMBER_OF_ACTIONS empty_slot)
        with (@fresh handler) in H.
      rewrite H.
      - rewrite Hl, Nat.sub_diag. simpl. rewrite app_nil_r. reflexivity.
      - rewrite map_app in Hnd. apply NoDup_app in Hnd as (Hnd & _). exact Hnd.
      - lia. }
    assert (Hfull : add (fst extra) (snd extra) (map binding reqs)
                    = (Failure RegistryFull, map binding reqs)).
    { unfold add. rewrite scan_is_empty_full. reflexivity. }
    exists (map binding reqs). split; [exact Hfill|]. split; [|split; [exact Hfull|]].
    + rewrite <- Hl. clear. unfold occupied.
      induction reqs as [|r reqs IH]; simpl; [reflexivity|]. now rewrite IH.
    + exact (add_all_snoc _ _ _ _ _ _ _ Hfill Hfull).
Qed.

(** C7.  An [add], [update] or [remove] that returns an error returns the
    table it was given; [update] and [remove] of a name that is in no slot
    are such calls, with [ActionNotFound]. *)
Theorem C7_failed_operation_keeps_table :
  (forall (op : registry_op handler) tbl err,
      fst (run_op op tbl) = Failure err -> snd (run_op op tbl) = tbl) /\
  (forall n h tbl,
      (forall e, e ∈ tbl -> name e <> Some n) ->
      update n h tbl = (Failure ActionNotFound, tbl) /\
      remove n tbl = (Failure ActionNotFound, tbl)).
Proof.
  split.
  - intros [n h|n h|n] tbl err; simpl; unfold add, update, remove.
    + destruct (scan is_empty tbl); [|reflexivity].
      destruct (scan (has_name n) tbl); [reflexivity | discriminate].
    + destruct (scan (has_name n) tbl); [discriminate | reflexivity].
    + destruct (scan (has_name n) tbl); [discriminate | reflexivity].
  - intros n h tbl Hn.
    assert (E : scan (has_name n) tbl = None).
    { apply scan_None. intros e He. apply has_name_false. now apply Hn. }
    unfold update, remove. rewrite E. split; reflexivity.
Qed.

End RegistryFacts.

Section RegistryWitnesses.
  Import Registry.

Lemma C6_witness :
  add_all (ten_actions ++ [("a10", 10%nat)]) fresh =
    (replicate 10 Success ++ [Failure RegistryFull], map binding ten_actions).
Proof.
  destruct (proj2 (proj2 C6_add_contract) ten_actions ("a10", 10%nat))
    as (full & Hfill & _ & _ & Hall).
  - apply (bool_decide_unpack _). vm_compute. exact I.
  - reflexivity.
  - rewrite Hall. f_equal. vm_compute in Hfill. injection Hfill as <-. reflexivity.
Defined.

Lemma C7_witness :
  snd (run_op (OpRemove "ota") (map binding ten_actions)) = map binding ten_actions.
Proof.
  apply (proj1 C7_failed_operation_keeps_table (OpRemove "ota") (map binding ten_actions)
           ActionNotFound).
  vm_compute. reflexivity.
Defined.

End RegistryWitnesses.

(** ** Whole runs of [bytebeam_hal_ota] *)

Import OtaRuns.

Section OtaRunFacts.

Lemma data_total_cons evt evts :
  data_total (evt :: evts)
  = (if is_data evt then evt_data_len evt else 0) + data_total evts.
Proof.
  unfold data_total, data_lens. simpl. destruct (is_data evt); reflexivity.
Qed.

Lemma is_data_spec evt : is_data evt = true <-> event_id evt = HTTP_EVENT_ON_DATA.
Proof. unfold is_data. destruct (event_id evt); split; congruence. Qed.

(** The size discovery adds the length of every piece of body to
    [ota_img_data_len]. *)
Lemma deliver_test_total evts :
  forall s s',
    deliver _test_event_handler evts s = Some s' ->
    ota_img_data_len s' = ota_img_data_len s + data_total evts.
Proof.
  induction evts as [|evt evts IH]; intros s s' H; simpl in H.
  - injection H as <-. unfold data_total. simpl. lia.
  - destruct (_test_event_handler evt s) as [s1|] eqn:E; [|discriminate].
    simpl in H. rewrite (IH _ _ H), data_total_cons. clear -E.
    unfold _test_event_handler, is_data in *.
    destruct (event_id evt); try (injection E as <-; hal_simpl; lia).
    destruct (int_add _ _) as [t|] eqn:Ht; [|discriminate].
    apply int_add_Some in Ht as [-> _]. injection E as <-. hal_simpl. lia.
Qed.

(** What a data event of the download leaves alone, beyond what
    [http_on_data_inv] lists. *)
Lemma http_on_data_frame len s s' :
  http_on_data len s = Some s' ->
  connection_status s' = connection_status s /\
  ota_action_id_str s' = ota_action_id_str s.
Proof.
  unfold http_on_data. intros H.
  destruct (int_add _ _) as [d|]; [|discriminate]. hal_simpl.
  destruct (progress_percent _ _) as [p|]; [|discriminate]. hal_simpl.
  destruct (p =? loop_var s); hal_simpl.
  - destruct (loop_var s =? 100); hal_simpl;
      (destruct (int_add (loop_var s) 5) as [l|]; [|discriminate]); hal_simpl;
      destruct (l =? 105); injection H as <-; hal_simpl; auto.
  - destruct (loop_var s =? 105); injection H as <-; hal_simpl; auto.
Qed.

(** The download adds the length of every piece of body to
    [downloaded_data_len] and leaves the total, NVS and the boot variables
    as they are. *)
Lemma deliver_http_downloaded evts :
  forall s s',
    deliver _http_event_handler evts s = Some s' ->
    downloaded_data_len s' = downloaded_data_len s + data_total evts /\
    ota_img_data_len s' = ota_img_data_len s /\
    nvs s' = nvs s /\
    ota_update_completed s' = ota_update_completed s /\
    ota_action_id_str s' = ota_action_id_str s /\
    connection_status s' = connection_status s /\
    ota_action_id s' = ota_action_id s.
Proof.
  induction evts as [|evt evts IH]; intros s s' H; simpl in H.
  - injection H as <-. unfold data_total. simpl. repeat split; lia.
  - destruct (_http_event_handler evt s) as [s1|] eqn:E; [|discriminate].
    simpl in H. destruct (IH _ _ H) as (H1 & H2 & H3 & H4 & H5 & H6 & H7).
    rewrite H1, H2, H3, H4, H5, H6, H7, data_total_cons. clear -E.
    apply http_event_handler_inv in E as [[Hd E]|[Hne (lv & fmt & ->)]].
    + apply is_data_spec in Hd. rewrite Hd.
      destruct (http_on_data_frame _ _ _ E) as (Hc & Hs).
      apply http_on_data_inv in E as (d & p & Hadd & _ & Hd1 & _ & Ht & Hid & Hu & Hn & _).
      apply int_add_Some in Hadd as [-> _].
      repeat split; try assumption; lia.
    + destruct (is_data evt) eqn:Hd; [apply is_data_spec in Hd; contradiction|].
      hal_simpl. repeat split; lia.
Qed.

(** The same for the size discovery. *)
Lemma deliver_test_boot_frame evts :
  forall s s',
    deliver _test_event_handler evts s = Some s' ->
    nvs s' = nvs s /\
    ota_update_completed s' = ota_update_completed s /\
    ota_action_id_str s' = ota_action_id_str s /\
    connection_status s' = connection_status s.
Proof.
  induction evts as [|evt evts IH]; intros s s' H; simpl in H.
  - injection H as <-. auto.
  - destruct (_test_event_handler evt s) as [s1|] eqn:E; [|discriminate].
    simpl in H. destruct (IH _ _ H) as (H1 & H2 & H3 & H4).
    rewrite H1, H2, H3, H4. clear -E.
    unfold _test_event_handler in E.
    destruct (event_id evt); try (injection E as <-; hal_simpl; auto).
    destruct (int_add _ _) as [t|]; [|discriminate]. injection E as <-. auto.
Qed.

Lemma ota_download_entry_boot_frame probe s s2 :
  ota_download_entry probe s = Some s2 ->
  ota_img_data_len s2 = data_total (events probe) /\
  nvs s2 = nvs s /\
  ota_update_completed s2 = ota_update_completed s /\
  ota_action_id_str s2 = ota_action_id_str s /\
  connection_status s2 = connection_status s.
Proof.
  unfold ota_download_entry, ota_size_discovery. intros H.
  destruct (deliver _test_event_handler _ _) as [s1|] eqn:E; [|discriminate].
  pose proof (deliver_test_total _ _ _ E) as Ht.
  apply deliver_test_boot_frame in E as (H1 & H2 & H3 & H4).
  injection H as <-.
  destruct (decide (result probe = ESP_OK)); hal_simpl;
    unfold ota_reset_counters in *; hal_simpl; repeat split; try assumption; lia.
Qed.

(** *** States that differ in the log only *)

Lemma observable_fields s t :
  observable s = observable t ->
  downloaded_data_len s = downloaded_data_len t /\
  ota_img_data_len s = ota_img_data_len t /\
  update_progress_percent s = update_progress_percent t /\
  loop_var s = loop_var t /\
  connection_status s = connection_status t /\
  ota_update_completed s = ota_update_completed t /\
  ota_action_id_str s = ota_action_id_str t /\
  ota_action_id s = ota_action_id t /\
  nvs s = nvs t /\
  published s = published t.
Proof.
  unfold observable, hal_vars. intros [= -> -> -> -> -> -> -> -> -> ->].
  repeat split.
Qed.

Lemma observable_intro s t :
  downloaded_data_len s = downloaded_data_len t ->
  ota_img_data_len s = ota_img_data_len t ->
  update_progress_percent s = update_progress_percent t ->
  loop_var s = loop_var t ->
  connection_status s = connection_status t ->
  ota_update_completed s = ota_update_completed t ->
  ota_action_id_str s = ota_action_id_str t ->
  ota_action_id s = ota_action_id t ->
  nvs s = nvs t ->
  published s = published t ->
  observable s = observable t.
Proof.
  unfold observable, hal_vars. intros -> -> -> -> -> -> -> -> -> ->. reflexivity.
Qed.

Lemma observable_emit e s t :
  observable s = observable t -> observable (emit e s) = observable (emit e t).
Proof.
  intros H. apply observable_fields in H as (H1&H2&H3&H4&H5&H6&H7&H8&H9&H10).
  apply observable_intro; hal_simpl; try assumption.
  rewrite !published_emit. now rewrite H10.
Qed.

Lemma observable_log lv fmt s : observable (emit (EspLog lv fmt) s) = observable s.
Proof.
  apply observable_intro; hal_simpl; try reflexivity.
  rewrite published_emit. simpl. apply app_nil_r.
Qed.

Lemma http_on_data_observable len s t :
  observable s = observable t ->
  option_map observable (http_on_data len s) = option_map observable (http_on_data len t).
Proof.
  intros H. apply observable_fields in H as (H1&H2&H3&H4&H5&H6&H7&H8&H9&H10).
  unfold published in H10.
  destruct s, t. hal_simpl. subst.
  unfold http_on_data. hal_simpl.
  destruct (int_add _ _) as [d|]; [|reflexivity]. hal_simpl.
  destruct (progress_percent _ _) as [p|]; [|reflexivity]. hal_simpl.
  destruct (p =? _); hal_simpl; [destruct (_ =? 100); hal_simpl;
      (destruct (int_add _ 5) as [l|]; [|reflexivity]); hal_simpl|];
    destruct (_ =? 105); simpl; f_equal;
    unfold observable, hal_vars, published; hal_simpl;
    rewrite !List.filter_app; simpl; rewrite ?app_nil_r; congruence.
Qed.

(** [_http_event_handler] does not read the log, and ignores, up to the log,
    every event that is not a piece of body. *)
Lemma http_event_handler_observable evt s t :
  observable s = observable t ->
  option_map observable (_http_event_handler evt s)
  = option_map observable (_http_event_handler evt t).
Proof.
  intros H. unfold _http_event_handler.
  destruct (event_id evt); simpl; rewrite ?observable_log; try (now f_equal).
  now apply http_on_data_observable.
Qed.

Lemma http_event_handler_skip evt s :
  is_data evt = false ->
  exists s', _http_event_handler evt s = Some s' /\ observable s' = observable s.
Proof.
  unfold is_data, _http_event_handler.
  destruct (event_id evt); intros H; try discriminate;
    eexists; (split; [reflexivity | apply observable_log]).
Qed.

(** The same for [_test_event_handler]. *)
Lemma test_event_handler_observable evt s t :
  observable s = observable t ->
  option_map observable (_test_event_handler evt s)
  = option_map observable (_test_event_handler evt t).
Proof.
  intros H. unfold _test_event_handler.
  destruct (event_id evt); simpl; rewrite ?observable_log; try (now f_equal).
  apply observable_fields in H as (H1&H2&H3&H4&H5&H6&H7&H8&H9&H10).
  rewrite <- H2. destruct (int_add _ _) as [t'|]; [|reflexivity]. simpl. f_equal.
  apply observable_intro; hal_simpl; try assumption; reflexivity.
Qed.

Lemma test_event_handler_skip evt s :
  is_data evt = false ->
  exists s', _test_event_handler evt s = Some s' /\ observable s' = observable s.
Proof.
  unfold is_data, _test_event_handler.
  destruct (event_id evt); intros H; try discriminate;
    eexists; (split; [reflexivity | (apply observable_log || reflexivity)]).
Qed.

End OtaRunFacts.

(** A handler that does not read the log and ignores what is not a piece of
    body sees of a transfer only its pieces of body. *)
Section DeliverObservable.
  Variable handler : esp_http_client_event_t -> hal_state -> option hal_state.
  Hypothesis handler_observable :
    forall evt s t,
      observable s = observable t ->
      option_map observable (handler evt s) = option_map observable (handler evt t).
  Hypothesis handler_skip :
    forall evt s,
      is_data evt = false ->
      exists s', handler evt s = Some s' /\ observable s' = observable s.

Lemma deliver_skip evts :
  forall s t,
    List.filter is_data evts = [] ->
    observable s = observable t ->
    option_map observable (deliver handler evts s) = Some (observable t).
Proof.
  induction evts as [|e evts IH]; intros s t Hf Ho; simpl.
  - now f_equal.
  - simpl in Hf. destruct (is_data e) eqn:Hd; [discriminate|].
    destruct (handler_skip e s Hd) as (s1 & -> & H1). simpl.
    apply IH; [exact Hf | congruence].
Qed.

Lemma deliver_observable evts1 :
  forall evts2 s t,
    List.filter is_data evts1 = List.filter is_data evts2 ->
    observable s = observable t ->
    option_map observable (deliver handler evts1 s)
    = option_map observable (deliver handler evts2 t).
Proof.
  induction evts1 as [|e1 evts1 IH]; intros evts2 s t Hf Ho.
  - simpl in Hf. simpl. symmetry. apply deliver_skip; [now symmetry | now symmetry].
  - simpl in Hf. destruct (is_data e1) eqn:Hd.
    + revert t Ho. induction evts2 as [|e2 evts2 IH2]; intros t Ho; [discriminate|].
      simpl in Hf. destruct (is_data e2) eqn:Hd2.
      * injection Hf as -> Hf. cbn [deliver].
        pose proof (handler_observable e2 s t Ho) as H1.
        destruct (handler e2 s) as [s1|], (handler e2 t) as [t1|];
          try discriminate; simpl; [|reflexivity].
        apply (inj Some) in H1. now apply IH.
      * cbn [deliver].
        destruct (handler_skip e2 t Hd2) as (t1 & -> & H1). simpl.
        apply IH2; [exact Hf | congruence].
    + cbn [deliver].
      destruct (handler_skip e1 s Hd) as (s1 & -> & H1). simpl.
      apply IH; [exact Hf | congruence].
Qed.

End DeliverObservable.

Section OtaRunTheorems.

Lemma filter_is_data evts : List.filter is_data evts = map on_data (data_lens evts).
Proof.
  unfold data_lens. induction evts as [|e evts IH]; [reflexivity|].
  simpl. destruct (is_data e) eqn:Hd; [|exact IH].
  simpl. rewrite <- IH. f_equal.
  apply is_data_spec in Hd. destruct e. simpl in *. now subst.
Qed.

Lemma observable_reset s t :
  observable s = observable t ->
  observable (ota_reset_counters s) = observable (ota_reset_counters t).
Proof.
  intros H. apply observable_fields in H as (H1&H2&H3&H4&H5&H6&H7&H8&H9&H10).
  apply observable_intro; unfold ota_reset_counters; hal_simpl; try assumption; reflexivity.
Qed.

Lemma ota_download_entry_observable probe1 probe2 s t :
  data_lens (events probe1) = data_lens (events probe2) ->
  observable s = observable t ->
  option_map observable (ota_download_entry probe1 s)
  = option_map observable (ota_download_entry probe2 t).
Proof.
  intros Hl Ho. unfold ota_download_entry, ota_size_discovery.
  pose proof (deliver_observable _ test_event_handler_observable test_event_handler_skip
                (events probe1) (events probe2)
                (emit HttpClientPerform (emit HttpClientInit (ota_reset_counters s)))
                (emit HttpClientPerform (emit HttpClientInit (ota_reset_counters t)))) as H.
  rewrite !filter_is_data, Hl in H. specialize (H eq_refl).
  specialize (H (observable_emit _ _ _ (observable_emit _ _ _ (observable_reset _ _ Ho)))).
  destruct (deliver _test_event_handler (events probe1) _) as [s1|],
           (deliver _test_event_handler (events probe2) _) as [t1|];
    try discriminate; [|reflexivity].
  apply (inj Some) in H. simpl. f_equal.
  repeat apply observable_emit.
  destruct (decide (result probe1 = ESP_OK)), (decide (result probe2 = ESP_OK));
    rewrite ?observable_log; exact H.
Qed.

Lemma cursor_walk_app n m c :
  cursor_walk (n + m) c = cursor_walk n c ++ cursor_walk m (Nat.iter n next_cursor c).
Proof.
  revert c. induction n as [|n IH]; intros c; [reflexivity|].
  simpl. f_equal. rewrite IH. f_equal. f_equal.
  clear. induction n as [|n IH]; [reflexivity|]. simpl. now rewrite IH.
Qed.

Lemma cursor_walk_ok n : forall c, cursor_ok c -> Forall cursor_ok (cursor_walk n c).
Proof.
  induction n as [|n IH]; intros c Hc; simpl; constructor; [exact Hc|].
  apply IH. now apply cursor_ok_next.
Qed.

Lemma iter_next_cursor_ok n c : cursor_ok c -> cursor_ok (Nat.iter n next_cursor c).
Proof. intros Hc. induction n as [|n IH]; [exact Hc|]. simpl. now apply cursor_ok_next. Qed.

(** One call: the messages sent are a stretch of the walk of the cursor. *)
Lemma bytebeam_hal_ota_published probe download s r s' :
  bytebeam_hal_ota probe download s = Some (r, s') ->
  cursor_ok (loop_var s) ->
  exists n : nat,
    (n <= length (events download))%nat /\
    published s' =
      published s ++ map (progress_message (ota_action_id s)) (cursor_walk n (loop_var s)) /\
    loop_var s' = Nat.iter n next_cursor (loop_var s) /\
    ota_action_id s' = ota_action_id s.
Proof.
  intros H Hc. apply bytebeam_hal_ota_inv in H as (s2 & H2 & Hd & _).
  apply ota_download_entry_inv in H2 as (s1 & _ & _ & Hl & _ & _ & Hid & Hpub & _).
  apply deliver_http_published in Hd as (n & Hn & Hp & Hl' & Hid');
    [|rewrite Hl; now apply cursor_ok_not_105].
  exists n. rewrite Hp, Hl', Hid', Hpub, Hl, Hid. auto.
Qed.

(** X1.  [bytebeam_hal_ota] returns what [esp_https_ota] returns, with
    [ota_img_data_len] the number of body bytes the first request delivered
    and [downloaded_data_len] the number the second delivered, whatever the
    three variables held before and whatever either request reported. *)
Theorem ota_counts_the_body probe download s r s' :
  bytebeam_hal_ota probe download s = Some (r, s') ->
  r = result download /\
  ota_img_data_len s' = data_total (events probe) /\
  downloaded_data_len s' = data_total (events download).
Proof.
  intros H. apply bytebeam_hal_ota_inv in H as (s2 & H2 & Hd & ->).
  split; [reflexivity|].
  pose proof (ota_download_entry_boot_frame _ _ _ H2) as (Ht & _).
  apply ota_download_entry_inv in H2 as (s1 & _ & _ & _ & Hz & _).
  apply deliver_http_downloaded in Hd as (Hd & Ht' & _).
  rewrite Ht', Hd, Hz, Ht. split; [reflexivity | lia].
Qed.

Lemma ota_counts_the_body_witness :
  option_map (fun rs => (fst rs, ota_img_data_len (snd rs), downloaded_data_len (snd rs)))
    (bytebeam_hal_ota failed_probe_400 (transfer [137; 137] ESP_FAIL)
       (downloading 999 30))
  = Some (ESP_FAIL, 400, 274).
Proof.
  destruct (bytebeam_hal_ota _ _ _) as [[r s']|] eqn:E; [|vm_compute in E; discriminate].
  destruct (ota_counts_the_body _ _ _ _ _ E) as (-> & Ht & Hd).
  simpl. rewrite Ht, Hd. reflexivity.
Defined.

(** X2.  [bytebeam_hal_ota] writes nothing to NVS and leaves
    [ota_update_completed], [ota_action_id_str] and [connection_status] as
    they were: recording that an update is pending is not done here. *)
Theorem ota_leaves_the_boot_record r probe download s s' :
  bytebeam_hal_ota probe download s = Some (r, s') ->
  nvs s' = nvs s /\
  ota_update_completed s' = ota_update_completed s /\
  ota_action_id_str s' = ota_action_id_str s /\
  connection_status s' = connection_status s /\
  ota_action_id s' = ota_action_id s.
Proof.
  intros H. apply bytebeam_hal_ota_inv in H as (s2 & H2 & Hd & _).
  pose proof (ota_download_entry_boot_frame _ _ _ H2) as (_ & Hn & Hu & Hs & Hc).
  apply ota_download_entry_inv in H2 as (s1 & _ & _ & Hl & _ & _ & Hid & _).
  apply deliver_http_downloaded in Hd as (_ & _ & Hn' & Hu' & Hs' & Hc' & Hid').
  rewrite Hn', Hu', Hs', Hc', Hid'. auto.
Qed.

Lemma ota_leaves_the_boot_record_witness :
  option_map (fun rs => (nvs (snd rs), ota_update_completed (snd rs),
                         connection_status (snd rs)))
    (bytebeam_hal_ota image_1000 (transfer chunks_of_137 ESP_OK) (downloading 0 0))
  = Some (nvs_blank, 0, 1).
Proof.
  destruct (bytebeam_hal_ota _ _ _) as [[r s']|] eqn:E; [|vm_compute in E; discriminate].
  destruct (ota_leaves_the_boot_record _ _ _ _ _ E) as (Hn & Hu & _ & Hc & _).
  simpl. rewrite Hn, Hu, Hc. reflexivity.
Defined.

End OtaRunTheorems.

Section OtaOutcomeTheorems.

(** X3.  What [bytebeam_hal_ota] returns, the variables it leaves and the
    status messages it sends depend on the two requests only through the
    lengths of the pieces of body they deliver and the code the download
    returns: the code of the first request, and every event of either
    request that is not [HTTP_EVENT_ON_DATA] (errors and disconnects
    included), change the log and nothing else. *)
Theorem ota_outcome_depends_on_body_only probe1 probe2 download1 download2 s :
  data_lens (events probe1) = data_lens (events probe2) ->
  data_lens (events download1) = data_lens (events download2) ->
  result download1 = result download2 ->
  ota_outcome (bytebeam_hal_ota probe1 download1 s)
  = ota_outcome (bytebeam_hal_ota probe2 download2 s).
Proof.
  intros Hp Hd Hr. unfold bytebeam_hal_ota.
  pose proof (ota_download_entry_observable probe1 probe2 s s Hp eq_refl) as He.
  destruct (ota_download_entry probe1 s) as [s1|],
           (ota_download_entry probe2 s) as [t1|]; try discriminate; [|reflexivity].
  apply (inj Some) in He. simpl.
  pose proof (deliver_observable _ http_event_handler_observable http_event_handler_skip
                (events download1) (events download2) s1 t1) as H.
  rewrite !filter_is_data, Hd in H. specialize (H eq_refl He).
  destruct (deliver _http_event_handler (events download1) s1) as [s2|],
           (deliver _http_event_handler (events download2) t1) as [t2|];
    try discriminate; [|reflexivity].
  apply (inj Some) in H. unfold ota_outcome. simpl. now rewrite H, Hr.
Qed.

Lemma ota_outcome_depends_on_body_only_witness :
  ota_outcome (bytebeam_hal_ota failed_probe_400
                 {| events := [on_data 200;
                               {| event_id := HTTP_EVENT_DISCONNECTED; evt_data_len := 0 |}];
                    result := ESP_FAIL |}
                 (power_on "42" nvs_blank))
  = ota_outcome (bytebeam_hal_ota (transfer [400] ESP_OK) (transfer [200] ESP_FAIL)
                   (power_on "42" nvs_blank)).
Proof.
  apply ota_outcome_depends_on_body_only; reflexivity.
Defined.

(** X4.  Over any number of calls of [bytebeam_hal_ota] the status messages
    sent form one walk of the cursor: starting from the value [loop_var] had
    before the first call they carry 0, 5, ..., 100, 0, 5, ... in this order,
    without a gap or a repetition and whatever the sizes of the images, all
    under the same action id and with the error text "Success", the one at
    100 with the status "Complete" and the others with "Progress"; there
    are no more messages than the downloads deliver events. *)
Theorem attempts_publish_one_walk attempts :
  forall s s',
    run_attempts attempts s = Some s' ->
    cursor_ok (loop_var s) ->
    exists n : nat,
      (n <= length (flat_map (fun a => events (snd a)) attempts))%nat /\
      published s' =
        published s ++ map (progress_message (ota_action_id s)) (cursor_walk n (loop_var s)) /\
      Forall cursor_ok (cursor_walk n (loop_var s)) /\
      loop_var s' = Nat.iter n next_cursor (loop_var s) /\
      cursor_ok (loop_var s').
Proof.
  induction attempts as [|[probe download] attempts IH]; intros s s' H Hc; simpl in H.
  - injection H as <-. exists 0%nat. simpl. rewrite app_nil_r. auto.
  - destruct (bytebeam_hal_ota probe download s) as [[r s1]|] eqn:E; [|discriminate].
    simpl in H.
    destruct (bytebeam_hal_ota_published _ _ _ _ _ E Hc) as (n & Hn & Hp & Hl & Hid).
    assert (Hc1 : cursor_ok (loop_var s1)) by (rewrite Hl; now apply iter_next_cursor_ok).
    destruct (IH _ _ H Hc1) as (m & Hm & Hp' & _ & Hl' & Hc').
    exists (n + m)%nat. simpl. rewrite length_app.
    split; [lia|]. split; [|split; [now apply cursor_walk_ok|split; [|exact Hc']]].
    + rewrite Hp', Hp, Hid, Hl, cursor_walk_app, map_app, <- app_assoc. reflexivity.
    + rewrite Hl', Hl. clear. induction n as [|n IH]; [reflexivity|].
      simpl. rewrite <- IH. clear. induction m as [|m IH]; [reflexivity|].
      simpl. now rewrite IH.
Qed.

Lemma attempts_publish_one_walk_witness :
  exists s',
    run_attempts [(image_1000, transfer (repeat 5 59%nat) ESP_FAIL);
                  (failed_probe_400, transfer [137; 137] ESP_OK)]
      (power_on "42" nvs_blank) = Some s' /\
    cursor_ok (loop_var s').
Proof.
  destruct (run_attempts _ _) as [s'|] eqn:E; [|vm_compute in E; discriminate].
  exists s'. split; [reflexivity|].
  destruct (attempts_publish_one_walk _ _ _ E) as (n & _ & _ & _ & _ & Hc); [|exact Hc].
  simpl. split; [lia | reflexivity].
Defined.

End OtaOutcomeTheorems.

(** ** [sprintf] with ["%d"] and the buffer [ota_action_id_str] *)


Section SprintfFacts.

Lemma to_int_not_nil v : Z.to_int v <> Decimal.Pos Decimal.Nil /\ Z.to_int v <> Decimal.Neg Decimal.Nil.
Proof.
  destruct v as [|p|p]; simpl; split; try discriminate; intros [= H];
    exact (DecimalPos.Unsigned.to_uint_nonnil p H).
Qed.

(** The text printed for [v] reads back as [v]. *)
Lemma sprintf_d_reads_back v :
  option_map Z.of_int (NilZero.int_of_string (sprintf_d v)) = Some v.
Proof.
  unfold sprintf_d. destruct (to_int_not_nil v) as [H1 H2].
  rewrite (NilZero.isi _ H1 H2). simpl. now rewrite DecimalZ.of_to.
Qed.

Lemma sprintf_d_inj v w : sprintf_d v = sprintf_d w -> v = w.
Proof.
  intros H. pose proof (sprintf_d_reads_back v) as Hv.
  rewrite H, sprintf_d_reads_back in Hv. congruence.
Qed.

Lemma string_of_uint_length d :
  String.length (NilEmpty.string_of_uint d) = Decimal.nb_digits d.
Proof. induction d; simpl; congruence. Qed.

Lemma usize_nb_digits d : DecimalPos.Unsigned.usize d = N.of_nat (Decimal.nb_digits d).
Proof.
  induction d; cbn [DecimalPos.Unsigned.usize Decimal.nb_digits];
    rewrite ?IHd, ?Nat2N.inj_succ; reflexivity.
Qed.

(** A numeral that starts with a digit other than 0 is at least the power
    of ten of its length less one. *)
Lemma of_uint_lower d :
  Decimal.nzhead d = d -> d <> Decimal.Nil ->
  (10 ^ N.of_nat (Decimal.nb_digits d - 1) <= Pos.of_uint d)%N.
Proof.
  intros Hn Hd.
  destruct d as [|l|l|l|l|l|l|l|l|l|l]; [congruence | | | | | | | | | |];
    try (cbn [Pos.of_uint Decimal.nb_digits];
         rewrite DecimalPos.Unsigned.of_uint_acc_rev, usize_nb_digits;
         replace (S (Decimal.nb_digits l) - 1)%nat with (Decimal.nb_digits l) by lia;
         nia).
  exfalso. simpl in Hn.
  pose proof (DecimalFacts.nb_digits_nzhead l) as H. rewrite Hn in H. simpl in H. lia.
Qed.

Lemma to_uint_nzhead p : Decimal.nzhead (Pos.to_uint p) = Pos.to_uint p.
Proof.
  pose proof (DecimalPos.Unsigned.to_of (Pos.to_uint p)) as H.
  rewrite DecimalPos.Unsigned.of_to in H. simpl in H.
  pose proof (DecimalPos.Unsigned.to_uint_nonzero p) as Hz.
  unfold Decimal.unorm in H.
  destruct (Decimal.nzhead (Pos.to_uint p)); congruence.
Qed.

Lemma to_uint_digits p :
  (N.pos p < 10 ^ 10)%N -> (Decimal.nb_digits (Pos.to_uint p) <= 10)%nat.
Proof.
  intros Hp.
  pose proof (of_uint_lower _ (to_uint_nzhead p) (DecimalPos.Unsigned.to_uint_nonnil p)) as H.
  rewrite DecimalPos.Unsigned.of_to in H.
  destruct (le_lt_dec (Decimal.nb_digits (Pos.to_uint p)) 10) as [|Hgt]; [assumption|].
  exfalso.
  assert (H10 : (10 ^ 10 <= 10 ^ N.of_nat (Decimal.nb_digits (Pos.to_uint p) - 1))%N)
    by (apply N.pow_le_mono_r; lia).
  lia.
Qed.

Lemma string_of_to_uint_length p :
  String.length (NilZero.string_of_uint (Pos.to_uint p)) = Decimal.nb_digits (Pos.to_uint p).
Proof.
  pose proof (DecimalPos.Unsigned.to_uint_nonnil p) as H.
  unfold NilZero.string_of_uint.
  destruct (Pos.to_uint p) eqn:E; try congruence;
    rewrite <- string_of_uint_length; reflexivity.
Qed.

(** The text of an [int] has at most 11 characters, a sign and ten
    digits. *)
Lemma sprintf_d_length v :
  INT_MIN <= v <= INT_MAX -> (String.length (sprintf_d v) <= 11)%nat.
Proof.
  intros Hv. unfold INT_MIN, INT_MAX in Hv. unfold sprintf_d.
  destruct v as [|p|p]; cbn [Z.to_int NilZero.string_of_int String.length].
  - simpl. lia.
  - rewrite string_of_to_uint_length.
    assert (Decimal.nb_digits (Pos.to_uint p) <= 10)%nat by (apply to_uint_digits; lia).
    lia.
  - rewrite string_of_to_uint_length.
    assert (Decimal.nb_digits (Pos.to_uint p) <= 10)%nat by (apply to_uint_digits; lia).
    lia.
Qed.

End SprintfFacts.

(** ** [bytebeam_hal_init] over restarts *)

Section InitTheorems.

Lemma observable_quiet e s : is_publish e = false -> observable (emit e s) = observable s.
Proof.
  intros H. apply observable_intro; hal_simpl; try reflexivity.
  rewrite published_emit, H. apply app_nil_r.
Qed.

Lemma error_log_emit e s :
  List.filter is_error_log (trace (emit e s))
  = List.filter is_error_log (trace s) ++ (if is_error_log e then [e] else []).
Proof. hal_simpl. rewrite List.filter_app. simpl. destruct (is_error_log e); reflexivity. Qed.

(** What [bytebeam_hal_init] does when it finds [update_flag] at 1. *)
Lemma bytebeam_hal_init_flagged junk s :
  nvs_usable (nvs s) = true ->
  nvs_written (nvs s) !! "update_flag" = Some 1 ->
  let s' := snd (bytebeam_hal_init junk s) in
  nvs s' = nvs_commit (nvs_set_i32 (nvs s) "update_flag" 0) /\
  ota_update_completed s' = 1 /\
  ota_action_id_str s' =
    sprintf_d (match nvs_written (nvs s) !! "action_id_val" with
               | Some a => a
               | None => junk
               end) /\
  ota_action_id s' = ota_action_id s /\
  In (NvsGetI32 "action_id_val"
        (match nvs_written (nvs s) !! "action_id_val" with
         | Some _ => ESP_OK
         | None => ESP_ERR_NVS_NOT_FOUND
         end)) (trace s').
Proof.
  intros Hu Hf s'. subst s'. unfold bytebeam_hal_init. hal_simpl.
  replace (nvs_get_i32 (nvs s) "update_flag") with (ESP_OK, Some 1)
    by (unfold nvs_get_i32; rewrite Hu, Hf; reflexivity).
  change (1 =? 1) with true. hal_simpl.
  destruct (decide (ESP_OK = ESP_ERR_NVS_NOT_FOUND)) as [?|_]; [discriminate|].
  assert (Hget : nvs_get_i32 (nvs_commit (nvs_set_i32 (nvs s) "update_flag" 0)) "action_id_val"
                 = match nvs_written (nvs s) !! "action_id_val" with
                   | Some a => (ESP_OK, Some a)
                   | None => (ESP_ERR_NVS_NOT_FOUND, None)
                   end).
  { unfold nvs_commit, nvs_set_i32, nvs_get_i32. rewrite Hu.
    cbn [nvs_usable nvs_written nvs_flash].
    rewrite lookup_insert_ne by discriminate. reflexivity. }
  rewrite Hget.
  destruct (nvs_written (nvs s) !! "action_id_val") as [a|]; cbn [fst snd]; hal_simpl;
    (repeat (split; [reflexivity|]));
    apply in_or_app; left; apply in_or_app; right; left; reflexivity.
Qed.

(** X6.  Unless NVS answers [ESP_OK] with the value 1 for ["update_flag"],
    [bytebeam_hal_init] changes no variable of the module and nothing in
    NVS, sends no status message, logs no error and returns 0: a stored
    flag other than 1 and a failure of NVS, [ESP_ERR_NVS_NOT_FOUND] or not,
    are all taken for a boot without a finished update. *)
Theorem init_without_flag_changes_nothing junk s :
  nvs_get_i32 (nvs s) "update_flag" <> (ESP_OK, Some 1) ->
  fst (bytebeam_hal_init junk s) = 0 /\
  observable (snd (bytebeam_hal_init junk s)) = observable s /\
  List.filter is_error_log (trace (snd (bytebeam_hal_init junk s)))
  = List.filter is_error_log (trace s).
Proof.
  intros H. unfold bytebeam_hal_init.
  destruct (nvs_get_i32 _ "update_flag") as [err flag] eqn:E.
  assert (Hflag : forall f, err = ESP_OK -> flag = Some f -> (f =? 1) = false).
  { intros f -> ->. apply Z.eqb_neq. intros ->. now apply H. }
  clear H E.
  destruct err, flag as [f|]; try (rewrite (Hflag f eq_refl eq_refl));
    destruct (decide (_ = ESP_ERR_NVS_NOT_FOUND)) as [?|?]; try discriminate; try congruence;
    cbn [fst snd]; (split; [reflexivity|]);
    rewrite ?observable_quiet by reflexivity;
    rewrite ?error_log_emit; simpl; rewrite ?app_nil_r; split; reflexivity.
Qed.

Lemma init_without_flag_changes_nothing_witness :
  observable (snd (bytebeam_hal_init 7
                     (power_on "42" {| nvs_usable := false;
                                       nvs_written := {[ "update_flag" := 1 ]};
                                       nvs_flash := {[ "update_flag" := 1 ]} |})))
  = observable (power_on "42" {| nvs_usable := false;
                                 nvs_written := {[ "update_flag" := 1 ]};
                                 nvs_flash := {[ "update_flag" := 1 ]} |}).
Proof.
  apply init_without_flag_changes_nothing. vm_compute. discriminate.
Defined.

Lemma bytebeam_hal_init_with_nvs junk s :
  bytebeam_hal_init_with nvs_set_i32 nvs_commit junk s = bytebeam_hal_init junk s.
Proof. reflexivity. Qed.

(** What [bytebeam_hal_init] does on a partition that holds neither 1 nor
    nothing for the flag, whatever its two writing calls would do. *)
Lemma bytebeam_hal_init_with_unflagged set_i32 commit junk s f :
  nvs_get_i32 (nvs s) "update_flag" = (ESP_OK, Some f) ->
  f <> 1 ->
  snd (bytebeam_hal_init_with set_i32 commit junk s)
  = emit NvsClose
      (emit (EspLog ESP_LOG_INFO "Normal reboot")
         (emit (NvsGetI32 "update_flag" ESP_OK)
            (emit (NvsOpen "test_storage")
               (emit MqttClientStart
                  (emit MqttClientRegisterEvent
                     (emit MqttClientInit
                        (emit (EspLog ESP_LOG_INFO "[APP] Free memory: %d bytes") s))))))).
Proof.
  intros Hget Hf. unfold bytebeam_hal_init_with. hal_simpl. rewrite Hget. hal_simpl.
  replace (f =? 1) with false by (symmetry; now apply Z.eqb_neq).
  destruct (decide (ESP_OK = ESP_ERR_NVS_NOT_FOUND)) as [?|_]; [discriminate|].
  reflexivity.
Qed.

Lemma bytebeam_hal_init_with_flagged set_i32 commit junk s :
  nvs_get_i32 (nvs s) "update_flag" = (ESP_OK, Some 1) ->
  ota_update_completed (snd (bytebeam_hal_init_with set_i32 commit junk s)) = 1 /\
  nvs (snd (bytebeam_hal_init_with set_i32 commit junk s))
  = commit (set_i32 (nvs s) "update_flag" 0).
Proof.
  intros Hget. unfold bytebeam_hal_init_with. hal_simpl. rewrite Hget.
  change (1 =? 1) with true. hal_simpl.
  destruct (decide (ESP_OK = ESP_ERR_NVS_NOT_FOUND)) as [?|_]; [discriminate|].
  destruct (nvs_get_i32 (commit (set_i32 (nvs s) "update_flag" 0)) "action_id_val")
    as [err2 v].
  cbn [fst snd]. hal_simpl. split; reflexivity.
Qed.

(** X7.  [bytebeam_hal_init] drops the codes [nvs_set_i32] and [nvs_commit]
    return.  Whatever these two calls do to the partition, the boot that
    finds [update_flag] at 1 sets [ota_update_completed]; and what the boot
    after the next restart does is decided by the flag that is in flash
    then.  If the 0 has reached flash, that boot logs a normal reboot,
    leaves [ota_update_completed] at 0 and [ota_action_id_str] empty and
    writes nothing.  If flash still holds the 1, because the write or the
    commit did not take effect, the finished update is reported again.  The
    report is given to one boot only when both calls take effect. *)
Theorem finished_update_reported_once_iff_cleared set_i32 commit junk1 junk2 s :
  nvs_usable (nvs s) = true ->
  nvs_written (nvs s) !! "update_flag" = Some 1 ->
  let cleared := commit (set_i32 (nvs s) "update_flag" 0) in
  let first := snd (bytebeam_hal_init_with set_i32 commit junk1 s) in
  let second := snd (bytebeam_hal_init_with set_i32 commit junk2 (restart first)) in
  nvs_usable cleared = true ->
  ota_update_completed first = 1 /\
  nvs first = cleared /\
  (nvs_flash cleared !! "update_flag" = Some 1 -> ota_update_completed second = 1) /\
  (nvs_flash cleared !! "update_flag" = Some 0 ->
   ota_update_completed second = 0 /\
   ota_action_id_str second = "" /\
   nvs second = nvs (restart first) /\
   In (EspLog ESP_LOG_INFO "Normal reboot") (trace second)).
Proof.
  intros Hu Hf cleared first second Hcu.
  assert (Hget : nvs_get_i32 (nvs s) "update_flag" = (ESP_OK, Some 1))
    by (unfold nvs_get_i32; rewrite Hu, Hf; reflexivity).
  destruct (bytebeam_hal_init_with_flagged set_i32 commit junk1 s Hget) as [Hc Hn].
  fold first in Hc, Hn. fold cleared in Hn.
  split; [exact Hc|]. split; [exact Hn|].
  assert (Hget2 : forall f,
             nvs_flash cleared !! "update_flag" = Some f ->
             nvs_get_i32 (nvs (restart first)) "update_flag" = (ESP_OK, Some f)).
  { intros f Hfl. unfold restart, power_on, nvs_after_restart, nvs_get_i32.
    cbn [nvs nvs_usable nvs_written]. rewrite Hn, Hcu, Hfl. reflexivity. }
  split.
  - intros Hfl. subst second.
    now destruct (bytebeam_hal_init_with_flagged set_i32 commit junk2 _ (Hget2 1 Hfl)).
  - intros Hfl. subst second.
    rewrite (bytebeam_hal_init_with_unflagged set_i32 commit junk2 _ 0 (Hget2 0 Hfl))
      by discriminate.
    hal_simpl. repeat (split; [reflexivity|]).
    apply in_or_app; left; apply in_or_app; right; left; reflexivity.
Qed.

Lemma finished_update_reported_once_iff_cleared_witness :
  ota_update_completed
    (snd (bytebeam_hal_init_with nvs_set_i32 (fun n => n) 0
            (restart (snd (bytebeam_hal_init_with nvs_set_i32 (fun n => n) 0
                             (power_on "" nvs_pending_42)))))) = 1 /\
  ota_update_completed
    (snd (bytebeam_hal_init_with nvs_set_i32 nvs_commit 0
            (restart (snd (bytebeam_hal_init_with nvs_set_i32 nvs_commit 0
                             (power_on "" nvs_pending_42)))))) = 0.
Proof.
  split.
  - destruct (finished_update_reported_once_iff_cleared nvs_set_i32 (fun n => n) 0 0
                (power_on "" nvs_pending_42))
      as (_ & _ & H & _); [reflexivity | vm_compute; reflexivity | reflexivity |].
    apply H. vm_compute. reflexivity.
  - destruct (finished_update_reported_once_iff_cleared nvs_set_i32 nvs_commit 0 0
                (power_on "" nvs_pending_42))
      as (_ & _ & _ & H); [reflexivity | vm_compute; reflexivity | reflexivity |].
    apply H. vm_compute. reflexivity.
Defined.

(** X8.  [bytebeam_hal_init] does not look at what the second
    [nvs_get_i32] returns.  When [update_flag] is 1 and ["action_id_val"]
    is not stored, [ota_update_completed] is set all the same and
    [ota_action_id_str] is the decimal text of whatever the local
    [ota_action_id_val] held: a different content of that stack slot gives
    a different action id. *)
Theorem missing_action_id_is_not_detected junk s :
  nvs_usable (nvs s) = true ->
  nvs_written (nvs s) !! "update_flag" = Some 1 ->
  nvs_written (nvs s) !! "action_id_val" = None ->
  ota_update_completed (snd (bytebeam_hal_init junk s)) = 1 /\
  ota_action_id_str (snd (bytebeam_hal_init junk s)) = sprintf_d junk /\
  In (NvsGetI32 "action_id_val" ESP_ERR_NVS_NOT_FOUND)
     (trace (snd (bytebeam_hal_init junk s))) /\
  forall junk',
    ota_action_id_str (snd (bytebeam_hal_init junk' s))
    = ota_action_id_str (snd (bytebeam_hal_init junk s)) ->
    junk' = junk.
Proof.
  intros Hu Hf Ha.
  destruct (bytebeam_hal_init_flagged junk s Hu Hf) as (_ & Hc & Hs & _ & Hin).
  rewrite Ha in Hs, Hin. repeat (split; [assumption|]).
  intros junk' H.
  destruct (bytebeam_hal_init_flagged junk' s Hu Hf) as (_ & _ & Hs' & _).
  rewrite Ha in Hs'. rewrite Hs, Hs' in H. now apply sprintf_d_inj.
Qed.

Lemma missing_action_id_is_not_detected_witness :
  ota_update_completed
    (snd (bytebeam_hal_init (-7)
            (power_on "" {| nvs_usable := true;
                            nvs_written := {[ "update_flag" := 1 ]};
                            nvs_flash := {[ "update_flag" := 1 ]} |}))) = 1 /\
  ota_action_id_str
    (snd (bytebeam_hal_init (-7)
            (power_on "" {| nvs_usable := true;
                            nvs_written := {[ "update_flag" := 1 ]};
                            nvs_flash := {[ "update_flag" := 1 ]} |}))) = "-7".
Proof.
  destruct (missing_action_id_is_not_detected (-7)
              (power_on "" {| nvs_usable := true;
                              nvs_written := {[ "update_flag" := 1 ]};
                              nvs_flash := {[ "update_flag" := 1 ]} |}))
    as (H1 & H2 & _); [reflexivity | vm_compute; reflexivity | vm_compute; reflexivity |].
  split; [exact H1 | exact H2].
Defined.

(** X5.  The text [bytebeam_hal_init] prints into [ota_action_id_str] fits
    the buffer.  When the boot finds [update_flag] at 1, what [sprintf]
    writes with ["%d"] is the text of an [int], the stored action id or,
    when none is stored, the content of the local: it has at most 11
    characters, a sign and ten digits, so that with its terminator it
    takes 12 of the 15 bytes at most; and it reads back as the number
    printed. *)
Theorem action_id_text_fits_its_buffer junk s :
  nvs_usable (nvs s) = true ->
  nvs_written (nvs s) !! "update_flag" = Some 1 ->
  INT_MIN <= junk <= INT_MAX ->
  (forall a, nvs_written (nvs s) !! "action_id_val" = Some a -> INT_MIN <= a <= INT_MAX) ->
  let text := ota_action_id_str (snd (bytebeam_hal_init junk s)) in
  (String.length text <= 11)%nat /\
  (String.length text + 1 <= ota_action_id_str_size)%nat /\
  exists v,
    INT_MIN <= v <= INT_MAX /\
    text = sprintf_d v /\
    option_map Z.of_int (NilZero.int_of_string text) = Some v.
Proof.
  intros Hu Hf Hjunk Hstored text.
  destruct (bytebeam_hal_init_flagged junk s Hu Hf) as (_ & _ & Hs & _).
  fold text in Hs.
  set (v := match nvs_written (nvs s) !! "action_id_val" with
            | Some a => a
            | None => junk
            end) in Hs.
  assert (Hv : INT_MIN <= v <= INT_MAX).
  { subst v. destruct (nvs_written (nvs s) !! "action_id_val") as [a|] eqn:Ha;
      [now apply Hstored | exact Hjunk]. }
  pose proof (sprintf_d_length v Hv) as Hlen. rewrite Hs.
  split; [exact Hlen|]. split; [unfold ota_action_id_str_size; lia|].
  exists v. split; [exact Hv|]. split; [reflexivity | apply sprintf_d_reads_back].
Qed.

Lemma action_id_text_fits_its_buffer_witness :
  String.length
    (ota_action_id_str
       (snd (bytebeam_hal_init 0
               (power_on "" {| nvs_usable := true;
                               nvs_written := {[ "update_flag" := 1%Z;
                                                 "action_id_val" := (-2147483648)%Z ]};
                               nvs_flash := ∅ |})))) = 11%nat /\
  (String.length
     (ota_action_id_str
        (snd (bytebeam_hal_init 0
                (power_on "" {| nvs_usable := true;
                                nvs_written := {[ "update_flag" := 1%Z;
                                                  "action_id_val" := (-2147483648)%Z ]};
                                nvs_flash := ∅ |})))) <= 11)%nat.
Proof.
  split; [vm_compute; reflexivity|].
  destruct (action_id_text_fits_its_buffer 0
              (power_on "" {| nvs_usable := true;
                              nvs_written := {[ "update_flag" := 1%Z;
                                                "action_id_val" := (-2147483648)%Z ]};
                              nvs_flash := ∅ |}))
    as (H & _).
  - reflexivity.
  - vm_compute. reflexivity.
  - unfold INT_MIN, INT_MAX. lia.
  - intros a Ha. vm_compute in Ha. injection Ha as <-. unfold INT_MIN, INT_MAX. lia.
  - exact H.
Defined.

End InitTheorems.

(** ** The percentage at the end of a download *)

Section FullDownload.

(** A [float] divided by itself is 1. *)
Lemma float_div_self m e :
  1 <= Zdigits2 (Zpos m) + e <= 32 ->
  float_div (S754_finite false m e) (S754_finite false m e)
  = S754_finite false 8388608 (-23).
Proof.
  intros _. unfold float_div, SFdiv, SFdiv_core_binary, float_prec, float_emax.
  replace (Zdigits2 (Z.pos m) + e - (Zdigits2 (Z.pos m) + e)) with 0 by lia.
  replace (e - e) with 0 by lia.
  change (0 - Z.min (fexp 24 128 0) 0) with 24.
  cbv iota.
  rewrite Z.shiftl_mul_pow2 by lia.
  assert (H : Z.div_eucl (Z.pos m * 2 ^ 24) (Z.pos m) = (2 ^ 24, 0)).
  { pose proof (Z_div_mod (Z.pos m * 2 ^ 24) (Z.pos m) ltac:(lia)) as Hd.
    destruct (Z.div_eucl (Z.pos m * 2 ^ 24) (Z.pos m)) as [q r].
    destruct Hd as [Hq Hr]. change (2 ^ 24) with 16777216 in *.
    assert (q = 16777216) by nia. subst q. f_equal. lia. }
  rewrite H.
  assert (Hl : new_location (Z.pos m) 0 = loc_Exact).
  { unfold new_location, new_location_even, new_location_odd.
    destruct (Z.even (Z.pos m)); reflexivity. }
  rewrite Hl. reflexivity.
Qed.

Lemma progress_percent_full t :
  0 < t <= INT_MAX -> progress_percent t t = Some 100.
Proof.
  intros Ht. destruct (float_of_int_pos t Ht) as (m & e & E & Hdig & _).
  unfold progress_percent. rewrite E, float_div_self by exact Hdig.
  vm_compute. reflexivity.
Qed.

(** X9.  The piece of body that brings [downloaded_data_len] to
    [ota_img_data_len] sets the percentage to 100 exactly, for every size of
    image an [int] can hold: the rounding of the division and of the
    multiplication never leaves it at 99.  "Complete" is then sent if the
    cursor stands at 100, and nothing is sent if it stands elsewhere. *)
Theorem last_piece_reports_100 len s :
  0 < ota_img_data_len s <= INT_MAX ->
  downloaded_data_len s + len = ota_img_data_len s ->
  cursor_ok (loop_var s) ->
  exists s',
    http_on_data len s = Some s' /\
    update_progress_percent s' = 100 /\
    published s' =
      published s ++
      (if loop_var s =? 100
       then [PublishActionStatus (ota_action_id s) 100 "Complete" "Success"]
       else []) /\
    loop_var s' = (if loop_var s =? 100 then 0 else loop_var s).
Proof.
  intros Ht Hsum Hc.
  assert (Hadd : int_add (downloaded_data_len s) len = Some (ota_img_data_len s)).
  { unfold int_add, in_int_range, INT_MIN, INT_MAX in *. rewrite Hsum.
    replace ((-2147483648 <=? ota_img_data_len s) && (ota_img_data_len s <=? 2147483647))
      with true; [reflexivity|].
    symmetry. apply andb_true_iff. split; apply Z.leb_le; lia. }
  assert (E : exists s', http_on_data len s = Some s').
  { unfold http_on_data. hal_simpl. rewrite Hadd. hal_simpl.
    rewrite (progress_percent_full _ Ht). hal_simpl.
    destruct (100 =? loop_var s) eqn:E100; hal_simpl; [|eexists; reflexivity].
    apply Z.eqb_eq in E100. rewrite <- E100. change (100 =? 100) with true.
    hal_simpl. rewrite <- E100. change (int_add 100 5) with (Some 105).
    hal_simpl. eexists; reflexivity. }
  destruct E as [s' E]. exists s'. split; [exact E|].
  apply http_on_data_inv in E
    as (d & p & Hd & Hp & _ & Hp' & _ & _ & _ & _ & Hcase).
  rewrite Hadd in Hd. injection Hd as <-.
  rewrite (progress_percent_full _ Ht) in Hp. injection Hp as <-.
  split; [exact Hp'|].
  destruct Hcase as [(Heq & Hpub & Hl)|(Hne & Hpub & Hl)].
  - rewrite <- Heq in *. simpl in *. split; [exact Hpub | exact Hl].
  - destruct (loop_var s =? 100) eqn:E100; [apply Z.eqb_eq in E100; congruence|].
    rewrite Hpub, app_nil_r. split; [reflexivity|].
    rewrite Hl. destruct (loop_var s =? 105) eqn:E105; [|reflexivity].
    apply Z.eqb_eq in E105. destruct Hc as [Hc _]. lia.
Qed.

Lemma last_piece_reports_100_witness :
  option_map (fun s' => (update_progress_percent s', published s', loop_var s'))
    (http_on_data 41 (downloading 959 100))
  = Some (100, [PublishActionStatus "42" 100 "Complete" "Success"], 0).
Proof.
  destruct (last_piece_reports_100 41 (downloading 959 100))
    as (s' & -> & H1 & H2 & H3);
    [vm_compute; split; [reflexivity | discriminate]
    | reflexivity
    | split; [simpl; lia | reflexivity] |].
  simpl. rewrite H1, H2, H3. reflexivity.
Defined.

End FullDownload.

(** ** Rounding to nearest is monotone *)

Import Rounding.

Section Located.
Local Open Scope R_scope.

Lemma bpow_succ e : bpow (e + 1) = 2 * bpow e.
Proof.
  rewrite bpow_add. replace (bpow 1) with 2 by (unfold bpow; simpl; lra). ring.
Qed.

Lemma Rabs_le_between a b : Rabs a <= b -> - b <= a <= b.
Proof. unfold Rabs. destruct (Rcase_abs a); lra. Qed.

Lemma located_of_loc_range x m l e :
  located x (shr_record_of_loc m l) e ->
  IZR m * bpow e <= x < (IZR m + 1) * bpow e.
Proof.
  pose proof (bpow_pos e) as Hb.
  destruct l as [|[]]; unfold located; simpl; intros H; nra.
Qed.

Lemma located_range x mrs e :
  located x mrs e ->
  IZR (shr_m mrs) * bpow e <= x < (IZR (shr_m mrs) + 1) * bpow e.
Proof.
  pose proof (bpow_pos e) as Hb.
  destruct mrs as [m [] []]; unfold located; simpl; intros H; nra.
Qed.

(** One step of [shr] keeps the place of [x]. *)
Lemma located_shr_1 x mrs e :
  (0 <= shr_m mrs)%Z -> located x mrs e -> located x (shr_1 mrs) (e + 1).
Proof.
  destruct mrs as [m r s]. simpl. intros Hm.
  pose proof (bpow_pos e) as Hb.
  unfold located. rewrite bpow_succ.
  destruct m as [|[p|p|]|p]; try lia; cbn [shr_1 shr_m shr_r shr_s orb];
    rewrite ?(Pos2Z.inj_xI p), ?(Pos2Z.inj_xO p), ?plus_IZR, ?mult_IZR;
    destruct r, s; cbn [orb]; intros H; nra.
Qed.

Lemma shr_1_nonneg mrs : (0 <= shr_m mrs)%Z -> (0 <= shr_m (shr_1 mrs))%Z.
Proof. intros H. rewrite shr_m_shr_1 by exact H. apply Z.div_pos; lia. Qed.

Lemma iter_pos_shr_1_nonneg n :
  forall mrs, (0 <= shr_m mrs)%Z -> (0 <= shr_m (SpecFloat.iter_pos shr_1 n mrs))%Z.
Proof.
  intros mrs H. rewrite shr_m_iter_pos by exact H.
  apply Z.div_pos; [exact H|]. apply Z.pow_pos_nonneg; lia.
Qed.

Lemma located_iter_pos x n :
  forall mrs e,
    (0 <= shr_m mrs)%Z ->
    located x mrs e ->
    located x (SpecFloat.iter_pos shr_1 n mrs) (e + Zpos n).
Proof.
  induction n as [n IH|n IH|]; intros mrs e Hm H; simpl SpecFloat.iter_pos.
  - replace (e + Z.pos n~1)%Z with (e + 1 + Z.pos n + Z.pos n)%Z by lia.
    apply IH; [apply iter_pos_shr_1_nonneg; now apply shr_1_nonneg|].
    apply IH; [now apply shr_1_nonneg|]. now apply located_shr_1.
  - replace (e + Z.pos n~0)%Z with (e + Z.pos n + Z.pos n)%Z by lia.
    apply IH; [now apply iter_pos_shr_1_nonneg|]. now apply IH.
  - now apply located_shr_1.
Qed.

Lemma located_shr_fexp prec emax x m e l :
  (0 <= m)%Z ->
  located x (shr_record_of_loc m l) e ->
  located x (fst (shr_fexp prec emax m e l)) (snd (shr_fexp prec emax m e l)).
Proof.
  intros Hm H. unfold shr_fexp, shr.
  destruct (fexp prec emax (Zdigits2 m + e) - e)%Z as [|p|p]; simpl fst; simpl snd;
    try exact H.
  apply located_iter_pos; [rewrite shr_m_record_of_loc; exact Hm | exact H].
Qed.

(** Rounding a located number to nearest moves it by half a unit at
    most. *)
Lemma round_nearest_even_located x mrs e :
  located x mrs e ->
  Rabs (x - IZR (round_nearest_even (shr_m mrs) (loc_of_shr_record mrs)) * bpow e)
  <= bpow e / 2.
Proof.
  pose proof (bpow_pos e) as Hb.
  destruct mrs as [m [] []]; unfold located; simpl; intros H;
    try destruct (Z.even m); rewrite ?plus_IZR; apply Rabs_le; split; nra.
Qed.

(** The location [SFdiv_core_binary] computes for a remainder. *)
Lemma new_location_located nb k q e :
  (0 < nb)%Z -> (0 <= k < nb)%Z ->
  located ((IZR q + IZR k / IZR nb) * bpow e)
    (shr_record_of_loc q (new_location nb k)) e.
Proof.
  intros Hnb Hk.
  pose proof (bpow_pos e) as Hb.
  assert (HN : 0 < IZR nb) by (apply IZR_lt; exact Hnb).
  assert (Hk0 : 0 <= IZR k) by (apply IZR_le; lia).
  assert (Hfrac : forall c : R, (IZR k / IZR nb) * IZR nb = IZR k)
    by (intros _; field; lra).
  specialize (Hfrac 0).
  set (f := IZR k / IZR nb) in *.
  assert (Hlt : IZR k < IZR nb) by (apply IZR_lt; lia).
  assert (Hf1 : f < 1) by nra.
  unfold new_location.
  destruct (Z.even nb) eqn:Ev; unfold new_location_even, new_location_odd;
    (destruct (k =? 0)%Z eqn:Ek;
     [apply Z.eqb_eq in Ek; subst k;
      assert (f = 0) by nra; unfold located; simpl; nra|]);
    apply Z.eqb_neq in Ek;
    assert (Hkpos : 0 < IZR k) by (apply IZR_lt; lia);
    assert (Hf0 : 0 < f) by (subst f; apply Rdiv_lt_0_compat; lra).
  - destruct (Z.compare_spec (2 * k) nb) as [Hc|Hc|Hc]; unfold located; simpl.
    + apply (f_equal IZR) in Hc. rewrite mult_IZR in Hc.
      assert (f = 1 / 2) by nra. nra.
    + apply IZR_lt in Hc. rewrite mult_IZR in Hc.
      assert (f < 1 / 2) by nra. split; nra.
    + apply IZR_lt in Hc. rewrite mult_IZR in Hc.
      assert (1 / 2 < f) by nra. split; nra.
  - assert (Hodd : (2 * k <> nb)%Z).
    { intros <-. rewrite Z.even_mul in Ev. discriminate. }
    destruct (Z.compare_spec (2 * k + 1) nb) as [Hc|Hc|Hc]; unfold located; simpl.
    + assert (Hc' : (2 * k < nb)%Z) by lia.
      apply IZR_lt in Hc'. rewrite mult_IZR in Hc'.
      assert (f < 1 / 2) by nra. split; nra.
    + assert (Hc' : (2 * k < nb)%Z) by lia.
      apply IZR_lt in Hc'. rewrite mult_IZR in Hc'.
      assert (f < 1 / 2) by nra. split; nra.
    + assert (Hc' : (nb < 2 * k)%Z) by lia.
      apply IZR_lt in Hc'. rewrite mult_IZR in Hc'.
      assert (1 / 2 < f) by nra. split; nra.
Qed.

End Located.

Section RoundNearest.
Local Open Scope Z_scope.

Variables prec emax : Z.
Hypothesis Hprec : (0 < prec)%Z.

(** [binary_round_aux] returns a nearest neighbour of the number it is
    given, in canonical form, when that number has at least [prec] digits
    and is away from underflow and overflow. *)
Lemma binary_round_aux_nearest s m e l (x : R) :
  (0 < m)%Z ->
  (prec <= Zdigits2 m)%Z ->
  (emin prec emax <= Zdigits2 m + e - prec)%Z ->
  (e + (Zdigits2 m - prec) + 1 <= emax - prec)%Z ->
  located x (shr_record_of_loc m l) e ->
  exists m'' e'' M,
    binary_round_aux prec emax s m e l = S754_finite s m'' e'' /\
    Zdigits2 (Zpos m'') = prec /\
    F2R (Zpos m'') e'' = (IZR M * bpow (Zdigits2 m + e - prec))%R /\
    nearest prec x M (Zdigits2 m + e - prec).
Proof.
  intros Hm Hbig Hemin Hover Hloc.
  set (D := Zdigits2 m) in *. set (n := (D - prec)%Z).
  assert (Hn : (0 <= n)%Z) by (subst n; lia).
  replace (D + e - prec)%Z with (e + n)%Z by (subst n; lia).
  assert (Hfexp : (fexp prec emax (Zdigits2 m + e) - e = n)%Z).
  { rewrite fexp_normal by exact Hemin. fold D. subst n. lia. }
  destruct (Zdigits2_bounds m Hm) as (HDpos & Hlo & Hhi). fold D in HDpos, Hlo, Hhi.
  assert (Hpow : (0 < 2 ^ n)%Z) by (apply Z.pow_pos_nonneg; lia).
  assert (HmD1 : (2 ^ n * 2 ^ (prec - 1) = 2 ^ (D - 1))%Z).
  { rewrite <- Z.pow_add_r by lia. f_equal. subst n. lia. }
  assert (HmD : (2 ^ n * 2 ^ prec = 2 ^ D)%Z).
  { rewrite <- Z.pow_add_r by lia. f_equal. subst n. lia. }
  assert (Hm'lo : (2 ^ (prec - 1) <= m / 2 ^ n)%Z).
  { apply Z.div_le_lower_bound; [exact Hpow | lia]. }
  assert (Hm'hi : (m / 2 ^ n < 2 ^ prec)%Z).
  { apply Z.div_lt_upper_bound; [exact Hpow | lia]. }
  assert (Hp1 : (0 < 2 ^ (prec - 1))%Z) by (apply Z.pow_pos_nonneg; lia).
  assert (H2p : (2 ^ prec = 2 * 2 ^ (prec - 1))%Z).
  { replace prec with (Z.succ (prec - 1)) at 1 by lia. apply Z.pow_succ_r. lia. }
  (* the number rounded has [D] digits before the exponent [e] *)
  assert (Hx : (bpow (prec - 1 + (e + n)) <= x < bpow (prec + (e + n)))%R).
  { apply located_of_loc_range in Hloc.
    replace (prec - 1 + (e + n))%Z with (e + (D - 1))%Z by (subst n; lia).
    replace (prec + (e + n))%Z with (e + D)%Z by (subst n; lia).
    rewrite !bpow_shift by lia.
    pose proof (bpow_pos e) as Hb.
    assert (IZR (2 ^ (D - 1)) <= IZR m)%R by (apply IZR_le; lia).
    assert (IZR m + 1 <= IZR (2 ^ D))%R by (rewrite <- plus_IZR; apply IZR_le; lia).
    split; nra. }
  unfold binary_round_aux.
  pose proof (shr_fexp_spec prec emax m e l (Z.lt_le_incl _ _ Hm)) as [H1 H2].
  pose proof (located_shr_fexp prec emax x m e l (Z.lt_le_incl _ _ Hm) Hloc) as Hloc'.
  rewrite Hfexp in H1, H2.
  replace (Z.max 0 n) with n in H1, H2 by lia.
  destruct (shr_fexp prec emax m e l) as [mrs' e']. simpl in H1, H2, Hloc'. subst e'.
  pose proof (round_nearest_even_located x mrs' (e + n) Hloc') as Hnear.
  set (M := round_nearest_even (shr_m mrs') (loc_of_shr_record mrs')) in *.
  assert (HM : (M = m / 2 ^ n \/ M = m / 2 ^ n + 1)%Z).
  { subst M. rewrite <- H1. apply round_nearest_even_cases. }
  assert (HMlo : (2 ^ (prec - 1) <= M)%Z) by lia.
  assert (HMhi : (M <= 2 ^ prec)%Z) by lia.
  assert (HMpos : (0 < M)%Z) by lia.
  assert (Hnearest : nearest prec x M (e + n)).
  { split; [exact Hx|]. split; [lia | exact Hnear]. }
  destruct (Z.eq_dec M (2 ^ prec)) as [Hcarry|Hnocarry].
  - (* the rounding carried into a new digit: one more shift *)
    assert (HdM : Zdigits2 M = (prec + 1)%Z).
    { apply Zdigits2_unique; [exact HMpos|].
      replace (prec + 1 - 1)%Z with prec by lia. split; [lia|].
      rewrite Hcarry. apply Z.pow_lt_mono_r; lia. }
    pose proof (shr_fexp_spec prec emax M (e + n) loc_Exact (Z.lt_le_incl _ _ HMpos))
      as [H3 H4].
    rewrite HdM in H3, H4.
    replace (fexp prec emax (prec + 1 + (e + n))) with (e + n + 1)%Z in H3, H4
      by (unfold fexp; lia).
    replace (Z.max 0 (e + n + 1 - (e + n))) with 1%Z in H3, H4 by lia.
    destruct (shr_fexp prec emax M (e + n) loc_Exact) as [mrs'' e'']. simpl in H3, H4.
    subst e''. rewrite H3, Hcarry, H2p. change (2 ^ 1)%Z with 2%Z.
    rewrite Z.mul_comm, Z.div_mul by lia.
    destruct (2 ^ (prec - 1))%Z as [|q|q] eqn:Eq; try lia.
    replace (e + n + 1 <=? emax - prec)%Z with true
      by (symmetry; apply Z.leb_le; subst n; lia).
    exists q, (e + n + 1)%Z, M.
    split; [reflexivity|].
    split; [apply Zdigits2_unique; [lia | rewrite <- Eq; lia]|].
    split; [|exact Hnearest].
    unfold F2R. rewrite bpow_succ, Hcarry, H2p, mult_IZR. ring.
  - assert (HdM : Zdigits2 M = prec).
    { apply Zdigits2_unique; [exact HMpos | lia]. }
    rewrite shr_fexp_exact_noshift by (rewrite HdM; unfold fexp; lia).
    simpl. destruct M as [|q|q] eqn:EM; try lia.
    replace (e + n <=? emax - prec)%Z with true
      by (symmetry; apply Z.leb_le; subst n; lia).
    exists q, (e + n)%Z, (Z.pos q).
    split; [reflexivity|]. split; [exact HdM|]. split; [reflexivity | exact Hnearest].
Qed.

(** Two numbers in increasing order have nearest neighbours in increasing
    order. *)
Lemma nearest_mono x1 M1 E1 x2 M2 E2 :
  nearest prec x1 M1 E1 -> nearest prec x2 M2 E2 -> (x1 < x2)%R ->
  (IZR M1 * bpow E1 <= IZR M2 * bpow E2)%R.
Proof.
  intros ([Hlo1 Hhi1] & [HM1lo HM1hi] & Hn1) ([Hlo2 Hhi2] & [HM2lo HM2hi] & Hn2) Hlt.
  assert (HE : (E1 <= E2)%Z).
  { destruct (Z.le_gt_cases E1 E2) as [H|H]; [exact H|]. exfalso.
    assert (bpow (prec + E2) <= bpow (prec - 1 + E1))%R by (apply bpow_le; lia). lra. }
  pose proof (bpow_pos E1) as Hb1. pose proof (bpow_pos E2) as Hb2.
  destruct (Z.eq_dec E1 E2) as [->|Hne].
  - (* the same exponent: the mantissas are in order *)
    apply Rabs_le_between in Hn1, Hn2.
    assert (IZR M1 < IZR M2 + 1)%R by nra.
    rewrite <- plus_IZR in H. apply lt_IZR in H.
    assert (IZR M1 <= IZR M2)%R by (apply IZR_le; lia). nra.
  - (* a smaller exponent: a power of two lies between *)
    assert (Hp : (IZR (2 ^ prec) * bpow E1 <= IZR (2 ^ (prec - 1)) * bpow E2)%R).
    { rewrite <- !bpow_IZR by lia. rewrite <- !bpow_add. apply bpow_le. lia. }
    assert (IZR M1 * bpow E1 <= IZR (2 ^ prec) * bpow E1)%R.
    { apply Rmult_le_compat_r; [lra | apply IZR_le; lia]. }
    assert (IZR (2 ^ (prec - 1)) * bpow E2 <= IZR M2 * bpow E2)%R.
    { apply Rmult_le_compat_r; [lra | apply IZR_le; lia]. }
    lra.
Qed.

End RoundNearest.

Section OperationsNearest.
Local Open Scope Z_scope.

(** Two floats in canonical form that stand for the same number are the
    same. *)
Lemma canonical_unique m1 e1 m2 e2 :
  Zdigits2 (Zpos m1) = Zdigits2 (Zpos m2) ->
  F2R (Zpos m1) e1 = F2R (Zpos m2) e2 ->
  m1 = m2 /\ e1 = e2.
Proof.
  assert (Haux : forall ma ea mb eb,
             Zdigits2 (Zpos ma) = Zdigits2 (Zpos mb) ->
             F2R (Zpos ma) ea = F2R (Zpos mb) eb ->
             ea <= eb -> ma = mb /\ ea = eb).
  { intros ma ea mb eb Hd HF Hle.
    unfold F2R in HF. replace eb with (ea + (eb - ea)) in HF by lia.
    rewrite bpow_shift in HF by lia.
    pose proof (bpow_pos ea) as Hb.
    assert (HZ : Zpos ma = Zpos mb * 2 ^ (eb - ea)).
    { apply eq_IZR. rewrite mult_IZR. nra. }
    rewrite HZ, Zdigits2_shift in Hd by lia.
    assert (eb - ea = 0) by lia.
    replace (eb - ea) with 0 in HZ by lia. simpl in HZ.
    split; [lia | lia]. }
  intros Hd HF. destruct (Z.le_ge_cases e1 e2) as [H|H].
  - now apply Haux.
  - destruct (Haux m2 e2 m1 e1) as [-> ->]; auto.
Qed.

(** [(float) z] is a nearest neighbour of [z]. *)
Lemma float_of_int_nearest z :
  0 < z <= INT_MAX ->
  exists m e M E,
    float_of_int z = S754_finite false m e /\
    Zdigits2 (Zpos m) = 24 /\
    F2R (Zpos m) e = (IZR M * bpow E)%R /\
    nearest 24 (IZR z) M E.
Proof.
  intros [Hz Hmax]. destruct z as [|p|p]; try lia.
  destruct (Zdigits2_bounds (Zpos p) Hz) as (HD & Hlo & Hhi).
  assert (HD31 : Zdigits2 (Zpos p) <= 31).
  { apply Zdigits2_le; [lia|]. unfold INT_MAX in Hmax.
    change (2 ^ 31) with 2147483648. lia. }
  unfold float_of_int, binary_normalize, binary_round, float_prec, float_emax.
  change (Z.pos (digits2_pos p)) with (Zdigits2 (Zpos p)).
  replace (fexp 24 128 (Zdigits2 (Z.pos p) + 0)) with (Zdigits2 (Zpos p) - 24)
    by (unfold fexp, emin; lia).
  set (D := Zdigits2 (Zpos p)) in *.
  assert (Hal : exists mz ez,
             shl_align p 0 (D - 24) = (mz, ez) /\ ez <= 0 /\
             Zpos mz = Zpos p * 2 ^ (- ez) /\ 24 <= D - ez <= 31).
  { unfold shl_align. destruct (D - 24 - 0) as [|d|d] eqn:Ed.
    - exists p, 0. simpl. repeat split; lia.
    - exists p, 0. simpl. repeat split; lia.
    - exists (Pos.iter xO p d), (D - 24). rewrite iter_xO_pow.
      replace (- (D - 24)) with (Z.pos d) by lia. repeat split; lia. }
  destruct Hal as (mz & ez & -> & Hez & Hmz & Hrange).
  assert (Hdz : Zdigits2 (Zpos mz) = D - ez).
  { rewrite Hmz, Zdigits2_shift by lia. fold D. lia. }
  destruct (binary_round_aux_nearest 24 128 ltac:(lia) false (Zpos mz) ez loc_Exact
              (IZR (Zpos p)))
    as (m & e & M & Hres & Hcan & HF & Hnear).
  - lia.
  - lia.
  - rewrite Hdz. unfold emin. lia.
  - rewrite Hdz. lia.
  - unfold located. simpl. rewrite Hmz, mult_IZR.
    rewrite <- bpow_IZR by lia. rewrite Rmult_assoc, <- bpow_add.
    replace (- ez + ez) with 0 by lia. unfold bpow. simpl. lra.
  - exists m, e, M, (Zdigits2 (Zpos mz) + ez - 24). auto.
Qed.

(** [x / y] on [float] is a nearest neighbour of the quotient. *)
Lemma float_div_nearest m1 e1 m2 e2 :
  1 <= Zdigits2 (Zpos m1) + e1 <= 32 ->
  1 <= Zdigits2 (Zpos m2) + e2 <= 32 ->
  exists m e M E,
    float_div (S754_finite false m1 e1) (S754_finite false m2 e2) = S754_finite false m e /\
    Zdigits2 (Zpos m) = 24 /\
    F2R (Zpos m) e = (IZR M * bpow E)%R /\
    nearest 24 (F2R (Zpos m1) e1 / F2R (Zpos m2) e2)%R M E.
Proof.
  intros H1 H2.
  destruct (Zdigits2_bounds (Zpos m1) ltac:(lia)) as (Hd1 & Hlo1 & Hhi1).
  destruct (Zdigits2_bounds (Zpos m2) ltac:(lia)) as (Hd2 & Hlo2 & Hhi2).
  set (d1 := Zdigits2 (Zpos m1)) in *. set (d2 := Zdigits2 (Zpos m2)) in *.
  unfold float_div, SFdiv, SFdiv_core_binary, float_prec, float_emax.
  fold d1 d2.
  replace (fexp 24 128 (d1 + e1 - (d2 + e2))) with (d1 + e1 - (d2 + e2) - 24)
    by (unfold fexp, emin; lia).
  set (e' := Z.min (d1 + e1 - (d2 + e2) - 24) (e1 - e2)).
  set (s := e1 - e2 - e').
  assert (Hs : 0 <= s) by (subst s e'; lia).
  assert (Hs' : 24 + d2 - d1 <= s) by (subst s e'; lia).
  assert (Hm' : match s with
                | 0 => Zpos m1
                | Zpos _ => Z.shiftl (Zpos m1) s
                | Zneg _ => 0
                end = Zpos m1 * 2 ^ s).
  { destruct s as [|p|p] eqn:Es; [simpl; lia | | lia].
    rewrite Z.shiftl_mul_pow2 by lia. reflexivity. }
  rewrite Hm'.
  pose proof (Z_div_mod (Zpos m1 * 2 ^ s) (Zpos m2) ltac:(lia)) as Hdiv.
  destruct (Z.div_eucl (Zpos m1 * 2 ^ s) (Zpos m2)) as [q r].
  destruct Hdiv as [Hqr Hr].
  assert (Hps : 0 < 2 ^ s) by (apply Z.pow_pos_nonneg; lia).
  assert (Hlow : 2 ^ (d1 - 1 + s - d2) * 2 ^ d2 <= Zpos m1 * 2 ^ s).
  { rewrite <- Z.pow_add_r by lia.
    replace (d1 - 1 + s - d2 + d2) with (d1 - 1 + s) by lia.
    rewrite Z.pow_add_r by lia. nia. }
  assert (Hp0 : 0 < 2 ^ (d1 - 1 + s - d2)) by (apply Z.pow_pos_nonneg; lia).
  assert (Hq : 2 ^ (d1 - 1 + s - d2) <= q) by nia.
  assert (Hq23 : 2 ^ 23 <= q).
  { apply Z.le_trans with (2 ^ (d1 - 1 + s - d2)); [|exact Hq].
    apply Z.pow_le_mono_r; lia. }
  assert (Hqpos : 0 < q) by (change (2 ^ 23) with 8388608 in Hq23; lia).
  assert (Hup : q * 2 ^ (d2 - 1) < 2 ^ (d1 + s - d2 + 1) * 2 ^ (d2 - 1)).
  { rewrite <- Z.pow_add_r by lia.
    replace (d1 + s - d2 + 1 + (d2 - 1)) with (d1 + s) by lia.
    rewrite Z.pow_add_r by lia. nia. }
  assert (Hp1 : 0 < 2 ^ (d2 - 1)) by (apply Z.pow_pos_nonneg; lia).
  assert (Hqhi : q < 2 ^ (d1 + s - d2 + 1)) by nia.
  assert (HDq_lo : d1 + s - d2 <= Zdigits2 q).
  { pose proof (Zdigits2_ge q (d1 - 1 + s - d2) Hqpos Hq). lia. }
  assert (HDq_hi : Zdigits2 q <= d1 + s - d2 + 1) by (apply Zdigits2_le; assumption).
  assert (HDq24 : 24 <= Zdigits2 q).
  { pose proof (Zdigits2_ge q 23 Hqpos Hq23). lia. }
  assert (He' : e' + s = e1 - e2) by (subst s; lia).
  set (X := (F2R (Zpos m1) e1 / F2R (Zpos m2) e2)%R).
  assert (Hm2R : (0 < IZR (Zpos m2))%R) by (apply IZR_lt; lia).
  assert (HX : (X = (IZR q + IZR r / IZR (Zpos m2)) * bpow e')%R).
  { subst X. unfold F2R.
    replace e1 with (e2 + (e' + s)) by lia.
    rewrite bpow_add, bpow_shift by lia.
    pose proof (bpow_pos e2). pose proof (bpow_pos e').
    apply (f_equal IZR) in Hqr. rewrite plus_IZR, !mult_IZR in Hqr.
    field_simplify_eq; [|lra]. nra. }
  destruct (binary_round_aux_nearest 24 128 ltac:(lia) (xorb false false) q e'
              (new_location (Zpos m2) r) X)
    as (m & e & M & Hres & Hcan & HF & Hnear).
  - exact Hqpos.
  - exact HDq24.
  - unfold emin. lia.
  - lia.
  - rewrite HX. apply new_location_located; lia.
  - exists m, e, M, (Zdigits2 q + e' - 24). auto.
Qed.

(** [x * 100.00] on [double] is a nearest neighbour of the product. *)
Lemma double_mul_100_nearest m e :
  -31 <= Zdigits2 (Zpos m) + e <= 33 ->
  exists my ey M E,
    double_mul (double_of_float (S754_finite false m e)) double_100
      = S754_finite false my ey /\
    Zdigits2 (Zpos my) = 53 /\
    F2R (Zpos my) ey = (IZR M * bpow E)%R /\
    nearest 53 (100 * F2R (Zpos m) e)%R M E.
Proof.
  intros Hd.
  destruct (Zdigits2_bounds (Zpos m) ltac:(lia)) as (HD & Hlo & Hhi).
  set (dm := Zdigits2 (Zpos m)) in *.
  rewrite double_100_finite. unfold double_of_float, double_mul, SFmul, double_prec, double_emax.
  change (Z.pos (m * 7036874417766400)) with (Zpos m * 7036874417766400).
  assert (Hlo' : 2 ^ (dm + 52 - 1) <= Zpos m * 7036874417766400).
  { replace (dm + 52 - 1) with (dm - 1 + 52) by lia. rewrite Z.pow_add_r by lia.
    change (2 ^ 52) with 4503599627370496. nia. }
  assert (Hhi' : Zpos m * 7036874417766400 < 2 ^ (dm + 53)).
  { rewrite Z.pow_add_r by lia. change (2 ^ 53) with 9007199254740992. nia. }
  assert (Hpos : 0 < Zpos m * 7036874417766400) by lia.
  pose proof (Zdigits2_ge _ _ Hpos Hlo') as HDlo.
  pose proof (Zdigits2_le _ _ Hpos Hhi') as HDhi.
  assert (HxF : (F2R (Zpos m * 7036874417766400) (e + -46) = 100 * F2R (Zpos m) e)%R).
  { unfold F2R. rewrite mult_IZR, bpow_add.
    replace (bpow (-46)) with (/ 70368744177664)%R.
    - replace (IZR 7036874417766400) with (100 * 70368744177664)%R by lra. field.
    - unfold bpow. simpl. f_equal. lra. }
  destruct (binary_round_aux_nearest 53 1024 ltac:(lia) (xorb false false)
              (Zpos m * 7036874417766400) (e + -46) loc_Exact
              (100 * F2R (Zpos m) e)%R)
    as (my & ey & M & Hres & Hcan & HF & Hnear).
  - exact Hpos.
  - lia.
  - unfold emin. lia.
  - lia.
  - unfold located. simpl. symmetry. exact HxF.
  - exists my, ey, M, (Zdigits2 (Zpos m * 7036874417766400) + (e + -46) - 53). auto.
Qed.

End OperationsNearest.

Section PercentMonotone.
Local Open Scope Z_scope.

Lemma float_of_int_facts z :
  0 < z <= INT_MAX ->
  exists m e M E,
    float_of_int z = S754_finite false m e /\
    1 <= Zdigits2 (Zpos m) + e <= 32 /\
    Zdigits2 (Zpos m) = 24 /\
    F2R (Zpos m) e = (IZR M * bpow E)%R /\
    nearest 24 (IZR z) M E.
Proof.
  intros Hz.
  destruct (float_of_int_pos z Hz) as (m0 & e0 & E0 & Hdig & _).
  destruct (float_of_int_nearest z Hz) as (m & e & M & E & E1 & Hcan & HF & Hn).
  rewrite E0 in E1. injection E1 as -> ->.
  exists m, e, M, E. auto.
Qed.

Lemma float_div_facts m1 e1 m2 e2 :
  1 <= Zdigits2 (Zpos m1) + e1 <= 32 ->
  1 <= Zdigits2 (Zpos m2) + e2 <= 32 ->
  exists m e M E,
    float_div (S754_finite false m1 e1) (S754_finite false m2 e2) = S754_finite false m e /\
    -31 <= Zdigits2 (Zpos m) + e <= 33 /\
    Zdigits2 (Zpos m) = 24 /\
    F2R (Zpos m) e = (IZR M * bpow E)%R /\
    nearest 24 (F2R (Zpos m1) e1 / F2R (Zpos m2) e2)%R M E.
Proof.
  intros H1 H2.
  destruct (float_div_pos m1 e1 m2 e2 H1 H2) as (m0 & e0 & E0 & Hdig & _).
  destruct (float_div_nearest m1 e1 m2 e2 H1 H2) as (m & e & M & E & E1 & Hcan & HF & Hn).
  rewrite E0 in E1. injection E1 as -> ->.
  exists m, e, M, E. auto.
Qed.

Lemma F2R_pos m e : (0 < F2R (Zpos m) e)%R.
Proof.
  unfold F2R. apply Rmult_lt_0_compat; [apply IZR_lt; lia | apply bpow_pos].
Qed.

Lemma progress_percent_0 t : 0 < t <= INT_MAX -> progress_percent 0 t = Some 0.
Proof.
  intros Ht. destruct (float_of_int_pos t Ht) as (m & e & E & _).
  unfold progress_percent. rewrite E. reflexivity.
Qed.

(** The percentage never decreases while the download grows. *)
Lemma progress_percent_mono d1 d2 t p1 p2 :
  0 <= d1 <= d2 -> d2 <= INT_MAX ->
  0 < t <= INT_MAX ->
  progress_percent d1 t = Some p1 ->
  progress_percent d2 t = Some p2 ->
  p1 <= p2.
Proof.
  intros [Hd1 Hd12] Hd2 Ht H1 H2.
  destruct (Z.eq_dec d1 d2) as [->|Hne]; [rewrite H1 in H2; injection H2; lia|].
  assert (Hd2pos : 0 < d2) by lia.
  destruct (float_of_int_facts t Ht) as (mt & et & Mt & Et & Eft & Hdigt & _).
  destruct (float_of_int_facts d2 ltac:(lia))
    as (m2 & e2 & M2 & E2 & Ef2 & Hdig2 & Hcan2 & HF2 & Hn2).
  destruct (float_div_facts m2 e2 mt et Hdig2 Hdigt)
    as (mq2 & eq2 & Mq2 & Eq2 & Efq2 & Hdigq2 & Hcanq2 & HFq2 & Hnq2).
  destruct (double_mul_100_nearest mq2 eq2 Hdigq2)
    as (my2 & ey2 & My2 & Ey2 & Efy2 & Hcany2 & HFy2 & Hny2).
  assert (Hp2 : p2 = trunc_pos my2 ey2).
  { unfold progress_percent in H2. rewrite Ef2, Eft, Efq2, Efy2 in H2.
    unfold int_of_double in H2.
    destruct (in_int_range (trunc_pos my2 ey2)); [|discriminate]. now injection H2. }
  pose proof (trunc_pos_floor my2 ey2) as [Hfl2 Hfu2]. rewrite <- Hp2 in Hfl2, Hfu2.
  destruct (Z.eq_dec d1 0) as [->|Hnz].
  { rewrite progress_percent_0 in H1 by exact Ht. injection H1 as <-.
    pose proof (F2R_pos my2 ey2) as Hy.
    assert (IZR (-1) < IZR p2)%R by (simpl; lra). apply lt_IZR in H. lia. }
  destruct (float_of_int_facts d1 ltac:(lia))
    as (m1 & e1 & M1 & E1 & Ef1 & Hdig1 & Hcan1 & HF1 & Hn1).
  destruct (float_div_facts m1 e1 mt et Hdig1 Hdigt)
    as (mq1 & eq1 & Mq1 & Eq1 & Efq1 & Hdigq1 & Hcanq1 & HFq1 & Hnq1).
  destruct (double_mul_100_nearest mq1 eq1 Hdigq1)
    as (my1 & ey1 & My1 & Ey1 & Efy1 & Hcany1 & HFy1 & Hny1).
  assert (Hp1 : p1 = trunc_pos my1 ey1).
  { unfold progress_percent in H1. rewrite Ef1, Eft, Efq1, Efy1 in H1.
    unfold int_of_double in H1.
    destruct (in_int_range (trunc_pos my1 ey1)); [|discriminate]. now injection H1. }
  pose proof (trunc_pos_floor my1 ey1) as [Hfl1 Hfu1]. rewrite <- Hp1 in Hfl1, Hfu1.
  (* the three roundings keep the order *)
  assert (HY : (F2R (Zpos my1) ey1 <= F2R (Zpos my2) ey2)%R).
  { assert (Hd : (F2R (Zpos m1) e1 <= F2R (Zpos m2) e2)%R).
    { rewrite HF1, HF2. apply (nearest_mono 24 ltac:(lia) _ _ _ _ _ _ Hn1 Hn2).
      apply IZR_lt. lia. }
    destruct (Req_dec (F2R (Zpos m1) e1) (F2R (Zpos m2) e2)) as [Heq|Hneq].
    { destruct (canonical_unique m1 e1 m2 e2) as [-> ->]; [congruence | exact Heq|].
      rewrite Efq2 in Efq1. injection Efq1 as -> ->.
      rewrite Efy2 in Efy1. injection Efy1 as -> ->. lra. }
    assert (Hq : (F2R (Zpos mq1) eq1 <= F2R (Zpos mq2) eq2)%R).
    { rewrite HFq1, HFq2. apply (nearest_mono 24 ltac:(lia) _ _ _ _ _ _ Hnq1 Hnq2).
      pose proof (F2R_pos mt et) as Hpos.
      apply Rmult_lt_compat_r; [apply Rinv_0_lt_compat; exact Hpos | lra]. }
    destruct (Req_dec (F2R (Zpos mq1) eq1) (F2R (Zpos mq2) eq2)) as [Heq|Hneq'].
    { destruct (canonical_unique mq1 eq1 mq2 eq2) as [-> ->]; [congruence | exact Heq|].
      rewrite Efy2 in Efy1. injection Efy1 as -> ->. lra. }
    rewrite HFy1, HFy2. apply (nearest_mono 53 ltac:(lia) _ _ _ _ _ _ Hny1 Hny2). lra. }
  assert (IZR p1 < IZR (p2 + 1))%R by (rewrite plus_IZR; lra).
  apply lt_IZR in H. lia.
Qed.

End PercentMonotone.

(** ** One download: the percentage and the cursor *)

Section OneDownload.
Local Open Scope Z_scope.

Lemma data_lens_cons evt evts :
  data_lens (evt :: evts)
  = (if is_data evt then [evt_data_len evt] else []) ++ data_lens evts.
Proof. unfold data_lens. simpl. destruct (is_data evt); reflexivity. Qed.

Lemma data_lens_on_data lens : data_lens (map on_data lens) = lens.
Proof.
  unfold data_lens. induction lens as [|len lens IH]; [reflexivity|].
  simpl. now rewrite IH.
Qed.

(** Once the percentage is above the cursor, the rest of the download sends
    nothing. *)
Lemma deliver_http_stalled evts :
  forall s s' p,
    deliver _http_event_handler evts s = Some s' ->
    Forall (fun len => 0 <= len) (data_lens evts) ->
    0 <= downloaded_data_len s ->
    0 < ota_img_data_len s <= INT_MAX ->
    progress_percent (downloaded_data_len s) (ota_img_data_len s) = Some p ->
    loop_var s < p ->
    loop_var s <> 105 ->
    published s' = published s /\ loop_var s' = loop_var s.
Proof.
  induction evts as [|evt evts IH]; intros s s' p H Hlens Hd Ht Hp Hlt Hc; simpl in H.
  - injection H as <-. auto.
  - destruct (_http_event_handler evt s) as [s1|] eqn:E; [|discriminate]. simpl in H.
    rewrite data_lens_cons in Hlens. apply Forall_app in Hlens as [Hlen Hlens].
    apply http_event_handler_inv in E as [[Hid E]|[Hne (lv & fmt & ->)]].
    + apply is_data_spec in Hid. rewrite Hid in Hlen.
      inversion Hlen as [|? ? Hlen0 _]; subst.
      apply http_on_data_inv in E
        as (d & p' & Hadd & Hp' & Hd1 & _ & Ht1 & _ & _ & _ & Hcase).
      apply int_add_Some in Hadd as [-> Hrange].
      assert (Hmono : p <= p').
      { apply (progress_percent_mono (downloaded_data_len s)
                 (downloaded_data_len s + evt_data_len evt) (ota_img_data_len s));
          [lia | lia | exact Ht | exact Hp | exact Hp']. }
      destruct Hcase as [(Heq & _)|(_ & Hpub & Hl)]; [lia|].
      assert (Hl1 : loop_var s1 = loop_var s).
      { rewrite Hl. destruct (loop_var s =? 105) eqn:E105; [|reflexivity].
        apply Z.eqb_eq in E105. contradiction. }
      destruct (IH s1 s' p' H Hlens) as [H1 H2];
        [rewrite Hd1; lia | rewrite Ht1; exact Ht | rewrite Hd1, Ht1; exact Hp'
        | rewrite Hl1; lia | rewrite Hl1; exact Hc |].
      rewrite H1, H2, Hpub, Hl1. auto.
    + destruct (IH _ s' p H Hlens) as [H1 H2]; hal_simpl; try assumption.
      rewrite H1, H2, published_emit. simpl. rewrite app_nil_r. auto.
Qed.

(** X10.  While a download stays within the total, the percentage the data
    handler computes is defined, lies between 0 and 100 and never
    decreases from one piece of body to the next, for every size of image
    an [int] can hold: none of the three roundings, of the conversion to
    [float], of the division and of the multiplication by [100.00],
    reverses the order. *)
Theorem percent_never_decreases d1 d2 t :
  0 <= d1 <= d2 ->
  d2 <= t ->
  0 < t <= INT_MAX ->
  exists p1 p2,
    progress_percent d1 t = Some p1 /\
    progress_percent d2 t = Some p2 /\
    0 <= p1 <= p2 /\ p2 <= 100.
Proof.
  intros Hd Hdt Ht.
  destruct (progress_percent_defined d1 t ltac:(lia) Ht) as (p1 & H1 & Hr1 & _).
  destruct (progress_percent_defined d2 t ltac:(lia) Ht) as (p2 & H2 & Hr2 & _).
  exists p1, p2. split; [exact H1|]. split; [exact H2|].
  pose proof (progress_percent_mono d1 d2 t p1 p2 Hd ltac:(lia) Ht H1 H2). lia.
Qed.

Lemma percent_never_decreases_witness :
  exists p1 p2,
    progress_percent 290 1000 = Some p1 /\
    progress_percent 291 1000 = Some p2 /\
    0 <= p1 <= p2 /\ p2 <= 100.
Proof.
  apply percent_never_decreases; unfold INT_MAX; lia.
Defined.

(** X11.  A piece of body that takes the percentage past the cursor ends
    the reports of this download: neither this event nor any later one
    sends a status message, and [loop_var] stays where it is, whatever
    pieces follow.  "Complete" in particular is not sent by this call of
    [esp_https_ota]. *)
Theorem progress_stalls_once_cursor_is_passed len evts s s1 s' :
  http_on_data len s = Some s1 ->
  loop_var s < update_progress_percent s1 ->
  deliver _http_event_handler evts s1 = Some s' ->
  0 <= downloaded_data_len s1 ->
  Forall (fun len => 0 <= len) (data_lens evts) ->
  0 < ota_img_data_len s <= INT_MAX ->
  cursor_ok (loop_var s) ->
  published s' = published s /\ loop_var s' = loop_var s.
Proof.
  intros E Hlt Hrest Hd Hlens Ht Hc.
  apply http_on_data_inv in E
    as (d & p & _ & Hp & Hd1 & Hupd & Ht1 & _ & _ & _ & Hcase).
  rewrite Hupd in Hlt.
  destruct Hcase as [(Heq & _)|(_ & Hpub & Hl)]; [lia|].
  assert (Hl1 : loop_var s1 = loop_var s).
  { rewrite Hl. destruct (loop_var s =? 105) eqn:E105; [|reflexivity].
    apply Z.eqb_eq in E105. destruct Hc as [Hc _]. lia. }
  destruct (deliver_http_stalled evts s1 s' p Hrest Hlens Hd) as [H1 H2];
    [rewrite Ht1; exact Ht | rewrite Hd1, Ht1; exact Hp | rewrite Hl1; exact Hlt
    | rewrite Hl1; destruct Hc as [Hc _]; lia |].
  rewrite H1, H2, Hpub, Hl1. auto.
Qed.

Lemma progress_stalls_once_cursor_is_passed_witness :
  option_map (fun s' => (published s', loop_var s'))
    (s1 ← http_on_data 137 (downloading 0 5);
     deliver _http_event_handler (map on_data [137; 137; 137; 137; 137; 137; 41]) s1)
  = Some ([], 5).
Proof.
  destruct (http_on_data 137 (downloading 0 5)) as [s1|] eqn:E1;
    [|vm_compute in E1; discriminate].
  hal_simpl.
  destruct (deliver _http_event_handler (map on_data [137; 137; 137; 137; 137; 137; 41]) s1)
    as [s'|] eqn:E2.
  - destruct (progress_stalls_once_cursor_is_passed 137
                (map on_data [137; 137; 137; 137; 137; 137; 41])
                (downloading 0 5) s1 s' E1)
      as [H1 H2].
    + vm_compute in E1. injection E1 as <-. simpl. lia.
    + exact E2.
    + vm_compute in E1. injection E1 as <-. simpl. lia.
    + rewrite data_lens_on_data. repeat (constructor; [lia|]). constructor.
    + simpl. unfold INT_MAX. lia.
    + split; [simpl; lia | reflexivity].
    + simpl. rewrite H1, H2. reflexivity.
  - exfalso. vm_compute in E1. injection E1 as <-. vm_compute in E2. discriminate.
Defined.

(** One download never takes the cursor around. *)
Lemma deliver_http_never_wraps evts :
  forall s s',
    deliver _http_event_handler evts s = Some s' ->
    Forall (fun len => 0 <= len) (data_lens evts) ->
    0 <= downloaded_data_len s ->
    0 < ota_img_data_len s <= INT_MAX ->
    cursor_ok (loop_var s) ->
    exists n : nat,
      published s' =
        published s ++ map (progress_message (ota_action_id s)) (cursor_walk n (loop_var s)) /\
      loop_var s + 5 * Z.of_nat n <= 105.
Proof.
  induction evts as [|evt evts IH]; intros s s' H Hlens Hd Ht Hc; simpl in H.
  - injection H as <-. exists 0%nat. simpl. rewrite app_nil_r.
    destruct Hc as [Hc _]. split; [reflexivity | lia].
  - destruct (_http_event_handler evt s) as [s1|] eqn:E; [|discriminate]. simpl in H.
    rewrite data_lens_cons in Hlens. apply Forall_app in Hlens as [Hlen Hlens].
    pose proof (http_event_handler_cursor_ok _ _ _ E Hc) as Hc1.
    apply http_event_handler_inv in E as [[Hid E]|[Hne (lv & fmt & ->)]].
    + apply is_data_spec in Hid. rewrite Hid in Hlen.
      inversion Hlen as [|? ? Hlen0 _]; subst.
      apply http_on_data_inv in E
        as (d & p & Hadd & Hp & Hd1 & _ & Ht1 & Hid1 & _ & _ & Hcase).
      apply int_add_Some in Hadd as [-> Hrange].
      assert (Hd1' : 0 <= downloaded_data_len s1) by (rewrite Hd1; lia).
      assert (Ht1' : 0 < ota_img_data_len s1 <= INT_MAX) by (rewrite Ht1; exact Ht).
      destruct Hcase as [(Heq & Hpub & Hl)|(_ & Hpub & Hl)].
      * destruct (Z.eq_dec (loop_var s) 100) as [H100|H100].
        -- (* "Complete": the cursor is back at 0, below the percentage *)
           rewrite H100 in Hl. simpl in Hl.
           destruct (deliver_http_stalled evts s1 s' p H Hlens Hd1' Ht1') as [H1 _];
             [rewrite Hd1, Ht1; exact Hp | lia | lia |].
           exists 1%nat. rewrite H1, Hpub. simpl. split; [reflexivity | lia].
        -- assert (Hnext : loop_var s1 = loop_var s + 5).
           { rewrite Hl. destruct (loop_var s =? 100) eqn:E100; [|reflexivity].
             apply Z.eqb_eq in E100. contradiction. }
           destruct (IH s1 s' H Hlens Hd1' Ht1' Hc1) as (n & Hn & Hbound).
           exists (S n). rewrite Hn, Hpub, Hid1, Hnext, <- app_assoc. simpl.
           unfold next_cursor.
           replace (loop_var s =? 100) with false by (symmetry; now apply Z.eqb_neq).
           split; [reflexivity | lia].
      * assert (Hl1 : loop_var s1 = loop_var s).
        { rewrite Hl. destruct (loop_var s =? 105) eqn:E105; [|reflexivity].
          apply Z.eqb_eq in E105. destruct Hc as [Hc _]. lia. }
        destruct (IH s1 s' H Hlens Hd1' Ht1' Hc1) as (n & Hn & Hbound).
        exists n. rewrite Hn, Hpub, Hid1, Hl1. split; [reflexivity | lia].
    + destruct (IH _ s' H Hlens) as (n & Hn & Hbound); hal_simpl; try assumption.
      exists n. rewrite Hn, published_emit. simpl. rewrite app_nil_r.
      split; [reflexivity | exact Hbound].
Qed.

(** The total the size discovery leaves is an [int], and not negative when
    no piece of body has a negative length. *)
Lemma deliver_test_range evts :
  forall s s',
    deliver _test_event_handler evts s = Some s' ->
    Forall (fun len => 0 <= len) (data_lens evts) ->
    0 <= ota_img_data_len s <= INT_MAX ->
    0 <= ota_img_data_len s' <= INT_MAX.
Proof.
  induction evts as [|evt evts IH]; intros s s' H Hlens Ht; simpl in H.
  - injection H as <-. exact Ht.
  - destruct (_test_event_handler evt s) as [s1|] eqn:E; [|discriminate]. simpl in H.
    rewrite data_lens_cons in Hlens. apply Forall_app in Hlens as [Hlen Hlens].
    apply (IH s1 s' H Hlens). clear -E Hlen Ht.
    unfold _test_event_handler, is_data in *.
    destruct (event_id evt); try (injection E as <-; hal_simpl; exact Ht).
    destruct (int_add _ _) as [t|] eqn:Hadd; [|discriminate].
    apply int_add_Some in Hadd as [-> Hr]. injection E as <-. hal_simpl.
    simpl in Hlen. inversion Hlen as [|? ? Hlen0 _]; subst. lia.
Qed.

(** X12.  One call of [bytebeam_hal_ota] never takes the cursor around: the
    status messages it sends, started with the cursor at [c], carry [c],
    [c + 5], ... in this order and stop at 100 at the latest.  A call
    therefore sends at most 21 messages, each percentage at most once, and
    "Complete" at most once and as its last message: what arrives after
    "Complete" is not reported. *)
Theorem one_call_never_wraps probe download s r s' :
  bytebeam_hal_ota probe download s = Some (r, s') ->
  Forall (fun len => 0 <= len) (data_lens (events probe)) ->
  Forall (fun len => 0 <= len) (data_lens (events download)) ->
  cursor_ok (loop_var s) ->
  exists n : nat,
    published s' =
      published s ++ map (progress_message (ota_action_id s)) (cursor_walk n (loop_var s)) /\
    loop_var s + 5 * Z.of_nat n <= 105.
Proof.
  intros H Hprobe Hlens Hc.
  apply bytebeam_hal_ota_inv in H as (s2 & H2 & Hd & _).
  pose proof (ota_download_entry_inv _ _ _ H2)
    as (s1 & Hs1 & Ht21 & Hl & Hz & _ & Hid & Hpub & _).
  apply deliver_test_range in Hs1; [|exact Hprobe | unfold INT_MAX; simpl; lia].
  rewrite <- Ht21 in Hs1. rewrite <- Hpub, <- Hid, <- Hl.
  destruct (Z.eq_dec (ota_img_data_len s2) 0) as [H0|H0].
  - (* nothing to divide by: the download had no piece of body *)
    destruct (List.filter is_data (events download)) as [|evt rest] eqn:Ef.
    + pose proof (deliver_skip _ http_event_handler_skip (events download) s2 s2 Ef eq_refl)
        as Hskip.
      rewrite Hd in Hskip. apply (inj Some) in Hskip.
      apply observable_fields in Hskip as (_ & _ & _ & _ & _ & _ & _ & _ & _ & Hp).
      exists 0%nat. simpl. rewrite app_nil_r. split; [exact Hp|].
      rewrite Hl. destruct Hc as [Hc _]. lia.
    + rewrite (deliver_http_zero_total (events download) s2 H0) in Hd; [discriminate|].
      intros Hn. clear -Hn Ef. induction Hn as [|e l He Hn IH]; [discriminate|].
      simpl in Ef. destruct (is_data e) eqn:Hd; [|now apply IH].
      apply is_data_spec in Hd. contradiction.
  - apply (deliver_http_never_wraps _ _ _ Hd Hlens); [lia | lia | rewrite Hl; exact Hc].
Qed.

Lemma one_call_never_wraps_witness :
  exists s',
    option_map snd
      (bytebeam_hal_ota image_1000 (transfer chunks_of_5 ESP_OK) (downloading 0 0))
    = Some s' /\
    exists n : nat,
      published s' = map (progress_message "42") (cursor_walk n 0) /\
      0 + 5 * Z.of_nat n <= 105.
Proof.
  destruct (bytebeam_hal_ota _ _ _) as [[r s']|] eqn:E;
    [|vm_compute in E; discriminate].
  exists s'. split; [reflexivity|].
  apply (one_call_never_wraps _ _ _ _ _ E).
  - unfold image_1000, transfer. cbn [events]. rewrite data_lens_on_data.
    constructor; [lia | constructor].
  - unfold transfer. cbn [events]. rewrite data_lens_on_data.
    apply List.Forall_forall. intros len Hin. apply repeat_spec in Hin. lia.
  - split; [simpl; lia | reflexivity].
Defined.

End OneDownload.

(** ** The MQTT event handler *)

Import HalMqtt.

Ltac mqtt_simpl :=
  cbn [hal calls call set_hal set_connection_status
       downloaded_data_len ota_img_data_len update_progress_percent loop_var
       connection_status ota_update_completed ota_action_id_str ota_action_id
       nvs trace fst snd] in *.

Section MqttFacts.
  Variable handle_actions : string -> hal_state -> hal_state.

Lemma log_error_if_nonzero_hal code w : hal (log_error_if_nonzero code w) = hal w.
Proof. unfold log_error_if_nonzero. destruct (code =? 0); reflexivity. Qed.

Lemma log_error_if_nonzero_calls code w :
  calls (log_error_if_nonzero code w)
  = calls w ++ (if code =? 0 then [] else [MqttLog ESP_LOG_ERROR "Last error %s: 0x%x"]).
Proof.
  unfold log_error_if_nonzero. destruct (code =? 0); simpl; [now rewrite app_nil_r | reflexivity].
Qed.

(** What one event does to [connection_status]. *)
Lemma mqtt_event_handler_link id event w :
  (forall payload s,
      connection_status (handle_actions payload s) = connection_status s) ->
  connection_status (hal (mqtt_event_handler handle_actions id event w))
  = match id with
    | MQTT_EVENT_CONNECTED => 1
    | MQTT_EVENT_DISCONNECTED => 0
    | _ => connection_status (hal w)
    end.
Proof.
  intros Hk. unfold mqtt_event_handler.
  destruct id; mqtt_simpl; try reflexivity; [apply Hk|].
  destruct (error_type (error_handle event)); mqtt_simpl;
    rewrite ?log_error_if_nonzero_hal; reflexivity.
Qed.

Lemma dispatch_app evts1 evts2 w :
  dispatch handle_actions (evts1 ++ evts2) w
  = dispatch handle_actions evts2 (dispatch handle_actions evts1 w).
Proof.
  revert w. induction evts1 as [|[id event] evts1 IH]; intros w; [reflexivity|].
  simpl. apply IH.
Qed.

Lemma dispatch_no_link evts :
  (forall payload s,
      connection_status (handle_actions payload s) = connection_status s) ->
  forall w,
    no_link_event evts ->
    connection_status (hal (dispatch handle_actions evts w)) = connection_status (hal w).
Proof.
  intros Hk. induction evts as [|[id event] evts IH]; intros w Hn; [reflexivity|].
  inversion Hn as [|? ? Hid Hrest]; subst. simpl in *.
  rewrite (IH _ Hrest), (mqtt_event_handler_link _ _ _ Hk).
  destruct id; try discriminate; reflexivity.
Qed.

(** The calls one event adds. *)
Lemma mqtt_event_handler_calls id event w :
  exists added,
    calls (mqtt_event_handler handle_actions id event w) = calls w ++ added /\
    List.filter is_handle_actions added
    = match id with MQTT_EVENT_DATA => [HandleActions (data event)] | _ => [] end /\
    List.filter is_subscribe added
    = match id with MQTT_EVENT_CONNECTED => [SubscribeToActions] | _ => [] end /\
    length (List.filter is_mqtt_error_log added)
    = match id, error_type (error_handle event) with
      | MQTT_EVENT_ERROR, MQTT_ERROR_TYPE_TCP_TRANSPORT => nonzero_codes (error_handle event)
      | _, _ => 0%nat
      end.
Proof.
  unfold mqtt_event_handler.
  destruct id; mqtt_simpl; rewrite <- ?app_assoc;
    try (eexists; split; [reflexivity|]; simpl;
         destruct (error_type (error_handle event)); repeat split; reflexivity).
  destruct (error_type (error_handle event)); mqtt_simpl.
  - rewrite !log_error_if_nonzero_calls. mqtt_simpl. rewrite <- !app_assoc.
    eexists; split; [reflexivity|]. unfold nonzero_codes.
    destruct (esp_tls_last_esp_err _ =? 0), (esp_tls_stack_err _ =? 0),
             (esp_transport_sock_errno _ =? 0); repeat split; reflexivity.
  - rewrite <- ?app_assoc. eexists; split; [reflexivity|]. repeat split; reflexivity.
Qed.

End MqttFacts.

Section MqttTheorems.
  Variable handle_actions : string -> hal_state -> hal_state.

(** X13.  Provided [handle_actions] leaves [connection_status] alone, after
    any sequence of MQTT events [connection_status] tells which of
    [MQTT_EVENT_CONNECTED] and [MQTT_EVENT_DISCONNECTED] came last: 1 after
    the first, 0 after the second, and the value it had when neither
    occurred.  No other event changes it; an [MQTT_EVENT_ERROR], with
    whatever error codes, leaves a 1 in place until the disconnect is
    delivered. *)
Theorem connection_status_is_last_link_event :
  (forall payload s,
      connection_status (handle_actions payload s) = connection_status s) ->
  (forall evts w,
      no_link_event evts ->
      connection_status (hal (dispatch handle_actions evts w)) = connection_status (hal w)) /\
  (forall before id event after w,
      is_link_event id = true ->
      no_link_event after ->
      connection_status (hal (dispatch handle_actions (before ++ (id, event) :: after) w))
      = match id with MQTT_EVENT_CONNECTED => 1 | _ => 0 end).
Proof.
  intros Hk. split; [intros evts w; now apply dispatch_no_link|].
  intros before id event after w Hid Hn.
  rewrite dispatch_app. simpl.
  rewrite (dispatch_no_link _ _ Hk _ Hn), (mqtt_event_handler_link _ _ _ _ Hk).
  destruct id; try discriminate; reflexivity.
Qed.

(** X14.  Every [MQTT_EVENT_DATA] is handed to [handle_actions], once, with
    its payload and in the order of arrival, whether or not the handler has
    seen a connect; no other event reaches [handle_actions]; and
    [subscribe_to_actions] is called once for every
    [MQTT_EVENT_CONNECTED], so again after each reconnect. *)
Theorem every_data_event_is_handled evts :
  forall w,
    List.filter is_handle_actions (calls (dispatch handle_actions evts w))
    = List.filter is_handle_actions (calls w) ++ map HandleActions (payloads evts) /\
    length (List.filter is_subscribe (calls (dispatch handle_actions evts w)))
    = (length (List.filter is_subscribe (calls w)) + connects evts)%nat.
Proof.
  induction evts as [|[id event] evts IH]; intros w.
  - simpl. rewrite app_nil_r. unfold connects. simpl. split; [reflexivity | lia].
  - simpl. destruct (IH (mqtt_event_handler handle_actions id event w)) as (H1 & H2).
    rewrite H1, H2.
    destruct (mqtt_event_handler_calls handle_actions id event w) as (added & -> & Ha & Hs & _).
    rewrite !List.filter_app, Ha, Hs, length_app, <- app_assoc. unfold connects. simpl.
    destruct id; simpl; split; try reflexivity; lia.
Qed.

(** X15.  The handler logs at the error level through
    [log_error_if_nonzero] only: after any sequence of events the number of
    error lines is the number of nonzero codes among the three of each
    [MQTT_EVENT_ERROR] whose type is [MQTT_ERROR_TYPE_TCP_TRANSPORT].  An
    error of another type, a refused connection for one, and a transport
    error whose three codes are 0 leave no error line. *)
Theorem error_lines_count_transport_codes evts :
  forall w,
    length (List.filter is_mqtt_error_log (calls (dispatch handle_actions evts w)))
    = (length (List.filter is_mqtt_error_log (calls w)) + transport_codes evts)%nat.
Proof.
  induction evts as [|[id event] evts IH]; intros w.
  - unfold transport_codes. simpl. lia.
  - simpl. rewrite IH.
    destruct (mqtt_event_handler_calls handle_actions id event w) as (added & -> & _ & _ & He).
    rewrite List.filter_app, length_app, He. unfold transport_codes. simpl. lia.
Qed.

End MqttTheorems.

Section MqttWitnesses.

Lemma connection_status_is_last_link_event_witness :
  connection_status
    (hal (dispatch (fun _ s => s)
            ([(MQTT_EVENT_CONNECTED, event_of_payload "")]
             ++ (MQTT_EVENT_DISCONNECTED, event_of_payload "")
             :: [(MQTT_EVENT_ERROR, event_of_error MQTT_ERROR_TYPE_TCP_TRANSPORT 0 0 104);
                 (MQTT_EVENT_DATA, event_of_payload "{}")])
            {| hal := power_on "" nvs_blank; calls := [] |})) = 0.
Proof.
  destruct (connection_status_is_last_link_event (fun _ s => s)) as [_ H];
    [reflexivity|].
  apply (H [(MQTT_EVENT_CONNECTED, event_of_payload "")] MQTT_EVENT_DISCONNECTED);
    [reflexivity|].
  repeat constructor.
Defined.

End MqttWitnesses.

(** ** The logging macros of [bytebeam_sdk.h] *)

Import SdkLog.

Section LogMacroTheorems.
  Variable current : bytebeam_log_level_t.
  Variable publish : string -> string -> string -> bytebeam_err_t.

(** X16.  Each of the five logging macros is enabled exactly when the level
    [bytebeam_log_level_get] returns is at least its own, in the order
    error, warning, information, debug, verbose; with the level
    [BYTEBEAM_LOG_LEVEL_NONE] none is.  An enabled macro calls
    [bytebeam_log_publish] once and writes one line to the local log; a
    disabled one does neither, so a line kept from the cloud is kept from
    the console too. *)
Theorem log_macros_follow_the_level tag fmt :
  let attempts out := length (List.filter is_log_publish out) in
  attempts (BYTEBEAM_LOGE current publish tag fmt)
  = (if Z.leb 1 (level_value current) then 1%nat else 0%nat) /\
  attempts (BYTEBEAM_LOGW current publish tag fmt)
  = (if Z.leb 2 (level_value current) then 1%nat else 0%nat) /\
  attempts (BYTEBEAM_LOGI current publish tag fmt)
  = (if Z.leb 3 (level_value current) then 1%nat else 0%nat) /\
  attempts (BYTEBEAM_LOGD current publish tag fmt)
  = (if Z.leb 4 (level_value current) then 1%nat else 0%nat) /\
  attempts (BYTEBEAM_LOGV current publish tag fmt)
  = (if Z.leb 5 (level_value current) then 1%nat else 0%nat) /\
  Forall (fun out => length out = (2 * attempts out)%nat)
    [BYTEBEAM_LOGE current publish tag fmt;
     BYTEBEAM_LOGW current publish tag fmt;
     BYTEBEAM_LOGI current publish tag fmt;
     BYTEBEAM_LOGD current publish tag fmt;
     BYTEBEAM_LOGV current publish tag fmt].
Proof.
  unfold BYTEBEAM_LOGE, BYTEBEAM_LOGW, BYTEBEAM_LOGI, BYTEBEAM_LOGD, BYTEBEAM_LOGV,
    BYTEBEAM_LOGX.
  destruct current; simpl;
    destruct (publish "ERROR" tag fmt), (publish "WARN" tag fmt),
             (publish "INFO" tag fmt), (publish "DEBUG" tag fmt),
             (publish "VERBOSE" tag fmt);
    repeat split; repeat constructor.
Qed.

End LogMacroTheorems.
